(** * Flashcard generation route: a shallow embedding and its properties

    The development follows the route handler of the application
    ([POST] with its helpers [extractJson] and [buildFlashcardPrompt]).

    - JavaScript strings are sequences of UTF-16 code units: [list N].
    - JavaScript numbers are IEEE 754 binary64 values: [spec_float] with
      precision 53 and maximal exponent 1024.
    - String indices and array lengths are integers below 2^53, which
      binary64 represents exactly; they are kept in [Z].
    - Values produced by [JSON.parse] are the inductive type [value].
    - The identity service, the row store and the completion service
      are a [World] of answers plus a [Store]; the handler runs in a
      small state-and-exception monad that also logs every outgoing
      call. *)

From Stdlib Require Import ZArith NArith List String Ascii Bool Lia.
From Stdlib Require Import Floats.SpecFloat.
From stdpp Require Import base option list gmap.

Local Open Scope Z_scope.

(** ** Strings *)

Abbreviation jsstring := (list N) (only parsing).

(** A source literal as a sequence of code units. *)
Definition js (s : string) : jsstring :=
  List.map N_of_ascii (list_ascii_of_string s).

(** The code unit of an ASCII character. *)
Definition ch (a : ascii) : N := N_of_ascii a.
Arguments ch a%_char.

(** The double quote and the backslash. *)
Definition dquote : N := 34%N.
Definition backslash : N := 92%N.

(** A literal written with an apostrophe wherever the text has a
    double quote; used for JSON texts. *)
Definition jsq (s : string) : jsstring :=
  List.map (fun c => if (c =? ch "'")%N then dquote else c) (js s).

Module Str.

(** WhiteSpace and LineTerminator code points of ECMAScript; the set
    used by [trim], by [\s] and by string-to-number conversion. *)
Definition is_ws (c : N) : bool :=
  match c with
  | 9 | 10 | 11 | 12 | 13 | 32 | 160 | 5760 | 8232 | 8233 | 8239 | 8287
  | 12288 | 65279 => true
  | _ => (8192 <=? c)%N && (c <=? 8202)%N
  end%N.

Fixpoint trimStart (s : jsstring) : jsstring :=
  match s with
  | c :: s' => if is_ws c then trimStart s' else s
  | [] => []
  end.

(** [trimEnd] keeps a character when it is not white space or when
    something survives to its right. *)
Fixpoint trimEnd (s : jsstring) : jsstring :=
  match s with
  | [] => []
  | c :: s' =>
      match trimEnd s' with
      | [] => if is_ws c then [] else [c]
      | r => c :: r
      end
  end.

Definition trim (s : jsstring) : jsstring := trimEnd (trimStart s).

(** [s.indexOf(c)] for a one-character search string: the first index
    holding [c], or -1. *)
Fixpoint indexOf_from (i : Z) (s : jsstring) (c : N) : Z :=
  match s with
  | [] => -1
  | d :: s' => if (d =? c)%N then i else indexOf_from (i + 1) s' c
  end.

Definition indexOf (s : jsstring) (c : N) : Z := indexOf_from 0 s c.

(** [s.lastIndexOf(c)]: the last index holding [c], or -1. *)
Fixpoint lastIndexOf_from (i : Z) (s : jsstring) (c : N) : Z :=
  match s with
  | [] => -1
  | d :: s' =>
      let r := lastIndexOf_from (i + 1) s' c in
      if r =? -1 then (if (d =? c)%N then i else -1) else r
  end.

Definition lastIndexOf (s : jsstring) (c : N) : Z := lastIndexOf_from 0 s c.

(** [s.slice(start, end)] with integer arguments; a negative argument
    counts from the end, both are clamped to the string. *)
Definition slice (s : jsstring) (start stop : Z) : jsstring :=
  let len := Z.of_nat (length s) in
  let from := if start <? 0 then Z.max (len + start) 0 else Z.min start len in
  let to := if stop <? 0 then Z.max (len + stop) 0 else Z.min stop len in
  take (Z.to_nat (Z.max (to - from) 0)) (drop (Z.to_nat from) s).

(** [s.slice(start)]. *)
Definition slice_from (s : jsstring) (start : Z) : jsstring :=
  slice s start (Z.of_nat (length s)).

Fixpoint startsWith (s p : jsstring) : bool :=
  match p, s with
  | [], _ => true
  | _ :: _, [] => false
  | a :: p', b :: s' => (a =? b)%N && startsWith s' p'
  end.

(** [toLowerCase] on the code units a header value can hold (a byte
    string): A-Z and the Latin-1 capitals U+00C0-U+00DE except U+00D7
    move up by 32. Other code units are left alone. *)
Definition lower (c : N) : N :=
  if ((ch "A" <=? c) && (c <=? ch "Z"))%N then (c + 32)%N
  else if ((192 <=? c) && (c <=? 222) && negb (c =? 215))%N then (c + 32)%N
  else c.

Definition toLowerCase (s : jsstring) : jsstring := List.map lower s.

Definition eqb (a b : jsstring) : bool := bool_decide (a = b).

End Str.

(** ** Numbers *)

Abbreviation number := spec_float (only parsing).

Module Num.

Definition prec : Z := 53.
Definition emax : Z := 1024.

Definition NaN : number := S754_nan.
Definition Infinity : number := S754_infinity false.

(** The binary64 value of an integer (round to nearest, ties to even). *)
Definition of_Z (z : Z) : number := binary_normalize prec emax z 0 false.

Definition is_nan (x : number) : bool :=
  match x with S754_nan => true | _ => false end.

Definition ltb (x y : number) : bool := SFltb x y.
Definition leb (x y : number) : bool := SFleb x y.
Definition gtb (x y : number) : bool := SFltb y x.
Definition add (x y : number) : number := SFadd prec emax x y.

(** [x === y] on numbers. *)
Definition eqb (x y : number) : bool := SFeqb x y.

(** The correctly rounded binary64 value of [m * 10^e], [m >= 0],
    with the sign given apart (so that "-0" keeps its sign). *)
Definition of_decimal (neg : bool) (m e : Z) : number :=
  if m <=? 0 then S754_zero neg
  else if 0 <=? e then
    binary_normalize prec emax (if neg then - (m * 10 ^ e) else m * 10 ^ e) 0 neg
  else
    let '(q, e', l) := SFdiv_core_binary prec emax m 0 (10 ^ (- e)) 0 in
    binary_round_aux prec emax neg q e' l.

(** *** Math.min and Math.max *)

Definition is_neg_zero (x : number) : bool :=
  match x with S754_zero true => true | _ => false end.
Definition is_pos_zero (x : number) : bool :=
  match x with S754_zero false => true | _ => false end.

Fixpoint min_loop (lowest : number) (args : list number) : number :=
  match args with
  | [] => lowest
  | n :: rest =>
      if is_nan n then NaN
      else if is_neg_zero n && is_pos_zero lowest then min_loop n rest
      else if ltb n lowest then min_loop n rest
      else min_loop lowest rest
  end.

Definition Math_min (args : list number) : number :=
  min_loop Infinity args.

Fixpoint max_loop (highest : number) (args : list number) : number :=
  match args with
  | [] => highest
  | n :: rest =>
      if is_nan n then NaN
      else if is_pos_zero n && is_neg_zero highest then max_loop n rest
      else if gtb n highest then max_loop n rest
      else max_loop highest rest
  end.

Definition Math_max (args : list number) : number :=
  max_loop (S754_infinity true) args.

(** *** Integers out of numbers *)

Inductive ExtZ := NegInf | Fin (z : Z) | PosInf.

(** [ToIntegerOrInfinity]: NaN and the zeros give 0, a finite value is
    truncated towards zero. *)
Definition ToIntegerOrInfinity (x : number) : ExtZ :=
  match x with
  | S754_nan => Fin 0
  | S754_zero _ => Fin 0
  | S754_infinity s => if s then NegInf else PosInf
  | S754_finite s m e =>
      let a := if 0 <=? e then Z.shiftl (Zpos m) e else Z.shiftr (Zpos m) (- e) in
      Fin (if s then - a else a)
  end.

(** *** Decimal digits *)

Definition is_digit (c : N) : bool := ((ch "0" <=? c) && (c <=? ch "9"))%N.

Fixpoint span_digits (s : jsstring) : jsstring * jsstring :=
  match s with
  | c :: s' =>
      if is_digit c then let '(d, r) := span_digits s' in (c :: d, r)
      else ([], s)
  | [] => ([], [])
  end.

(** The integer written by a run of decimal digits. *)
Definition digits_value (ds : jsstring) : Z :=
  fold_left (fun acc c => acc * 10 + (Z.of_N c - 48)) ds 0.

Fixpoint dec_digits_aux (fuel : nat) (z : Z) (acc : jsstring) : jsstring :=
  match fuel with
  | O => acc
  | S f =>
      let acc' := Z.to_N (48 + z mod 10) :: acc in
      if z <? 10 then acc' else dec_digits_aux f (z / 10) acc'
  end.

(** The decimal digits of [z >= 0]; a number has at most
    [log2 z + 1] of them. *)
Definition dec_digits (z : Z) : jsstring :=
  dec_digits_aux (S (Z.to_nat (Z.log2 z))) z [].

Definition digits10 (z : Z) : Z := Z.of_nat (length (dec_digits z)).

(** *** Number::toString (radix 10) *)

(** [n] with [10^(n-1) <= num/den < 10^n], for [num, den > 0]. *)
Definition decimal_exponent (num den : Z) : Z :=
  if den <=? num then
    let d := digits10 (num / den) in d
  else
    let d := digits10 (den / num) in
    if den <=? num * 10 ^ (d - 1) then 2 - d else 1 - d.

(** [num/den * 10^sh] as a fraction of integers. *)
Definition scaled (num den sh : Z) : Z * Z :=
  if 0 <=? sh then (num * 10 ^ sh, den) else (num, den * 10 ^ (- sh)).

(** One attempt at [k] digits: the candidates next to
    [num/den * 10^(k-n0)] that convert back to [x]; of two, the closer,
    and the even one on a tie. Gives [(s, n)]. *)
Definition shortest_at (x : number) (num den n0 k : Z) : option (Z * Z) :=
  let '(a, b) := scaled num den (k - n0) in
  let lo := a / b in
  let hi := lo + 1 in
  let back (c : Z * Z) := SFeqb (of_decimal false (fst c) (snd c - k)) x in
  let clo := (lo, n0) in
  let chi := if hi =? 10 ^ k then (10 ^ (k - 1), n0 + 1) else (hi, n0) in
  let oklo := (10 ^ (k - 1) <=? lo) && back clo in
  let okhi := negb (a mod b =? 0) && back chi in
  match oklo, okhi with
  | true, false => Some clo
  | false, true => Some chi
  | false, false => None
  | true, true =>
      match 2 * a ?= (2 * lo + 1) * b with
      | Lt => Some clo
      | Gt => Some chi
      | Eq => if Z.even lo then Some clo else Some chi
      end
  end.

Fixpoint shortest_loop (fuel : nat) (x : number) (num den n0 k : Z) : Z * Z * Z :=
  match fuel with
  | O => let '(a, b) := scaled num den (k - n0) in (a / b, k, n0)
  | S f =>
      match shortest_at x num den n0 k with
      | Some (s, n) => (s, k, n)
      | None => shortest_loop f x num den n0 (k + 1)
      end
  end.

(** [(s, k, n)] of Number::toString for the positive finite
    [m * 2^e]: the fewest digits [k] such that [s * 10^(n-k)] converts
    to the number. Seventeen digits always suffice for a binary64
    value, so the loop tries [k = 1 .. 17]. *)
Definition shortest_digits (m : positive) (e : Z) : Z * Z * Z :=
  let num := if 0 <=? e then Z.shiftl (Zpos m) e else Zpos m in
  let den := if 0 <=? e then 1 else Z.shiftl 1 (- e) in
  shortest_loop 17 (S754_finite false m e) num den (decimal_exponent num den) 1.

Definition zeros (n : Z) : jsstring := List.repeat (ch "0") (Z.to_nat n).

Definition exponent_part (n : Z) : jsstring :=
  (ch "e" :: (if 0 <=? n - 1 then ch "+" else ch "-") :: dec_digits (Z.abs (n - 1))).

Definition format_digits (s k n : Z) : jsstring :=
  let ds := dec_digits s in
  if (k <=? n) && (n <=? 21) then ds ++ zeros (n - k)
  else if (0 <? n) && (n <=? 21) then
    take (Z.to_nat n) ds ++ ch "." :: drop (Z.to_nat n) ds
  else if (-6 <? n) && (n <=? 0) then
    ch "0" :: ch "." :: zeros (- n) ++ ds
  else if k =? 1 then ds ++ exponent_part n
  else take 1 ds ++ ch "." :: drop 1 ds ++ exponent_part n.

Definition toString (x : number) : jsstring :=
  match x with
  | S754_nan => js "NaN"
  | S754_zero _ => js "0"
  | S754_infinity s => if s then js "-Infinity" else js "Infinity"
  | S754_finite s m e =>
      let '(d, k, n) := shortest_digits m e in
      (if s then [ch "-"] else []) ++ format_digits d k n
  end.

(** *** StringToNumber *)

Definition hex_value (c : N) : option Z :=
  if is_digit c then Some (Z.of_N c - 48)
  else if ((ch "a" <=? c) && (c <=? ch "f"))%N then Some (Z.of_N c - 87)
  else if ((ch "A" <=? c) && (c <=? ch "F"))%N then Some (Z.of_N c - 55)
  else None.

(** The value of a non-empty run of digits in the given radix that
    makes up all of [s]. *)
Fixpoint radix_value (radix : Z) (acc : Z) (s : jsstring) : option Z :=
  match s with
  | [] => Some acc
  | c :: s' =>
      match hex_value c with
      | Some d => if d <? radix then radix_value radix (acc * radix + d) s' else None
      | None => None
      end
  end.

Definition is_e (c : N) : bool := ((c =? ch "e") || (c =? ch "E"))%N.

(** An optional sign: whether it is a minus, and what follows. *)
Definition sign_opt (s : jsstring) : bool * jsstring :=
  match s with
  | c :: t =>
      if (c =? ch "-")%N then (true, t)
      else if (c =? ch "+")%N then (false, t)
      else (false, s)
  | [] => (false, s)
  end.

(** ExponentPart, when one starts here: its value and what follows. *)
Definition exponent_opt (s : jsstring) : Z * jsstring :=
  match s with
  | c :: s1 =>
      if is_e c then
        let '(neg, s2) := sign_opt s1 in
        match span_digits s2 with
        | ([], _) => (0, s)
        | (ds, r) => (if neg then - digits_value ds else digits_value ds, r)
        end
      else (0, s)
  | [] => (0, s)
  end.

(** A fraction, when a point starts here: its digits and what follows. *)
Definition fraction_opt (s : jsstring) : jsstring * jsstring :=
  match s with
  | c :: t => if (c =? ch ".")%N then span_digits t else ([], s)
  | [] => ([], s)
  end.

(** StrUnsignedDecimalLiteral other than Infinity, which must make up
    all of [s]: digits, an optional fraction, an optional exponent,
    with a digit on at least one side of the point. *)
Definition unsigned_decimal (neg : bool) (s : jsstring) : number :=
  let '(ip, r1) := span_digits s in
  let '(fp, r2) := fraction_opt r1 in
  match ip ++ fp with
  | [] => NaN
  | ds =>
      match exponent_opt r2 with
      | (e, []) => of_decimal neg (digits_value ds) (e - Z.of_nat (length fp))
      | _ => NaN
      end
  end.

Definition signed_decimal (s : jsstring) : number :=
  let '(neg, u) := sign_opt s in
  if bool_decide (u = js "Infinity") then S754_infinity neg
  else unsigned_decimal neg u.

(** The radix that a 0x, 0o or 0b prefix announces, and the digits. *)
Definition radix_prefix (s : jsstring) : option (Z * jsstring) :=
  match s with
  | z :: x :: ds =>
      if (z =? ch "0")%N then
        if ((x =? ch "x") || (x =? ch "X"))%N then Some (16, ds)
        else if ((x =? ch "o") || (x =? ch "O"))%N then Some (8, ds)
        else if ((x =? ch "b") || (x =? ch "B"))%N then Some (2, ds)
        else None
      else None
  | _ => None
  end.

Definition StringToNumber (str : jsstring) : number :=
  match Str.trim str with
  | [] => S754_zero false
  | t =>
      match radix_prefix t with
      | Some (_, []) => NaN
      | Some (radix, ds) =>
          match radix_value radix 0 ds with
          | Some v => of_Z v
          | None => NaN
          end
      | None => signed_decimal t
      end
  end.

End Num.

(** ** Values *)

#[local] Set Warnings "-register-all".

(** What [JSON.parse] can produce, plus [undefined], which reading an
    absent property gives. An object lists its own properties. *)
Inductive value :=
| VUndefined
| VNull
| VBool (b : bool)
| VNum (n : number)
| VStr (s : jsstring)
| VArr (items : list value)
| VObj (fields : list (jsstring * value)).

(** Thrown values; the message is what [err.message] reads. The text
    of an engine's own messages is representative only. *)
Inductive exn :=
| SyntaxError (message : jsstring)
| TypeError (message : jsstring)
| RangeError (message : jsstring)
| Error (message : jsstring).

Definition exn_message (e : exn) : jsstring :=
  match e with
  | SyntaxError m | TypeError m | RangeError m | Error m => m
  end.

Inductive result (A : Type) :=
| Ok (a : A)
| Throw (e : exn).
Arguments Ok {A} a.
Arguments Throw {A} e.

Definition rbind {A B} (r : result A) (k : A -> result B) : result B :=
  match r with
  | Ok a => k a
  | Throw e => Throw e
  end.

#[global] Instance result_ret : MRet result := fun A a => Ok a.
#[global] Instance result_bind : MBind result := fun A B k r => rbind r k.

(** [items.map(f)] with a callback that may throw. *)
Fixpoint mapM {A B} (f : A -> result B) (l : list A) : result (list B) :=
  match l with
  | [] => Ok []
  | x :: rest => y ← f x; ys ← mapM f rest; Ok (y :: ys)
  end.

Module Val.

(** Own property lookup in an object's property list. *)
Fixpoint lookup (k : jsstring) (fields : list (jsstring * value)) : option value :=
  match fields with
  | [] => None
  | (k', v) :: rest => if Str.eqb k' k then Some v else lookup k rest
  end.

(** Defining an own data property: an existing key keeps its place and
    takes the new value. *)
Fixpoint define (k : jsstring) (v : value) (fields : list (jsstring * value))
  : list (jsstring * value) :=
  match fields with
  | [] => [(k, v)]
  | (k', v') :: rest =>
      if Str.eqb k' k then (k', v) :: rest else (k', v') :: define k v rest
  end.

(** [v?.name] for the property names the route reads (notes, count,
    style, mode, choices, message, content, title, flashcards,
    question, answer, tags): none of them is inherited from a
    prototype or defined on a string or an array, so only an object's
    own property answers. *)
Definition get (v : value) (name : jsstring) : value :=
  match v with
  | VObj fields => default VUndefined (lookup name fields)
  | _ => VUndefined
  end.

(** [v?.[0]]. *)
Definition get0 (v : value) : value :=
  match v with
  | VArr (x :: _) => x
  | VStr (c :: _) => VStr [c]
  | VObj fields => default VUndefined (lookup (js "0") fields)
  | _ => VUndefined
  end.

(** [v ?? d]. *)
Definition nullish (v d : value) : value :=
  match v with
  | VUndefined | VNull => d
  | _ => v
  end.

Definition isArray (v : value) : bool :=
  match v with VArr _ => true | _ => false end.

(** ToBoolean. *)
Definition truthy (v : value) : bool :=
  match v with
  | VUndefined | VNull => false
  | VBool b => b
  | VNum n =>
      match n with
      | S754_nan | S754_zero _ => false
      | _ => true
      end
  | VStr s => match s with [] => false | _ => true end
  | VArr _ | VObj _ => true
  end.

Definition no_primitive : exn :=
  TypeError (js "Cannot convert object to primitive value").

(** [String(v)]. An array joins its elements with commas, null and
    undefined elements giving the empty string. A parsed object has
    no callable property of its own: with an own "toString" its
    conversion finds no method and throws, otherwise the inherited
    method answers. *)
Fixpoint ToString (v : value) : result jsstring :=
  match v with
  | VUndefined => Ok (js "undefined")
  | VNull => Ok (js "null")
  | VBool b => Ok (if b then js "true" else js "false")
  | VNum n => Ok (Num.toString n)
  | VStr s => Ok s
  | VArr items =>
      (fix join (l : list value) : result jsstring :=
         match l with
         | [] => Ok []
         | x :: rest =>
             rbind (match x with
                    | VUndefined | VNull => Ok []
                    | _ => ToString x
                    end) (fun a =>
             match rest with
             | [] => Ok a
             | _ => rbind (join rest) (fun b => Ok (a ++ ch "," :: b))
             end)
         end) items
  | VObj fields =>
      match lookup (js "toString") fields with
      | Some _ => Throw no_primitive
      | None => Ok (js "[object Object]")
      end
  end.

(** [Number(v)]. *)
Definition ToNumber (v : value) : result number :=
  match v with
  | VUndefined => Ok Num.NaN
  | VNull => Ok (S754_zero false)
  | VBool b => Ok (if b then Num.of_Z 1 else S754_zero false)
  | VNum n => Ok n
  | VStr s => Ok (Num.StringToNumber s)
  | VArr _ => rbind (ToString v) (fun s => Ok (Num.StringToNumber s))
  | VObj fields =>
      match lookup (js "toString") fields with
      | Some _ => Throw no_primitive
      | None => Ok Num.NaN
      end
  end.

(** [items.slice(0, end)] on an array. *)
Definition slice0 {A} (items : list A) (stop : number) : list A :=
  let len := Z.of_nat (length items) in
  match Num.ToIntegerOrInfinity stop with
  | Num.NegInf => []
  | Num.PosInf => items
  | Num.Fin e =>
      let final := if e <? 0 then Z.max (len + e) 0 else Z.min e len in
      take (Z.to_nat final) items
  end.

End Val.

(** ** JSON.parse *)

Module JSON.

(** JSON white space: tab, line feed, carriage return, space. *)
Definition is_json_ws (c : N) : bool :=
  ((c =? 9) || (c =? 10) || (c =? 13) || (c =? 32))%N.

Fixpoint skip_ws (s : jsstring) : jsstring :=
  match s with
  | c :: s' => if is_json_ws c then skip_ws s' else s
  | [] => []
  end.

(** The character a one-letter escape stands for. *)
Definition unescape (c : N) : option N :=
  if (c =? dquote)%N then Some (dquote)
  else if (c =? backslash)%N then Some (backslash)
  else if (c =? ch "/")%N then Some (ch "/")
  else if (c =? ch "b")%N then Some 8%N
  else if (c =? ch "f")%N then Some 12%N
  else if (c =? ch "n")%N then Some 10%N
  else if (c =? ch "r")%N then Some 13%N
  else if (c =? ch "t")%N then Some 9%N
  else None.

Definition hex4 (a b c d : N) : option N :=
  match Num.hex_value a, Num.hex_value b, Num.hex_value c, Num.hex_value d with
  | Some x, Some y, Some z, Some w => Some (Z.to_N (((x * 16 + y) * 16 + z) * 16 + w))
  | _, _, _, _ => None
  end.

(** The rest of a string literal after its opening quote: the code
    units it denotes and what follows the closing quote. *)
Fixpoint string_body (s : jsstring) : option (jsstring * jsstring) :=
  match s with
  | [] => None
  | c :: r =>
      if (c =? dquote)%N then Some ([], r)
      else if (c =? backslash)%N then
        match r with
        | [] => None
        | e :: r1 =>
            if (e =? ch "u")%N then
              match r1 with
              | h1 :: h2 :: h3 :: h4 :: r2 =>
                  match hex4 h1 h2 h3 h4, string_body r2 with
                  | Some u, Some (t, rest) => Some (u :: t, rest)
                  | _, _ => None
                  end
              | _ => None
              end
            else
              match unescape e, string_body r1 with
              | Some u, Some (t, rest) => Some (u :: t, rest)
              | _, _ => None
              end
        end
      else if (c <? 32)%N then None
      else
        match string_body r with
        | Some (t, rest) => Some (c :: t, rest)
        | None => None
        end
  end.

(** A number token: an optional minus, an integer part without a
    superfluous leading zero, an optional fraction with at least one
    digit, an optional exponent with at least one digit. *)
Definition number_token (s : jsstring) : option (number * jsstring) :=
  let '(neg, s1) :=
    match s with
    | c :: t => if (c =? ch "-")%N then (true, t) else (false, s)
    | [] => (false, s)
    end in
  let '(ip, r1) := Num.span_digits s1 in
  let int_ok :=
    match ip with
    | [] => false
    | d :: ds => negb (d =? ch "0")%N || match ds with [] => true | _ => false end
    end in
  let frac :=
    match r1 with
    | c :: t =>
        if (c =? ch ".")%N then
          match Num.span_digits t with
          | ([], _) => None
          | (fp, r) => Some (fp, r)
          end
        else Some ([], r1)
    | [] => Some ([], r1)
    end in
  match int_ok, frac with
  | true, Some (fp, r2) =>
      let exp :=
        match r2 with
        | c :: t =>
            if Num.is_e c then
              let '(eneg, t') := Num.sign_opt t in
              match Num.span_digits t' with
              | ([], _) => None
              | (ds, r) =>
                  Some (if eneg then - Num.digits_value ds else Num.digits_value ds, r)
              end
            else Some (0, r2)
        | [] => Some (0, r2)
        end in
      match exp with
      | Some (e, r3) =>
          Some (Num.of_decimal neg (Num.digits_value (ip ++ fp))
                  (e - Z.of_nat (length fp)), r3)
      | None => None
      end
  | _, _ => None
  end.

Section Containers.
(** The parser of one value, for the elements and members. *)
Variable parse_value : jsstring -> option (value * jsstring).

(** Elements after the opening bracket of a non-empty array; every
    element uses up at least one character of the [n] left. *)
Fixpoint elements (n : nat) (s : jsstring) : option (list value * jsstring) :=
  match n with
  | O => None
  | S n' =>
      match parse_value s with
      | None => None
      | Some (v, r) =>
          match skip_ws r with
          | c :: r' =>
              if (c =? ch ",")%N then
                match elements n' r' with
                | Some (vs, rest) => Some (v :: vs, rest)
                | None => None
                end
              else if (c =? ch "]")%N then Some ([v], r')
              else None
          | [] => None
          end
      end
  end.

(** Members after the opening brace of a non-empty object, added to
    the properties defined so far: a repeated key is redefined. *)
Fixpoint members (n : nat) (acc : list (jsstring * value)) (s : jsstring)
  : option (list (jsstring * value) * jsstring) :=
  match n with
  | O => None
  | S n' =>
      match skip_ws s with
      | q :: r0 =>
          if (q =? dquote)%N then
            match string_body r0 with
            | None => None
            | Some (k, r1) =>
                match skip_ws r1 with
                | c :: r2 =>
                    if (c =? ch ":")%N then
                      match parse_value r2 with
                      | None => None
                      | Some (v, r3) =>
                          let acc' := Val.define k v acc in
                          match skip_ws r3 with
                          | d :: r4 =>
                              if (d =? ch ",")%N then members n' acc' r4
                              else if (d =? ch "}")%N then Some (acc', r4)
                              else None
                          | [] => None
                          end
                      end
                    else None
                | [] => None
                end
            end
          else None
      | [] => None
      end
  end.
End Containers.

(** One JSON value at the head of [s], after white space. Every level
    of nesting uses up a bracket, so [fuel] above the length of the
    text is never exhausted. *)
Fixpoint parse_value (fuel : nat) (s : jsstring) : option (value * jsstring) :=
  match fuel with
  | O => None
  | S f =>
      match skip_ws s with
      | [] => None
      | c :: r =>
          if (c =? ch "[")%N then
            match skip_ws r with
            | d :: r' =>
                if (d =? ch "]")%N then Some (VArr [], r')
                else
                  match elements (parse_value f) (length r) r with
                  | Some (vs, rest) => Some (VArr vs, rest)
                  | None => None
                  end
            | [] => None
            end
          else if (c =? ch "{")%N then
            match skip_ws r with
            | d :: r' =>
                if (d =? ch "}")%N then Some (VObj [], r')
                else
                  match members (parse_value f) (length r) [] r with
                  | Some (fs, rest) => Some (VObj fs, rest)
                  | None => None
                  end
            | [] => None
            end
          else if (c =? dquote)%N then
            match string_body r with
            | Some (t, rest) => Some (VStr t, rest)
            | None => None
            end
          else if Str.startsWith (c :: r) (js "true") then
            Some (VBool true, drop 4 (c :: r))
          else if Str.startsWith (c :: r) (js "false") then
            Some (VBool false, drop 5 (c :: r))
          else if Str.startsWith (c :: r) (js "null") then
            Some (VNull, drop 4 (c :: r))
          else
            match number_token (c :: r) with
            | Some (n, rest) => Some (VNum n, rest)
            | None => None
            end
      end
  end.

Definition not_json : exn := SyntaxError (js "Unexpected token in JSON").

(** [JSON.parse(text)]: one value, surrounded by nothing but white space. *)
Definition parse (text : jsstring) : result value :=
  match parse_value (S (length text)) text with
  | Some (v, rest) =>
      match skip_ws rest with
      | [] => Ok v
      | _ => Throw not_json
      end
  | None => Throw not_json
  end.

End JSON.

(** ** The fence pattern *)

Module Re.

(** A backtracking matcher in continuation style: a piece of the
    pattern consumes a prefix of the input and hands the rest to the
    continuation, trying its next alternative when that fails. *)

(** Case folding of flag [i] as far as the ASCII letters of the
    pattern are concerned: a code unit above 127 never folds to one
    below 128. *)
Definition canon (c : N) : N :=
  if ((ch "a" <=? c) && (c <=? ch "z"))%N then (c - 32)%N else c.

(** The literal [p] under flag [i]. *)
Fixpoint lit {A} (p s : jsstring) (k : jsstring -> option A) : option A :=
  match p with
  | [] => k s
  | a :: p' =>
      match s with
      | b :: s' => if (canon a =? canon b)%N then lit p' s' k else None
      | [] => None
      end
  end.

(** [cls*]: as many as possible first. *)
Fixpoint star {A} (cls : N -> bool) (s : jsstring) (k : jsstring -> option A)
  : option A :=
  match s with
  | c :: s' =>
      if cls c then
        match star cls s' k with
        | Some r => Some r
        | None => k s
        end
      else k s
  | [] => k s
  end.

(** [cls*?]: as few as possible first. *)
Fixpoint star_lazy {A} (cls : N -> bool) (s : jsstring) (k : jsstring -> option A)
  : option A :=
  match k s with
  | Some r => Some r
  | None =>
      match s with
      | c :: s' => if cls c then star_lazy cls s' k else None
      | [] => None
      end
  end.

(** [\s] and [[\s\S]]. *)
Definition space : N -> bool := Str.is_ws.
Definition any : N -> bool := fun _ => true.

(** The pattern anchored at the head of [s]; the result is group 1,
    the part of the input that [[\s\S]*?] consumed. *)
Definition fence_at (s : jsstring) : option jsstring :=
  lit (js "```json") s (fun s1 =>
  star space s1 (fun s2 =>
  star_lazy any s2 (fun s3 =>
  star space s3 (fun s4 =>
  lit (js "```") s4 (fun _ =>
  Some (take (length s2 - length s3) s2)))))).

(** [text.match(/```json\s*([\s\S]*?)\s*```/i)]: the leftmost match;
    [None] is the null of a failed match, otherwise group 1. *)
Fixpoint fence (text : jsstring) : option jsstring :=
  match fence_at text with
  | Some g => Some g
  | None =>
      match text with
      | _ :: text' => fence text'
      | [] => None
      end
  end.

End Re.

(** ** Response Extractor *)

(** [Math.min(...indices)] on string indices: [PosInf] for no argument. *)
Definition Math_min_index (indices : list Z) : Num.ExtZ :=
  fold_left (fun lowest n =>
               match lowest with
               | Num.Fin l => Num.Fin (Z.min l n)
               | _ => Num.Fin n
               end) indices Num.PosInf.

Definition no_json : exn := Error (js "Model did not return valid JSON").

(** Fallback: first JSON object/array in the text. *)
Definition bracket_scan (text : jsstring) : result value :=
  let first :=
    Math_min_index
      (List.filter (fun n => negb (n =? -1))
         [Str.indexOf text (ch "["); Str.indexOf text (ch "{")]) in
  let last := Z.max (Str.lastIndexOf text (ch "]")) (Str.lastIndexOf text (ch "}")) in
  match first with
  | Num.Fin first =>
      if (0 <=? first) && (first <? last)
      then JSON.parse (Str.slice text first (last + 1))
      else Throw no_json
  | _ => Throw no_json
  end.

Definition extractJson (text : jsstring) : result value :=
  (* Prefer fenced ```json blocks if present: a match whose group 1 is
     not the empty string *)
  match Re.fence text with
  | Some (c :: inner) => JSON.parse (c :: inner)
  | _ => bracket_scan text
  end.

(** ** Prompt Builder *)

Definition nl : N := 10%N.

(** A property name or text between double quotes. *)
Definition quoted (s : string) : jsstring := dquote :: js s ++ [dquote].

Definition questions_rules : jsstring :=
  js "The input is a QUESTION BANK / practice set. Create flashcards where the FRONT is the question and the BACK is the correct answer/explanation.".

Definition short_notes_rules : jsstring :=
  js "The input is SHORT NOTES / summaries. Create flashcards where the FRONT is a short prompt (term, heading, key idea) and the BACK is the explanation/steps/formula.".

Definition auto_rules : jsstring :=
  js "Auto-detect: if the input contains many questions (" ++ quoted "?"
  ++ js ", Q:, MCQ, etc.) treat it as a question bank; otherwise treat it as notes.".

Definition prompt_head : jsstring :=
  js "You are an expert flashcard creator." ++ nl ::
  js "Return ONLY valid JSON, no extra text." ++ nl ::
  nl ::
  js "Task:" ++ nl ::
  js "- Create ".

Definition prompt_task : jsstring :=
  js " high-quality flashcards." ++ nl ::
  js "- Each flashcard MUST feel like a real flashcard: short, testable FRONT and a complete BACK." ++ nl ::
  [nl].

Definition prompt_schema : jsstring :=
  nl :: nl ::
  js "Output schema (exact):" ++ nl ::
  js "{" ++ nl ::
  js "  " ++ quoted "title" ++ js ": string," ++ nl ::
  js "  " ++ quoted "flashcards" ++ js ": [" ++ nl ::
  js "    { " ++ quoted "question" ++ js ": string, " ++ quoted "answer"
    ++ js ": string, " ++ quoted "tags" ++ js ": string[] }" ++ nl ::
  js "  ]" ++ nl ::
  js "}" ++ nl ::
  nl ::
  js "Quality rules:" ++ nl ::
  js "- FRONT (question) should be short and specific (max ~140 chars if possible)." ++ nl ::
  js "- BACK (answer) should be structured and correct; use short bullet-like lines as plain text if needed." ++ nl ::
  js "- Avoid duplicate cards." ++ nl ::
  js "- If content is formula/steps, include them cleanly." ++ nl ::
  js "- Tags: 0-4 short tags per card." ++ nl ::
  js "- No markdown, no code fences." ++ nl ::
  js "- Style: ".

Definition prompt_input : jsstring :=
  js " (balanced = mix of definitions+concepts, exam = more application, simple = easy language)" ++ nl ::
  nl ::
  js "INPUT:" ++ [nl].

Definition buildFlashcardPrompt
  (userText : jsstring) (count : number) (style : jsstring) (mode : jsstring)
  : jsstring :=
  let modeRules :=
    if Str.eqb mode (js "questions") then questions_rules
    else if Str.eqb mode (js "short_notes") then short_notes_rules
    else auto_rules in
  Str.trim
    (prompt_head ++ Num.toString count ++ prompt_task ++ modeRules
     ++ prompt_schema ++ style ++ prompt_input ++ userText).

(** ** Generation Handler *)

Record Flashcard := {
  question : jsstring;
  answer : jsstring;
  tags : list jsstring
}.

Inductive Plan := free | premium.

Record Response := { status : Z; payload : value }.

(** A row of the generations table as the handler inserts it. *)
Record Generation := {
  g_user_id : jsstring;
  g_input : jsstring;
  g_mode : jsstring;
  g_style : jsstring;
  g_requested_count : number;
  g_title : jsstring;
  g_output : value
}.

(** The three tables: the plan column of profiles by id, the
    flashcards_used column of usage by user_id, and the generations. *)
Record Store := {
  profiles : gmap jsstring value;
  usage : gmap jsstring value;
  generations : list Generation
}.

(** Process configuration. *)
Record Env := {
  GROQ_API_KEY : option jsstring;
  NEXT_PUBLIC_SUPABASE_URL : option jsstring;
  SUPABASE_SERVICE_ROLE_KEY : option jsstring
}.

(** A request: the authorization header, if any, and the body text. *)
Record Request := {
  authorization : option jsstring;
  body : jsstring
}.

(** What [fetch] comes back with. *)
Inductive FetchResult :=
| NetworkError
| Reply (status : Z) (text : jsstring).

(** How a write ends: stored; answered with an error object and not
    stored; or the awaited promise rejects. *)
Inductive WriteResult := Written | Refused | Rejected.

(** The answers of the collaborators. [getUser] gives the user id when
    the token resolves without error. A lookup that does not answer
    reads as a missing row. *)
Record World := {
  getUser : jsstring -> option jsstring;
  profiles_answer : jsstring -> bool;
  usage_answer : jsstring -> bool;
  completion : jsstring -> jsstring -> FetchResult;
  insert_result : Generation -> WriteResult;
  upsert_result : jsstring -> number -> WriteResult
}.

(** Every call that leaves the handler. *)
Inductive Event :=
| AuthGetUser (token : jsstring)
| SelectProfile (id : jsstring)
| SelectUsage (user_id : jsstring)
| FetchCompletion (apiKey prompt : jsstring)
| InsertGeneration (row : Generation)
| UpsertUsage (user_id : jsstring) (flashcards_used : number).

Record State := { store : Store; log : list Event }.

(** *** The handler monad: state, early return, exceptions *)

Inductive Outcome (A : Type) :=
| Normal (a : A)
| Returned (r : Response)
| Raised (e : exn).
Arguments Normal {A} a.
Arguments Returned {A} r.
Arguments Raised {A} e.

Definition M (A : Type) : Type := State -> Outcome A * State.

#[global] Instance M_ret : MRet M := fun A a st => (Normal a, st).
#[global] Instance M_bind : MBind M := fun A B k m st =>
  match m st with
  | (Normal a, st') => k a st'
  | (Returned r, st') => (Returned r, st')
  | (Raised e, st') => (Raised e, st')
  end.

(** A computation that may throw. *)
Definition lift {A} (r : result A) : M A := fun st =>
  match r with
  | Ok a => (Normal a, st)
  | Throw e => (Raised e, st)
  end.

Definition emit (e : Event) : M unit := fun st =>
  (Normal tt, {| store := store st; log := log st ++ [e] |}).

Definition read_store : M Store := fun st => (Normal (store st), st).

Definition write_store (f : Store -> Store) : M unit := fun st =>
  (Normal tt, {| store := f (store st); log := log st |}).

(** The statuses that go without a body. *)
Definition null_body_status (status : Z) : bool :=
  (status =? 204) || (status =? 205) || (status =? 304).

(** [NextResponse.json(payload, { status })]: the Response constructor
    refuses a status outside 200..599, and refuses a body, which the
    JSON text is, together with a null body status. *)
Definition NextResponse_json (payload : value) (status : Z) : result Response :=
  if (200 <=? status) && (status <=? 599) then
    if null_body_status status
    then Throw (TypeError (js "Response with null body status cannot have body"))
    else Ok {| status := status; payload := payload |}
  else Throw (RangeError (js "init[status] must be in the range of 200 to 599, inclusive.")).

(** [return NextResponse.json(payload, { status })]. *)
Definition respond {A} (payload : value) (status : Z) : M A := fun st =>
  match NextResponse_json payload status with
  | Ok r => (Returned r, st)
  | Throw e => (Raised e, st)
  end.

Definition when (c : bool) (m : M unit) : M unit :=
  if c then m else mret tt.

Definition error_payload (msg : string) : value :=
  VObj [(js "error", VStr (js msg))].

(** A configuration variable that is set and not empty, or else the
    given response. *)
Definition configured (v : option jsstring) (msg : string) : M jsstring :=
  match v with
  | Some (c :: k) => mret (c :: k)
  | _ => respond (error_payload msg) 500
  end.

(** *** Reading the body *)

Record Fields := {
  f_notes : jsstring;
  f_count : number;
  f_style : jsstring;
  f_mode : jsstring
}.

Definition clamp_count (requested : number) : number :=
  Num.Math_max [Num.of_Z 3; Num.Math_min [Num.of_Z 50; requested]].

Definition read_fields (body : value) : result Fields :=
  notes ← Val.ToString (Val.nullish (Val.get body (js "notes")) (VStr []));
  requested ← Val.ToNumber (Val.nullish (Val.get body (js "count")) (VNum (Num.of_Z 12)));
  style ← Val.ToString (Val.nullish (Val.get body (js "style")) (VStr (js "balanced")));
  mode ← Val.ToString (Val.nullish (Val.get body (js "mode")) (VStr (js "auto")));
  Ok {| f_notes := Str.trim notes;
        f_count := clamp_count requested;
        f_style := style;
        f_mode := mode |}.

(** *** Token, plan, quota *)

Definition accessToken (authHeader : jsstring) : jsstring :=
  if Str.startsWith (Str.toLowerCase authHeader) (js "bearer ")
  then Str.slice_from authHeader 7
  else [].

Definition limit : number := Num.of_Z 100.

Definition quota_payload (used : number) : value :=
  VObj [ (js "error", VStr (js "Free plan limit reached"));
         (js "details",
          VStr (js "Free users can generate up to " ++ Num.toString limit
                ++ js " flashcards. You have " ++ Num.toString used ++ js " used."));
         (js "used", VNum used);
         (js "limit", VNum limit) ].

(** *** Parsing and cleaning the reply *)

(** [JSON.parse(text)], and [extractJson(text)] when that throws; a
    text that is not a string has no [match] method. *)
Definition parse_reply (text : value) : result value :=
  match s ← Val.ToString text; JSON.parse s with
  | Ok v => Ok v
  | Throw _ =>
      match text with
      | VStr s => extractJson s
      | _ => Throw (TypeError (js "text.match is not a function"))
      end
  end.

Definition clean_card (c : value) : result Flashcard :=
  q ← Val.ToString (Val.nullish (Val.get c (js "question")) (VStr []));
  a ← Val.ToString (Val.nullish (Val.get c (js "answer")) (VStr []));
  t ← match Val.get c (js "tags") with
      | VArr ts => l ← mapM Val.ToString ts; Ok (take 6 l)
      | _ => Ok []
      end;
  Ok {| question := Str.trim q; answer := Str.trim a; tags := t |}.

Definition nonempty (s : jsstring) : bool :=
  match s with [] => false | _ => true end.

Definition keep (c : Flashcard) : bool :=
  nonempty (question c) && nonempty (answer c).

Definition clean (flashcards : list value) (count : number) : result (list Flashcard) :=
  cards ← mapM clean_card flashcards;
  Ok (Val.slice0 (List.filter keep cards) count).

Definition card_value (c : Flashcard) : value :=
  VObj [ (js "question", VStr (question c));
         (js "answer", VStr (answer c));
         (js "tags", VArr (List.map VStr (tags c))) ].

Definition output_value (title : jsstring) (cleaned : list Flashcard) : value :=
  VObj [ (js "title", VStr title);
         (js "flashcards", VArr (List.map card_value cleaned)) ].

(** *** The request, step by step *)

(** What the checks leave in hand: the completion key, the user, the
    plan and the usage read for it. *)
Record Caller := {
  c_apiKey : jsstring;
  c_userId : jsstring;
  c_plan : Plan;
  c_usedBefore : number
}.

(** What the reply is cleaned into. *)
Record Deck := {
  d_title : jsstring;
  d_cleaned : list Flashcard
}.

Definition lookup_row (answers : bool) (table : gmap jsstring value) (key : jsstring)
  : value :=
  if answers then default VUndefined (table !! key) else VUndefined.

Definition plan_of (stored : value) : Plan :=
  match stored with
  | VStr p => if Str.eqb p (js "premium") then premium else free
  | _ => free
  end.

(** The free-plan quota: reads the usage row and returns 402 when the
    batch would pass the limit; gives [usedBefore]. *)
Definition quota (w : World) (userId : jsstring) (count : number) : M number :=
  emit (SelectUsage userId);;
  st ← read_store;
  let flashcards_used := lookup_row (usage_answer w userId) (usage st) userId in
  used ← lift (Val.ToNumber (Val.nullish flashcards_used (VNum (S754_zero false))));
  when (Num.gtb (Num.add used count) limit) (respond (quota_payload used) 402);;
  mret used.

(** From the notes check to the quota. *)
Definition authorize (w : World) (env : Env) (req : Request) (f : Fields) : M Caller :=
  when (negb (nonempty (f_notes f))) (respond (error_payload "Notes are required") 400);;
  apiKey ← configured (GROQ_API_KEY env) "Server misconfigured: missing GROQ_API_KEY";
  (* ---- Auth (Supabase) + per-user rate limits ---- *)
  match NEXT_PUBLIC_SUPABASE_URL env, SUPABASE_SERVICE_ROLE_KEY env with
  | Some (_ :: _), Some (_ :: _) => mret tt
  | _, _ =>
      respond (error_payload "Server misconfigured: missing Supabase server env vars") 500
  end;;
  let authHeader := default [] (authorization req) in
  let token := accessToken authHeader in
  when (negb (nonempty token)) (respond (error_payload "Unauthorized") 401);;
  emit (AuthGetUser token);;
  userId ← match getUser w token with
           | Some id => mret id
           | None => respond (error_payload "Unauthorized") 401
           end;
  (* Determine plan *)
  emit (SelectProfile userId);;
  st ← read_store;
  let plan := plan_of (lookup_row (profiles_answer w userId) (profiles st) userId) in
  (* Free plan: limit 100 flashcards lifetime *)
  usedBefore ← match plan with
               | free => quota w userId (f_count f)
               | premium => mret (S754_zero false)
               end;
  mret {| c_apiKey := apiKey; c_userId := userId; c_plan := plan;
          c_usedBefore := usedBefore |}.

(** From the prompt to the cleaned cards. *)
Definition generate (w : World) (f : Fields) (apiKey : jsstring) : M Deck :=
  let prompt := buildFlashcardPrompt (f_notes f) (f_count f) (f_style f) (f_mode f) in
  emit (FetchCompletion apiKey prompt);;
  text ← match completion w apiKey prompt with
         | NetworkError => lift (Throw (TypeError (js "fetch failed")))
         | Reply st details =>
             if (200 <=? st) && (st <=? 299) then
               data ← lift (JSON.parse details);
               mret (Val.get (Val.get (Val.get0 (Val.get data (js "choices")))
                                (js "message")) (js "content"))
             else
               respond (VObj [ (js "error", VStr (js "Groq request failed"));
                               (js "details", VStr details) ]) st
         end;
  when (negb (Val.truthy text)) (respond (error_payload "No response from Groq") 502);;
  parsed ← lift (parse_reply text);
  title ← lift (Val.ToString (Val.nullish (Val.get parsed (js "title"))
                                (VStr (js "Flashcards"))));
  let flashcards :=
    match Val.get parsed (js "flashcards") with
    | VArr items => items
    | _ => []
    end in
  cleaned ← lift (clean flashcards (f_count f));
  mret {| d_title := title; d_cleaned := cleaned |}.

(** Save history + usage: the detached block. A write that rejects is
    caught and ends the block; nothing of it reaches the response. *)
Definition persist (w : World) (f : Fields) (c : Caller) (d : Deck) : M unit :=
  let row := {| g_user_id := c_userId c; g_input := f_notes f; g_mode := f_mode f;
                g_style := f_style f; g_requested_count := f_count f;
                g_title := d_title d;
                g_output := output_value (d_title d) (d_cleaned d) |} in
  emit (InsertGeneration row);;
  match insert_result w row with
  | Rejected => mret tt
  | inserted =>
      when (match inserted with Written => true | _ => false end)
        (write_store (fun s => {| profiles := profiles s; usage := usage s;
                                  generations := generations s ++ [row] |}));;
      match c_plan c with
      | premium => mret tt
      | free =>
          let nextUsed :=
            Num.add (c_usedBefore c) (Num.of_Z (Z.of_nat (length (d_cleaned d)))) in
          emit (UpsertUsage (c_userId c) nextUsed);;
          when (match upsert_result w (c_userId c) nextUsed with
                | Written => true | _ => false end)
            (write_store (fun s => {| profiles := profiles s;
                                      usage := <[c_userId c := VNum nextUsed]> (usage s);
                                      generations := generations s |}))
      end
  end.

(** The body of the [try] block after [req.json()]. *)
Definition handle (w : World) (env : Env) (req : Request) (body : value) : M Response :=
  f ← lift (read_fields body);
  c ← authorize w env req f;
  d ← generate w f (c_apiKey c);
  persist w f c d;;
  respond (output_value (d_title d) (d_cleaned d)) 200.

(** [await req.json().catch(() => ({}))]. *)
Definition req_json (req : Request) : value :=
  match JSON.parse (body req) with
  | Ok v => v
  | Throw _ => VObj []
  end.

(** The [catch] of the handler: a returned response is the response,
    and whatever was thrown becomes a 500 with its message. *)
Definition settle (r : Outcome Response * State) : Response * State :=
  match r with
  | (Normal r, st') => (r, st')
  | (Returned r, st') => (r, st')
  | (Raised err, st') =>
      ({| status := 500; payload := VObj [(js "error", VStr (exn_message err))] |}, st')
  end.

(** [POST(req)]: the response, and the store and the calls once the
    detached writes have settled. The client library is taken to accept
    the configured URL and key. *)
Definition POST (w : World) (env : Env) (req : Request) (st : Store) : Response * State :=
  settle (handle w env req (req_json req) {| store := st; log := [] |}).

(** ** Vocabulary of the properties *)

(** *** Brackets and fences *)

Definition opens (c : N) : bool := ((c =? ch "[") || (c =? ch "{"))%N.
Definition closes (c : N) : bool := ((c =? ch "]") || (c =? ch "}"))%N.

(** [i] is the first position of [text] that holds an opening bracket. *)
Definition first_open (text : jsstring) (i : nat) : Prop :=
  (exists c, text !! i = Some c /\ opens c = true) /\
  forall (k : nat) c, (k < i)%nat -> text !! k = Some c -> opens c = false.

(** [j] is the last position of [text] that holds a closing bracket. *)
Definition last_close (text : jsstring) (j : nat) : Prop :=
  (exists c, text !! j = Some c /\ closes c = true) /\
  forall (k : nat) c, (j < k)%nat -> text !! k = Some c -> closes c = false.

(** [text] has a fenced block tagged as JSON with interior [g]: three
    backticks and the letters j, s, o, n in either case, white space,
    [g], white space, three backticks. *)
Definition fenced_block (text g : jsstring) : Prop :=
  exists pre tag w1 w2 post,
    text = pre ++ tag ++ w1 ++ g ++ w2 ++ js "```" ++ post /\
    List.map Re.canon tag = js "```JSON" /\
    Forall (fun c => Str.is_ws c = true) w1 /\
    Forall (fun c => Str.is_ws c = true) w2.

(** [s] occurs in [p] as a contiguous run of code units. *)
Definition occurs_in (s p : jsstring) : Prop := exists a b, p = a ++ s ++ b.

(** *** Requests *)

(** The header carries the bearer token [tok]: the word "bearer" in any
    letter case, one space, and a token that is not empty. *)
Definition carries_bearer (header : option jsstring) (tok : jsstring) : Prop :=
  exists scheme, header = Some (scheme ++ tok) /\
                 Str.toLowerCase scheme = js "bearer " /\ tok <> [].

(** Every configuration variable is set and not empty. *)
Definition configuration_present (env : Env) : Prop :=
  (exists k, GROQ_API_KEY env = Some k /\ k <> []) /\
  (exists u, NEXT_PUBLIC_SUPABASE_URL env = Some u /\ u <> []) /\
  (exists r, SUPABASE_SERVICE_ROLE_KEY env = Some r /\ r <> []).

(** The fields of the body other than the mode. *)
Definition common_fields (b : value) : result (jsstring * number * jsstring) :=
  notes ← Val.ToString (Val.nullish (Val.get b (js "notes")) (VStr []));
  requested ← Val.ToNumber (Val.nullish (Val.get b (js "count")) (VNum (Num.of_Z 12)));
  style ← Val.ToString (Val.nullish (Val.get b (js "style")) (VStr (js "balanced")));
  Ok (Str.trim notes, clamp_count requested, style).

(** *** Calls and writes *)

(** The storage writes among the calls. *)
Definition is_write (e : Event) : bool :=
  match e with
  | InsertGeneration _ | UpsertUsage _ _ => true
  | _ => false
  end.

(** The rows that a run inserts. *)
Definition inserted_rows (l : list Event) : list Generation :=
  omap (fun e => match e with InsertGeneration row => Some row | _ => None end) l.

(** [m] only appends calls satisfying [P] to the log and takes the
    store to an [R]-related one. *)
Definition runs (P : Event -> Prop) (R : Store -> Store -> Prop) {A} (m : M A) : Prop :=
  forall st, R (store st) (store (snd (m st))) /\
             exists evs, log (snd (m st)) = log st ++ evs /\ Forall P evs.

(** *** Cleaning, in the words of the specification *)

(** [t] has no white space at its two ends. *)
Definition no_space_at_ends (t : jsstring) : Prop :=
  (forall c, head t = Some c -> Str.is_ws c = false) /\
  (forall c, last t = Some c -> Str.is_ws c = false).

(** [t] is [s] without the white space at its two ends. *)
Definition trimmed_of (s t : jsstring) : Prop :=
  exists w1 w2,
    s = w1 ++ t ++ w2 /\
    Forall (fun c => Str.is_ws c = true) w1 /\
    Forall (fun c => Str.is_ws c = true) w2 /\
    no_space_at_ends t.

(** The text of a field of an entry: the empty text when the field is
    missing or null, otherwise the field as a string. *)
Definition field_text (c : value) (name : string) : result jsstring :=
  match Val.get c (js name) with
  | VUndefined | VNull => Ok []
  | v => Val.ToString v
  end.

(** The tags of an entry: its elements as strings, at most six of
    them; none when tags is not an array. *)
Definition tag_texts (c : value) : result (list jsstring) :=
  match Val.get c (js "tags") with
  | VArr ts => strs ← mapM Val.ToString ts; Ok (take 6 strs)
  | _ => Ok []
  end.

(** An entry coerced to a card. *)
Definition coerced (c : value) : result Flashcard :=
  q ← field_text c "question";
  a ← field_text c "answer";
  t ← tag_texts c;
  Ok {| question := Str.trim q; answer := Str.trim a; tags := t |}.

(** A card survives when neither its question nor its answer is the
    empty text. *)
Definition survives (c : Flashcard) : bool :=
  negb (bool_decide (question c = [])) && negb (bool_decide (answer c = [])).

(** Coerce every entry, drop the cards that do not survive, keep the
    first [n]. *)
Definition cleaned_as_specified (flashcards : list value) (n : nat)
  : result (list Flashcard) :=
  cards ← mapM coerced flashcards;
  Ok (take n (List.filter survives cards)).

(** What the cleaning step lets through: a question and an answer that
    are not empty and have no white space around them, and at most six
    tags. *)
Definition well_formed (c : Flashcard) : Prop :=
  question c <> [] /\ answer c <> [] /\
  no_space_at_ends (question c) /\ no_space_at_ends (answer c) /\
  (length (tags c) <= 6)%nat.

(** *** Numbers *)

(** A binary64 value has a significand of at most 53 bits. *)
Definition fits (x : number) : Prop :=
  match x with
  | S754_finite _ m _ => Zpos (digits2_pos m) <= Num.prec
  | _ => True
  end.

(** A number read from a JSON text is a binary64 value. *)
Definition num_ok (v : value) : Prop :=
  match v with
  | VNum n => fits n
  | _ => True
  end.

(** *** The run of a request *)

(** A configuration variable that is missing or empty. *)
Definition unset (v : option jsstring) : Prop := v = None \/ v = Some [].

(** The state once the completion service has been called. *)
Definition fetched (st1 : State) (apiKey : jsstring) (f : Fields) : State :=
  {| store := store st1;
     log := log st1 ++ [FetchCompletion apiKey
                          (buildFlashcardPrompt (f_notes f) (f_count f) (f_style f)
                             (f_mode f))] |}.

(** Where the completion reply carries the generated text. *)
Definition reply_content (data : value) : value :=
  Val.get (Val.get (Val.get0 (Val.get data (js "choices"))) (js "message")) (js "content").

(** Every response that [m] returns early satisfies [Q]. *)
Definition returns (Q : Response -> Prop) {A} (m : M A) : Prop :=
  forall st r st', m st = (Returned r, st') -> Q r.

(** The calls that touch the usage table. *)
Definition is_usage (e : Event) : bool :=
  match e with
  | SelectUsage _ | UpsertUsage _ _ => true
  | _ => false
  end.

(** The row that the detached block inserts. *)
Definition inserted_row (f : Fields) (c : Caller) (d : Deck) : Generation :=
  {| g_user_id := c_userId c; g_input := f_notes f; g_mode := f_mode f;
     g_style := f_style f; g_requested_count := f_count f;
     g_title := d_title d;
     g_output := output_value (d_title d) (d_cleaned d) |}.

(** The usage that the detached block writes for a free-plan caller. *)
Definition nextUsed (c : Caller) (d : Deck) : number :=
  Num.add (c_usedBefore c) (Num.of_Z (Z.of_nat (length (d_cleaned d)))).

(** *** Sample data *)

Definition entry (q a : string) : value :=
  VObj [(js "question", VStr (js q)); (js "answer", VStr (js a))].

Definition card (q a : string) : Flashcard :=
  {| question := js q; answer := js a; tags := [] |}.

Definition ten_entries : list value :=
  [ entry "Q1" "A1"; entry "Q2" "A2"; entry "Q3" "A3"; entry "Q4" "A4";
    entry "Q5" "A5"; entry "Q6" "A6"; entry "Q7" "A7"; entry "Q8" "A8";
    entry "Q9" "A9"; entry "Q10" "A10" ].

(** A completion reply whose content is a JSON text with five cards. *)
Definition sample_reply : jsstring :=
  jsq "{'choices':[{'message':{'content':'{\'title\':\'Cells\',\'flashcards\':[{\'question\':\'Q1\',\'answer\':\'A1\'},{\'question\':\'Q2\',\'answer\':\'A2\'},{\'question\':\'Q3\',\'answer\':\'A3\'},{\'question\':\'Q4\',\'answer\':\'A4\'},{\'question\':\'Q5\',\'answer\':\'A5\'}]}'}}]}".

(** One known token of one user; every lookup answers, the completion
    service replies with [sample_reply], every write is stored. *)
Definition sample_world : World :=
  {| getUser := fun t => if Str.eqb t (js "tok") then Some (js "u1") else None;
     profiles_answer := fun _ => true;
     usage_answer := fun _ => true;
     completion := fun _ _ => Reply 200 sample_reply;
     insert_result := fun _ => Written;
     upsert_result := fun _ _ => Written |}.

Definition sample_env : Env :=
  {| GROQ_API_KEY := Some (js "gsk");
     NEXT_PUBLIC_SUPABASE_URL := Some (js "https://db.example");
     SUPABASE_SERVICE_ROLE_KEY := Some (js "service") |}.

(** A free-plan user with 95 flashcards used. *)
Definition sample_store : Store :=
  {| profiles := ∅;
     usage := {[ js "u1" := VNum (Num.of_Z 95) ]};
     generations := [] |}.

Definition sample_request (header : option jsstring) (body : string) : Request :=
  {| authorization := header; body := jsq body |}.

Definition sample_fields (count : Z) (mode : string) : Fields :=
  {| f_notes := js "photosynthesis"; f_count := Num.of_Z count;
     f_style := js "balanced"; f_mode := js mode |}.

(** An entry with the given question and answer and nothing else. *)
Definition entry_of (q a : value) : value :=
  VObj [(js "question", q); (js "answer", a)].

Definition tab : N := 9%N.

(** Entries with white space of several kinds around their texts, and
    entries whose question is blank or empty. *)
Definition spaced_entries : list value :=
  [ entry_of (VStr (js "  Q1 " ++ [nl])) (VStr (tab :: js "A1  "));
    entry_of (VStr (js "   ")) (VStr (js "A2"));
    entry_of (VStr []) (VStr (js "A3"));
    entry_of (VStr (js "Q4")) (VStr (js "two words"));
    entry_of (VStr ([160; 65279] ++ js "Q5" ++ [8232; 12288; 8195])%N)
             (VStr ([11; 12; 13] ++ js "A5" ++ [5760; 8239; 8287; 8233; 8192; 8202])%N) ].

(** An entry with seven tags, not all of them strings. *)
Definition tagged_entry : value :=
  VObj [ (js "question", VStr (js "Q")); (js "answer", VStr (js "A"));
         (js "tags", VArr [ VStr (js "t1"); VNum (Num.of_Z 2); VBool true; VNull;
                            VStr (js "t5"); VStr (js "t6"); VStr (js "t7") ]) ].

(** The sample world with another answer of the completion service. *)
Definition replying (r : FetchResult) : World :=
  {| getUser := getUser sample_world;
     profiles_answer := profiles_answer sample_world;
     usage_answer := usage_answer sample_world;
     completion := fun _ _ => r;
     insert_result := insert_result sample_world;
     upsert_result := upsert_result sample_world |}.

(** The sample world with other ends of the writes. *)
Definition writing (ins ups : WriteResult) : World :=
  {| getUser := getUser sample_world;
     profiles_answer := profiles_answer sample_world;
     usage_answer := usage_answer sample_world;
     completion := completion sample_world;
     insert_result := fun _ => ins;
     upsert_result := fun _ _ => ups |}.

(** A completion reply that carries the given text, which needs no
    escaping. *)
Definition reply_with (content : string) : jsstring :=
  jsq "{'choices':[{'message':{'content':'" ++ js content ++ jsq "'}}]}".

(** A free-plan user with 10 flashcards used, and a premium user. *)
Definition light_store : Store :=
  {| profiles := ∅;
     usage := {[ js "u1" := VNum (Num.of_Z 10) ]};
     generations := [] |}.

Definition premium_store : Store :=
  {| profiles := {[ js "u1" := VStr (js "premium") ]};
     usage := ∅;
     generations := [] |}.

(** The sample user once the checks have passed, and the state then. *)
Definition sample_caller : Caller :=
  {| c_apiKey := js "gsk"; c_userId := js "u1"; c_plan := free;
     c_usedBefore := Num.of_Z 95 |}.

Definition checked : State :=
  {| store := sample_store;
     log := [AuthGetUser (js "tok"); SelectProfile (js "u1"); SelectUsage (js "u1")] |}.

(** * Properties *)

(** ** Strings *)

Section StringFacts.
Implicit Types (s p h a b : jsstring) (c : N).

Lemma indexOf_from_spec s c : forall i,
  (Str.indexOf_from i s c = -1 /\ c ∉ s) \/
  (exists k : nat, Str.indexOf_from i s c = i + Z.of_nat k /\ s !! k = Some c /\
              forall j : nat, (j < k)%nat -> s !! j <> Some c).
Proof.
  induction s as [|d s IH]; intros i; simpl.
  - left. split; [done | apply not_elem_of_nil].
  - destruct (N.eqb_spec d c) as [->|Hne].
    + right. exists 0%nat. split; [lia|]. split; [done|]. intros j Hj; lia.
    + destruct (IH (i + 1)) as [[E Hn] | (k & E & Hk & Hmin)].
      * left. split; [done|]. rewrite not_elem_of_cons. split; [congruence | done].
      * right. exists (S k). split; [lia|]. split; [done|].
        intros [|j] Hj; simpl; [congruence | apply Hmin; lia].
Qed.

Lemma lastIndexOf_from_spec s c : forall i, 0 <= i ->
  (Str.lastIndexOf_from i s c = -1 /\ c ∉ s) \/
  (exists k : nat, Str.lastIndexOf_from i s c = i + Z.of_nat k /\ s !! k = Some c /\
              forall j : nat, (k < j)%nat -> s !! j <> Some c).
Proof.
  induction s as [|d s IH]; intros i Hi; simpl.
  - left. split; [done | apply not_elem_of_nil].
  - destruct (IH (i + 1)) as [[E Hn] | (k & E & Hk & Hmax)]; [lia | |].
    + rewrite E. simpl. destruct (N.eqb_spec d c) as [->|Hne].
      * right. exists 0%nat. split; [lia|]. split; [done|].
        intros [|j] Hj; [lia|]. simpl. intros Hj'.
        apply Hn. eapply list_elem_of_lookup_2; eauto.
      * left. split; [done|]. rewrite not_elem_of_cons. split; [congruence | done].
    + rewrite E. destruct (Z.eqb_spec (i + 1 + Z.of_nat k) (-1)); [lia|].
      right. exists (S k). split; [lia|]. split; [done|].
      intros [|j] Hj; [lia|]. simpl. apply Hmax. lia.
Qed.

Lemma indexOf_absent s c : c ∉ s -> Str.indexOf s c = -1.
Proof.
  intros Hn. unfold Str.indexOf.
  destruct (indexOf_from_spec s c 0) as [[E _] | (k & _ & Hk & _)]; [done|].
  exfalso. apply Hn. by eapply list_elem_of_lookup_2.
Qed.

Lemma startsWith_take s : forall p,
  Str.startsWith s p = true -> take (length p) s = p.
Proof.
  induction s as [|d s IH]; intros [|e p]; simpl; try done.
  intros [E H]%andb_true_iff. apply N.eqb_eq in E as ->. by rewrite IH.
Qed.

Lemma startsWith_app p r : Str.startsWith (p ++ r) p = true.
Proof.
  induction p as [|e p IH]; simpl; [by destruct r|]. rewrite N.eqb_refl. exact IH.
Qed.

Lemma slice_from_drop s (n : nat) :
  (n <= length s)%nat -> Str.slice_from s (Z.of_nat n) = drop n s.
Proof.
  intros Hn. unfold Str.slice_from, Str.slice.
  destruct (Z.ltb_spec (Z.of_nat n) 0); [lia|].
  destruct (Z.ltb_spec (Z.of_nat (length s)) 0); [lia|].
  rewrite !Z.min_l by lia. rewrite Z.max_l by lia. rewrite Nat2Z.id.
  apply take_ge. rewrite length_drop. lia.
Qed.

Lemma slice_inclusive s (i j : nat) :
  (i <= j)%nat -> (j < length s)%nat ->
  Str.slice s (Z.of_nat i) (Z.of_nat j + 1) = take (j - i + 1) (drop i s).
Proof.
  intros Hij Hj. unfold Str.slice.
  destruct (Z.ltb_spec (Z.of_nat i) 0); [lia|].
  destruct (Z.ltb_spec (Z.of_nat j + 1) 0); [lia|].
  rewrite !Z.min_l by lia. rewrite Z.max_l by lia.
  rewrite Nat2Z.id. f_equal. lia.
Qed.

Lemma trimEnd_nonempty a c b :
  Str.is_ws c = false -> Str.trimEnd (a ++ c :: b) <> [].
Proof.
  intros Hc. induction a as [|x a IH]; simpl.
  - destruct (Str.trimEnd b); [by rewrite Hc | done].
  - destruct (Str.trimEnd (a ++ c :: b)); done.
Qed.

Lemma trimEnd_app_keep a b :
  Str.trimEnd b <> [] -> Str.trimEnd (a ++ b) = a ++ Str.trimEnd b.
Proof.
  intros Hb. induction a as [|x a IH]; simpl; [done|].
  rewrite IH. destruct (a ++ Str.trimEnd b) eqn:E; [|done].
  apply app_eq_nil in E as [_ E]. done.
Qed.

End StringFacts.

(** ** Response Extractor *)

Lemma opens_iff c : opens c = true <-> c = ch "[" \/ c = ch "{".
Proof. unfold opens. rewrite orb_true_iff, !N.eqb_eq. tauto. Qed.

Lemma closes_iff c : closes c = true <-> c = ch "]" \/ c = ch "}".
Proof. unfold closes. rewrite orb_true_iff, !N.eqb_eq. tauto. Qed.

Lemma first_index_of_two (text : jsstring) x y (i : nat) :
  (exists c, text !! i = Some c /\ (c = x \/ c = y)) ->
  (forall (k : nat) c, (k < i)%nat -> text !! k = Some c -> c <> x /\ c <> y) ->
  Math_min_index
    (List.filter (fun n => negb (n =? -1)) [Str.indexOf text x; Str.indexOf text y])
  = Num.Fin (Z.of_nat i).
Proof.
  intros (c & Hc & Hxy) Hmin. unfold Str.indexOf.
  assert (Hx: forall z, (Str.indexOf_from 0 text z = -1 /\ z ∉ text) \/
     (exists k : nat, Str.indexOf_from 0 text z = Z.of_nat k /\ text !! k = Some z /\
          forall j : nat, (j < k)%nat -> text !! j <> Some z)).
  { intros z. destruct (indexOf_from_spec text z 0) as [H|(k & E & H)]; [by left|].
    right. exists k. by rewrite E. }
  assert (Hge: forall z (k : nat), (z = x \/ z = y) -> text !! k = Some z -> (i <= k)%nat).
  { intros z k Hz Hk. destruct (le_lt_dec i k); [done|].
    destruct (Hmin k z) as [? ?]; [lia | done |]. destruct Hz; congruence. }
  assert (Hnn: forall k : nat, (Z.of_nat k =? -1) = false)
    by (intros k; apply Z.eqb_neq; lia).
  destruct (Hx x) as [[Ex Hnx] | (kx & Ex & Hkx & Hmx)];
  destruct (Hx y) as [[Ey Hny] | (ky & Ey & Hky & Hmy)];
    rewrite Ex, Ey; unfold Math_min_index; simpl; rewrite ?Hnn; simpl.
  - exfalso. destruct Hxy as [-> | ->];
      [apply Hnx | apply Hny]; eapply list_elem_of_lookup_2; eauto.
  - f_equal.
    destruct Hxy as [-> | ->].
    + exfalso. apply Hnx. eapply list_elem_of_lookup_2; eauto.
    + assert (i <= ky)%nat by (apply (Hge y); [by right | done]).
      destruct (le_lt_dec ky i); [lia|]. exfalso. by eapply Hmy; [|exact Hc].
  - f_equal.
    destruct Hxy as [-> | ->].
    + assert (i <= kx)%nat by (apply (Hge x); [by left | done]).
      destruct (le_lt_dec kx i); [lia|]. exfalso. by eapply Hmx; [|exact Hc].
    + exfalso. apply Hny. eapply list_elem_of_lookup_2; eauto.
  - f_equal.
    assert (i <= kx)%nat by (apply (Hge x); [by left | done]).
    assert (i <= ky)%nat by (apply (Hge y); [by right | done]).
    destruct Hxy as [-> | ->].
    + destruct (le_lt_dec kx i); [lia|]. exfalso. by eapply Hmx; [|exact Hc].
    + destruct (le_lt_dec ky i); [lia|]. exfalso. by eapply Hmy; [|exact Hc].
Qed.

Lemma last_index_of_two (text : jsstring) x y (j : nat) :
  (exists c, text !! j = Some c /\ (c = x \/ c = y)) ->
  (forall (k : nat) c, (j < k)%nat -> text !! k = Some c -> c <> x /\ c <> y) ->
  Z.max (Str.lastIndexOf text x) (Str.lastIndexOf text y) = Z.of_nat j.
Proof.
  intros (c & Hc & Hxy) Hmax. unfold Str.lastIndexOf.
  assert (Hx: forall z, (Str.lastIndexOf_from 0 text z = -1 /\ z ∉ text) \/
     (exists k : nat, Str.lastIndexOf_from 0 text z = Z.of_nat k /\ text !! k = Some z /\
          forall j : nat, (k < j)%nat -> text !! j <> Some z)).
  { intros z. destruct (lastIndexOf_from_spec text z 0) as [H|(k & E & H)];
      [lia | by left |]. right. exists k. by rewrite E. }
  assert (Hle: forall z (k : nat), (z = x \/ z = y) -> text !! k = Some z -> (k <= j)%nat).
  { intros z k Hz Hk. destruct (le_lt_dec k j); [done|].
    destruct (Hmax k z) as [? ?]; [lia | done |]. destruct Hz; congruence. }
  destruct (Hx x) as [[Ex Hnx] | (kx & Ex & Hkx & Hmx)];
  destruct (Hx y) as [[Ey Hny] | (ky & Ey & Hky & Hmy)];
    rewrite Ex, Ey.
  - exfalso. destruct Hxy as [-> | ->];
      [apply Hnx | apply Hny]; eapply list_elem_of_lookup_2; eauto.
  - destruct Hxy as [-> | ->].
    + exfalso. apply Hnx. eapply list_elem_of_lookup_2; eauto.
    + assert (ky <= j)%nat by (apply (Hle y); [by right | done]).
      destruct (le_lt_dec j ky); [lia|]. exfalso. by eapply Hmy; [|exact Hc].
  - destruct Hxy as [-> | ->].
    + assert (kx <= j)%nat by (apply (Hle x); [by left | done]).
      destruct (le_lt_dec j kx); [lia|]. exfalso. by eapply Hmx; [|exact Hc].
    + exfalso. apply Hny. eapply list_elem_of_lookup_2; eauto.
  - assert (kx <= j)%nat by (apply (Hle x); [by left | done]).
    assert (ky <= j)%nat by (apply (Hle y); [by right | done]).
    destruct Hxy as [-> | ->].
    + destruct (le_lt_dec j kx); [lia|]. exfalso. by eapply Hmx; [|exact Hc].
    + destruct (le_lt_dec j ky); [lia|]. exfalso. by eapply Hmy; [|exact Hc].
Qed.

Lemma bracket_scan_spans text (i j : nat) :
  first_open text i -> last_close text j -> (i < j)%nat ->
  bracket_scan text = JSON.parse (take (j - i + 1) (drop i text)).
Proof.
  intros [(c & Hc & Ho) Hfirst] [(d & Hd & Hcl) Hlast] Hij.
  unfold bracket_scan.
  rewrite (first_index_of_two text (ch "[") (ch "{") i).
  - rewrite (last_index_of_two text (ch "]") (ch "}") j).
    + destruct (Z.leb_spec 0 (Z.of_nat i)); [|lia].
      destruct (Z.ltb_spec (Z.of_nat i) (Z.of_nat j)); [|lia]. simpl.
      rewrite slice_inclusive; [done | lia |]. by eapply lookup_lt_Some.
    + exists d. split; [done|]. by apply closes_iff.
    + intros k e Hk He. specialize (Hlast k e Hk He).
      split; intros ->; by rewrite (proj2 (closes_iff _)) in Hlast; auto.
  - exists c. split; [done|]. by apply opens_iff.
  - intros k e Hk He. specialize (Hfirst k e Hk He).
    split; intros ->; by rewrite (proj2 (opens_iff _)) in Hfirst; auto.
Qed.

Lemma first_open_check (text : jsstring) (i : nat) :
  from_option opens false (text !! i) = true ->
  forallb (fun c => negb (opens c)) (take i text) = true ->
  first_open text i.
Proof.
  intros H1 H2. split.
  - destruct (text !! i) as [c|]; [|done]. by exists c.
  - intros k c Hk Hc. rewrite forallb_forall in H2.
    apply negb_true_iff, H2, list_elem_of_In.
    eapply list_elem_of_lookup_2. rewrite lookup_take_lt; eauto.
Qed.

Lemma last_close_check (text : jsstring) (j : nat) :
  from_option closes false (text !! j) = true ->
  forallb (fun c => negb (closes c)) (drop (S j) text) = true ->
  last_close text j.
Proof.
  intros H1 H2. split.
  - destruct (text !! j) as [c|]; [|done]. by exists c.
  - intros k c Hk Hc. rewrite forallb_forall in H2.
    apply negb_true_iff, H2, list_elem_of_In.
    eapply (list_elem_of_lookup_2 _ (k - S j)). rewrite lookup_drop.
    replace (S j + (k - S j))%nat with k by lia. done.
Qed.

Lemma no_brackets_check (text : jsstring) :
  forallb (fun c => negb (opens c || closes c)) text = true ->
  forall c, c ∈ text -> opens c = false /\ closes c = false.
Proof.
  intros H c Hc. rewrite forallb_forall in H.
  apply list_elem_of_In, H, negb_true_iff, orb_false_iff in Hc. done.
Qed.

(** *** The fence pattern matches only fenced blocks *)

Section FenceFacts.
Context {A : Type}.
Implicit Types (k : jsstring -> option A) (r : A).

Lemma lit_sound p : forall s k r,
  Re.lit p s k = Some r ->
  exists m rest, s = m ++ rest /\ List.map Re.canon m = List.map Re.canon p
                 /\ k rest = Some r.
Proof.
  induction p as [|a p IH]; intros s k r H; simpl in H.
  - by exists [], s.
  - destruct s as [|b s]; [done|].
    destruct (N.eqb_spec (Re.canon a) (Re.canon b)) as [E|]; [|done].
    destruct (IH _ _ _ H) as (m & rest & -> & Hm & Hk).
    exists (b :: m), rest. simpl. by rewrite Hm, E.
Qed.

Lemma star_sound cls : forall s k r,
  Re.star cls s k = Some r ->
  exists w rest, s = w ++ rest /\ Forall (fun c => cls c = true) w /\ k rest = Some r.
Proof.
  induction s as [|c s IH]; intros k r H; simpl in H.
  - by exists [], [].
  - destruct (cls c) eqn:Ec; [|by exists [], (c :: s)].
    destruct (Re.star cls s k) as [r'|] eqn:Es.
    + injection H as ->. destruct (IH _ _ Es) as (w & rest & -> & Hw & Hk).
      exists (c :: w), rest. split; [done|]. split; [by constructor | done].
    + by exists [], (c :: s).
Qed.

Lemma star_lazy_sound cls : forall s k r,
  Re.star_lazy cls s k = Some r ->
  exists w rest, s = w ++ rest /\ Forall (fun c => cls c = true) w /\ k rest = Some r.
Proof.
  induction s as [|c s IH]; intros k r H; simpl in H.
  - destruct (k []) eqn:Ek; [|done]. injection H as ->. by exists [], [].
  - destruct (k (c :: s)) eqn:Ek.
    + injection H as ->. by exists [], (c :: s).
    + destruct (cls c) eqn:Ec; [|done].
      destruct (IH _ _ H) as (w & rest & -> & Hw & Hk).
      exists (c :: w), rest. split; [done|]. split; [by constructor | done].
Qed.

End FenceFacts.

Lemma canon_backticks m : List.map Re.canon m = js "```" -> m = js "```".
Proof.
  assert (Hc: forall c, Re.canon c = 96%N -> c = 96%N).
  { intros c. unfold Re.canon.
    destruct ((ch "a" <=? c)%N && (c <=? ch "z")%N) eqn:E; [|done].
    apply andb_true_iff in E as [E1 E2].
    apply N.leb_le in E1, E2. change (ch "a") with 97%N in E1.
    change (ch "z") with 122%N in E2. lia. }
  destruct m as [|a [|b [|c [|d m]]]]; try done.
  change (js "```") with [96%N; 96%N; 96%N]. simpl.
  intros [= ->%Hc ->%Hc ->%Hc]. done.
Qed.

Lemma fence_at_sound s g :
  Re.fence_at s = Some g -> fenced_block s g.
Proof.
  unfold Re.fence_at. intros H.
  apply lit_sound in H as (tag & s1 & -> & Htag & H).
  apply star_sound in H as (w1 & s2 & -> & Hw1 & H).
  apply star_lazy_sound in H as (inner & s3 & -> & _ & H).
  apply star_sound in H as (w2 & s4 & -> & Hw2 & H).
  apply lit_sound in H as (close & post & -> & Hclose & H).
  injection H as <-.
  exists [], tag, w1, w2, post. simpl.
  rewrite (canon_backticks close) by exact Hclose.
  split; [|done].
  rewrite length_app.
  replace (length inner + length (w2 ++ js "```" ++ post)
           - length (w2 ++ js "```" ++ post))%nat with (length inner) by lia.
  by rewrite take_app_length.
Qed.

Lemma fence_sound text g :
  Re.fence text = Some g -> fenced_block text g.
Proof.
  induction text as [|c text IH]; simpl.
  - intros H. by vm_compute in H.
  - destruct (Re.fence_at (c :: text)) eqn:E.
    + intros [= ->]. by apply fence_at_sound.
    + intros H. destruct (IH H) as (pre & tag & w1 & w2 & post & -> & ?).
      by exists (c :: pre), tag, w1, w2, post.
Qed.

(** C4, as amended: when the extractor finds a fenced block tagged as
    JSON whose interior is not empty, that interior is what lies
    between the fence marks and the white space next to them, the
    result of the extraction is the result of parsing exactly it, a
    failure included, and the bracket scan is not run. When the
    interior is empty the extractor goes on to the bracket scan. *)
Theorem extractJson_fence_nonempty_no_fallback :
  forall text g,
    Re.fence text = Some g ->
    (g <> [] -> fenced_block text g /\ extractJson text = JSON.parse g) /\
    (g = [] -> extractJson text = bracket_scan text).
Proof.
  intros text g Hf. split.
  - intros Hg. split; [by apply fence_sound|].
    unfold extractJson. rewrite Hf. by destruct g.
  - intros ->. unfold extractJson. by rewrite Hf.
Qed.

Lemma extractJson_fence_nonempty_no_fallback_witness :
  Re.fence (jsq "Sure: ```json {'a':1} ``` bye") = Some (jsq "{'a':1}") /\
  fenced_block (jsq "Sure: ```json {'a':1} ``` bye") (jsq "{'a':1}") /\
  extractJson (jsq "Sure: ```json {'a':1} ``` bye") = JSON.parse (jsq "{'a':1}").
Proof.
  split; [vm_compute; reflexivity|].
  apply (proj1 (extractJson_fence_nonempty_no_fallback
                  (jsq "Sure: ```json {'a':1} ``` bye") (jsq "{'a':1}")
                  ltac:(vm_compute; reflexivity))).
  vm_compute. discriminate.
Defined.

(** C4 as stated fails on a fence with an empty interior: the fence is
    found, its interior does not parse, and the extraction still
    succeeds, through the bracket scan. *)
Lemma extractJson_empty_fence_falls_back :
  Re.fence (js "```json```[]") = Some [] /\
  JSON.parse [] = Throw JSON.not_json /\
  extractJson (js "```json```[]") = Ok (VArr []).
Proof. vm_compute. repeat split. Qed.

(** C5: on a text in which no fence is found, with [i] the first
    position of an opening bracket and [j] the last position of a
    closing bracket, [i] before [j], the extractor parses the text from
    [i] to [j], both included; on the sample text it gives the object
    with the one property a = 1. *)
Theorem extractJson_unfenced_spans_brackets :
  (forall text (i j : nat),
     Re.fence text = None ->
     first_open text i -> last_close text j -> (i < j)%nat ->
     extractJson text = JSON.parse (take (j - i + 1) (drop i text)))
  /\ extractJson (jsq "Here is the result: {'a':1} thanks")
     = Ok (VObj [(js "a", VNum (Num.of_Z 1))]).
Proof.
  split.
  - intros text i j Hf Hi Hj Hij. unfold extractJson. rewrite Hf.
    by apply bracket_scan_spans.
  - vm_compute. reflexivity.
Qed.

Lemma extractJson_unfenced_spans_brackets_witness :
  Re.fence (jsq "Here is the result: {'a':1} thanks") = None /\
  first_open (jsq "Here is the result: {'a':1} thanks") 20 /\
  last_close (jsq "Here is the result: {'a':1} thanks") 26 /\
  extractJson (jsq "Here is the result: {'a':1} thanks")
  = JSON.parse (take (26 - 20 + 1) (drop 20 (jsq "Here is the result: {'a':1} thanks"))).
Proof.
  split; [vm_compute; reflexivity|].
  split; [apply first_open_check; vm_compute; reflexivity|].
  split; [apply last_close_check; vm_compute; reflexivity|].
  apply (proj1 extractJson_unfenced_spans_brackets _ 20%nat 26%nat).
  - vm_compute; reflexivity.
  - apply first_open_check; vm_compute; reflexivity.
  - apply last_close_check; vm_compute; reflexivity.
  - lia.
Defined.

(** C6: a text in which no fence is found and that holds none of the
    four brackets makes the extractor throw its own error. *)
Theorem extractJson_no_brackets_fails :
  forall text,
    Re.fence text = None ->
    (forall c, c ∈ text -> opens c = false /\ closes c = false) ->
    extractJson text = Throw (Error (js "Model did not return valid JSON")).
Proof.
  intros text Hf Hno. unfold extractJson. rewrite Hf. unfold bracket_scan.
  rewrite !indexOf_absent; [done | |].
  - intros Hin. destruct (Hno _ Hin) as [Ho _]. by vm_compute in Ho.
  - intros Hin. destruct (Hno _ Hin) as [Ho _]. by vm_compute in Ho.
Qed.

Lemma extractJson_no_brackets_fails_witness :
  Re.fence (js "Sorry, I cannot help with that.") = None /\
  (forall c, c ∈ js "Sorry, I cannot help with that." ->
             opens c = false /\ closes c = false) /\
  extractJson (js "Sorry, I cannot help with that.")
  = Throw (Error (js "Model did not return valid JSON")).
Proof.
  split; [vm_compute; reflexivity|].
  split; [apply no_brackets_check; vm_compute; reflexivity|].
  apply extractJson_no_brackets_fails.
  - vm_compute; reflexivity.
  - apply no_brackets_check; vm_compute; reflexivity.
Defined.

(** ** More on strings *)

Section TrimFacts.
Implicit Types (s t : jsstring) (c : N).

Lemma trimStart_length s : (length (Str.trimStart s) <= length s)%nat.
Proof. induction s as [|c s IH]; simpl; [lia|]. destruct (Str.is_ws c); simpl; lia. Qed.

Lemma trimEnd_length s : (length (Str.trimEnd s) <= length s)%nat.
Proof.
  induction s as [|c s IH]; simpl; [lia|].
  destruct (Str.trimEnd s); [destruct (Str.is_ws c)|]; simpl in *; lia.
Qed.

Lemma trimEnd_idemp s : Str.trimEnd (Str.trimEnd s) = Str.trimEnd s.
Proof.
  induction s as [|c s IH]; simpl; [done|].
  destruct (Str.trimEnd s) as [|d r] eqn:E.
  - destruct (Str.is_ws c) eqn:Ec; simpl; [done | by rewrite Ec].
  - change (Str.trimEnd (c :: d :: r))
      with (match Str.trimEnd (d :: r) with
            | [] => if Str.is_ws c then [] else [c]
            | r' => c :: r'
            end).
    by rewrite IH.
Qed.

Lemma trimEnd_head c s :
  Str.is_ws c = false -> exists r, Str.trimEnd (c :: s) = c :: r.
Proof.
  intros Hc. simpl. destruct (Str.trimEnd s) as [|d r]; [|by eexists].
  rewrite Hc. by eexists.
Qed.

Lemma trimStart_head s :
  Str.trimStart s = [] \/ exists c r, Str.trimStart s = c :: r /\ Str.is_ws c = false.
Proof.
  induction s as [|c s IH]; simpl; [by left|].
  destruct (Str.is_ws c) eqn:Ec; [done|]. right. by exists c, s.
Qed.

Lemma trim_idemp s : Str.trim (Str.trim s) = Str.trim s.
Proof.
  unfold Str.trim.
  destruct (trimStart_head s) as [-> | (c & r & -> & Hc)]; [done|].
  destruct (trimEnd_head c r Hc) as (r' & E). rewrite E.
  simpl Str.trimStart. rewrite Hc. rewrite <- E. apply trimEnd_idemp.
Qed.

(** A trimmed string that is not empty begins and ends with a
    character that is not white space. *)
Lemma trimEnd_fixed_last s :
  Str.trimEnd s = s -> s <> [] ->
  exists h b, s = h ++ [b] /\ Str.is_ws b = false.
Proof.
  induction s as [|c s IH]; [done|]. intros H _.
  destruct s as [|d s].
  - simpl in H. destruct (Str.is_ws c) eqn:Ec; [done|]. by exists [], c.
  - change (Str.trimEnd (c :: d :: s))
      with (match Str.trimEnd (d :: s) with
            | [] => if Str.is_ws c then [] else [c]
            | r' => c :: r'
            end) in H.
    destruct (Str.trimEnd (d :: s)) as [|d' r] eqn:E.
    + destruct (Str.is_ws c); discriminate H.
    + injection H as H1 H2. subst d' r. destruct IH as (h & b & Hh & Hb); [done | done |].
      exists (c :: h), b. by rewrite Hh.
Qed.

Lemma trim_fixed_ends s :
  Str.trim s = s -> s <> [] ->
  (exists c r, s = c :: r /\ Str.is_ws c = false) /\
  (exists h b, s = h ++ [b] /\ Str.is_ws b = false).
Proof.
  intros H Hne. destruct s as [|c r]; [done|].
  assert (Hc: Str.is_ws c = false).
  { destruct (Str.is_ws c) eqn:Ec; [|done]. exfalso.
    apply (f_equal length) in H. unfold Str.trim in H. simpl in H. rewrite Ec in H.
    pose proof (trimEnd_length (Str.trimStart r)). pose proof (trimStart_length r). lia. }
  split; [by exists c, r|].
  apply trimEnd_fixed_last; [|done].
  unfold Str.trim in H. simpl in H. by rewrite Hc in H.
Qed.

Lemma lastIndexOf_absent s c : c ∉ s -> Str.lastIndexOf s c = -1.
Proof.
  intros Hn. unfold Str.lastIndexOf.
  destruct (lastIndexOf_from_spec s c 0) as [[E _] | (k & _ & Hk & _)]; [lia | done |].
  exfalso. apply Hn. by eapply list_elem_of_lookup_2.
Qed.

End TrimFacts.

Lemma trimEnd_blank_app (a b : jsstring) :
  Str.trimEnd b = [] -> Str.trimEnd (a ++ b) = Str.trimEnd a.
Proof.
  intros Hb. induction a as [|x a IH]; simpl; [done|]. by rewrite IH.
Qed.

(** *** Trimming removes the white space at the two ends, and only it *)

Section TrimSpec.
Implicit Types (s t w : jsstring).

Lemma trimStart_blank w :
  Forall (fun c => Str.is_ws c = true) w -> forall s, Str.trimStart (w ++ s) = Str.trimStart s.
Proof. induction 1 as [|c w Hc _ IH]; intros s; simpl; [done|]. by rewrite Hc. Qed.

Lemma trimEnd_blank w :
  Forall (fun c => Str.is_ws c = true) w -> Str.trimEnd w = [].
Proof. induction 1 as [|c w Hc _ IH]; simpl; [done|]. by rewrite IH, Hc. Qed.

Lemma trimStart_split s :
  exists w, s = w ++ Str.trimStart s /\ Forall (fun c => Str.is_ws c = true) w.
Proof.
  induction s as [|c s (w & Hs & Hw)]; simpl; [by exists []|].
  destruct (Str.is_ws c) eqn:Ec; [|by exists []].
  exists (c :: w). split; [simpl; by f_equal | by constructor].
Qed.

Lemma trimEnd_split s :
  exists w, s = Str.trimEnd s ++ w /\ Forall (fun c => Str.is_ws c = true) w.
Proof.
  induction s as [|c s (w & Hs & Hw)]; simpl; [by exists []|].
  destruct (Str.trimEnd s) as [|d r] eqn:E.
  - simpl in Hs. subst w. destruct (Str.is_ws c) eqn:Ec.
    + exists (c :: s). split; [done | by constructor].
    + by exists s.
  - exists w. split; [by rewrite Hs at 1 | done].
Qed.

Lemma trimEnd_keeps t :
  t <> [] -> (forall c, last t = Some c -> Str.is_ws c = false) -> Str.trimEnd t = t.
Proof.
  induction t as [|c t IH]; [done|]. intros _ Hl.
  destruct t as [|d t].
  - simpl. by rewrite Hl.
  - change (Str.trimEnd (c :: d :: t))
      with (match Str.trimEnd (d :: t) with
            | [] => if Str.is_ws c then [] else [c]
            | r' => c :: r'
            end).
    rewrite IH; [done | done |]. intros x Hx. apply Hl. by rewrite last_cons_cons.
Qed.

Lemma trim_no_space_at_ends s : no_space_at_ends (Str.trim s).
Proof.
  destruct (Str.trim s) as [|c0 r0] eqn:E; [by split|].
  destruct (trim_fixed_ends (Str.trim s)) as [(c & r & Hc & Hcws) (h & b & Hh & Hbws)];
    [apply trim_idemp | by rewrite E |].
  rewrite <- E. split.
  - rewrite Hc. by intros x [= <-].
  - rewrite Hh, last_snoc. by intros x [= <-].
Qed.

Lemma trim_spec s t : trimmed_of s t <-> Str.trim s = t.
Proof.
  split.
  - intros (w1 & w2 & -> & Hw1 & Hw2 & Hhead & Hlast). unfold Str.trim.
    rewrite trimStart_blank by done.
    destruct t as [|c t].
    + simpl. pose proof (trimStart_blank w2 Hw2 []) as Hb. rewrite app_nil_r in Hb.
      by rewrite Hb.
    + simpl app. simpl Str.trimStart. rewrite (Hhead c eq_refl).
      change (c :: t ++ w2) with ((c :: t) ++ w2).
      rewrite trimEnd_blank_app by (by apply trimEnd_blank).
      by apply trimEnd_keeps.
  - intros <-. destruct (trimStart_split s) as (w1 & Hs & Hw1).
    destruct (trimEnd_split (Str.trimStart s)) as (w2 & Hs' & Hw2).
    exists w1, w2. split; [|split; [done|split; [done|]]].
    + unfold Str.trim. by rewrite <- Hs'.
    + apply trim_no_space_at_ends.
Qed.

End TrimSpec.

Lemma no_space_at_ends_check (t : jsstring) :
  from_option (fun c => negb (Str.is_ws c)) true (head t) = true ->
  from_option (fun c => negb (Str.is_ws c)) true (last t) = true ->
  no_space_at_ends t.
Proof.
  intros Hh Hl. split; intros c Hc; rewrite Hc in *; simpl in *;
    by apply negb_true_iff.
Qed.


(** ** More on the fence pattern *)

Section FenceFound.
Context {A : Type}.
Implicit Types (k : jsstring -> option A) (r : A).

Lemma lit_complete p : forall m rest k,
  List.map Re.canon m = List.map Re.canon p -> Re.lit p (m ++ rest) k = k rest.
Proof.
  induction p as [|a p IH]; intros [|b m] rest k H; try done; simpl in *.
  injection H as Hb Hm. rewrite Hb, N.eqb_refl. by apply IH.
Qed.

Lemma lit_backtick_fails (p : jsstring) c s k :
  c <> ch "`" -> Re.lit (ch "`" :: p) (c :: s) k = None.
Proof.
  intros Hc. cbn [Re.lit]. change (Re.canon (ch "`")) with 96%N.
  destruct (N.eqb_spec 96 (Re.canon c)) as [E|]; [|done].
  exfalso. apply Hc. change (ch "`") with 96%N.
  unfold Re.canon in E.
  destruct ((ch "a" <=? c)%N && (c <=? ch "z")%N) eqn:E'; [|done].
  apply andb_true_iff in E' as [E1 E2]. apply N.leb_le in E1, E2.
  change (ch "a") with 97%N in E1. change (ch "z") with 122%N in E2. lia.
Qed.

Lemma star_takes_all cls w : forall rest k r,
  Forall (fun c => cls c = true) w ->
  from_option cls false (head rest) = false ->
  k rest = Some r ->
  Re.star cls (w ++ rest) k = Some r.
Proof.
  induction w as [|c w IH]; intros rest k r Hw Hrest Hk; simpl.
  - destruct rest as [|d rest]; [done|]. simpl in *. by rewrite Hrest.
  - apply Forall_cons in Hw as [-> Hw]. by rewrite (IH rest k r).
Qed.

End FenceFound.

Lemma closing_fence_not_inside {A} (k : jsstring -> option A) h b tail :
  ch "`" ∉ h -> b <> ch "`" -> Str.is_ws b = false ->
  Re.star Re.space (h ++ b :: tail) (fun s4 => Re.lit (js "```") s4 k) = None.
Proof.
  intros Hh Hb Hws. induction h as [|c h IH].
  - cbn [app Re.star]. change (Re.space b) with (Str.is_ws b). rewrite Hws.
    by apply (lit_backtick_fails (js "``")).
  - apply not_elem_of_cons in Hh as [Hc Hh]. cbn [app Re.star].
    rewrite (IH Hh).
    assert (Re.lit (js "```") (c :: h ++ b :: tail) k = None) as ->
      by (apply (lit_backtick_fails (js "``")); congruence).
    by destruct (Re.space c).
Qed.

Lemma star_lazy_reaches_fence (k : jsstring -> jsstring -> option jsstring) b tail r :
  b <> ch "`" -> Str.is_ws b = false ->
  Re.star Re.space tail (fun s4 => Re.lit (js "```") s4 (k tail)) = Some r ->
  forall h, ch "`" ∉ h ->
    Re.star_lazy Re.any (h ++ b :: tail)
      (fun s3 => Re.star Re.space s3 (fun s4 => Re.lit (js "```") s4 (k s3)))
    = Some r.
Proof.
  intros Hb Hws Htail h. induction h as [|x h IH]; intros Hh.
  - cbn [app Re.star_lazy].
    pose proof (closing_fence_not_inside (k (b :: tail)) [] b tail
                  (not_elem_of_nil _) Hb Hws) as Hno.
    cbn [app] in Hno. rewrite Hno.
    cbn [Re.any]. destruct tail as [|t tail]; cbn [Re.star_lazy]; by rewrite Htail.
  - apply not_elem_of_cons in Hh as [Hx Hh]. cbn [app Re.star_lazy].
    pose proof (closing_fence_not_inside (k (x :: h ++ b :: tail)) (x :: h) b tail
                  ltac:(by apply not_elem_of_cons) Hb Hws) as Hno.
    cbn [app] in Hno. rewrite Hno.
    cbn [Re.any]. by apply IH.
Qed.

Lemma fence_at_reads tag w1 g w2 post :
  List.map Re.canon tag = js "```JSON" ->
  Forall (fun c => Str.is_ws c = true) w1 ->
  Forall (fun c => Str.is_ws c = true) w2 ->
  g <> [] -> Str.trim g = g -> ch "`" ∉ g ->
  Re.fence_at (tag ++ w1 ++ g ++ w2 ++ js "```" ++ post) = Some g.
Proof.
  intros Htag Hw1 Hw2 Hne Htrim Hg.
  destruct (trim_fixed_ends g Htrim Hne) as [(c & r & Hc & Hcws) (h & b & Hh & Hbws)].
  unfold Re.fence_at.
  rewrite lit_complete by (rewrite Htag; reflexivity).
  set (tail := w2 ++ js "```" ++ post).
  assert (Hb: b <> ch "`").
  { intros ->. apply Hg. rewrite Hh. apply elem_of_app. right. by left. }
  assert (Hh': ch "`" ∉ h).
  { intros Hin. apply Hg. rewrite Hh. apply elem_of_app. by left. }
  apply star_takes_all; [done | rewrite Hc; exact Hcws |].
  assert (g ++ tail = h ++ b :: tail) as Eg by (by rewrite Hh, <- app_assoc).
  rewrite Eg.
  apply (star_lazy_reaches_fence
           (fun s3 _ => Some (take (length (h ++ b :: tail) - length s3) (h ++ b :: tail))));
    [done | done | | done].
  unfold tail at 1.
  apply star_takes_all; [done | done |].
  rewrite (lit_complete (js "```") (js "```") post) by reflexivity.
  f_equal. rewrite <- Eg. rewrite length_app.
  replace (length g + length tail - length tail)%nat with (length g) by lia.
  by rewrite take_app_length.
Qed.

Lemma fence_skips_plain pre s :
  ch "`" ∉ pre -> Re.fence (pre ++ s) = Re.fence s.
Proof.
  induction pre as [|c pre IH]; intros Hpre; [done|].
  apply not_elem_of_cons in Hpre as [Hc Hpre].
  cbn [app Re.fence]. unfold Re.fence_at at 1.
  rewrite (lit_backtick_fails (js "``json")) by congruence. by apply IH.
Qed.

Lemma fence_found text g : Re.fence_at text = Some g -> Re.fence text = Some g.
Proof. intros H. destruct text; cbn [Re.fence]; by rewrite H. Qed.

Lemma first_open_or_none (text : jsstring) :
  (exists i, first_open text i) \/ (forall c, c ∈ text -> opens c = false).
Proof.
  induction text as [|c text IH].
  - right. by intros c ?%elem_of_nil.
  - destruct (opens c) eqn:Ec.
    + left. exists 0%nat. split; [by exists c|]. intros k d Hk; lia.
    + destruct IH as [(i & (d & Hd & Ho) & Hmin) | Hno].
      * left. exists (S i). split; [by exists d|].
        intros [|k] e Hk He; simpl in He; [by injection He as <-|].
        apply (Hmin k); [lia | done].
      * right. intros d [->|Hd]%elem_of_cons; [done | by apply Hno].
Qed.

Lemma last_close_or_none (text : jsstring) :
  (exists j, last_close text j) \/ (forall c, c ∈ text -> closes c = false).
Proof.
  induction text as [|c text IH].
  - right. by intros c ?%elem_of_nil.
  - destruct IH as [(j & (d & Hd & Hc) & Hmax) | Hno].
    + left. exists (S j). split; [by exists d|].
      intros [|k] e Hk He; [lia|]. simpl in He. apply (Hmax k); [lia | done].
    + destruct (closes c) eqn:Ec.
      * left. exists 0%nat. split; [by exists c|].
        intros [|k] e Hk He; [lia|]. simpl in He. apply Hno.
        by eapply list_elem_of_lookup_2.
      * right. intros d [->|Hd]%elem_of_cons; [done | by apply Hno].
Qed.

Lemma bracket_scan_needs_order (text : jsstring) :
  (forall (i j : nat) c d,
     text !! i = Some c -> opens c = true ->
     text !! j = Some d -> closes d = true -> (j < i)%nat) ->
  bracket_scan text = Throw no_json.
Proof.
  intros Hord. unfold bracket_scan.
  destruct (first_open_or_none text) as [(i & [(c & Hc & Ho) Hfirst]) | Hno].
  - rewrite (first_index_of_two text (ch "[") (ch "{") i).
    + assert (Z.max (Str.lastIndexOf text (ch "]")) (Str.lastIndexOf text (ch "}"))
              < Z.of_nat i) as Hlast.
      { destruct (last_close_or_none text) as [(j & [(d & Hd & Hcl) Hlast]) | Hnc].
        - rewrite (last_index_of_two text (ch "]") (ch "}") j).
          + apply inj_lt. by apply (Hord i j c d).
          + exists d. split; [done|]. by apply closes_iff.
          + intros k e Hk He. specialize (Hlast k e Hk He).
            split; intros ->; by rewrite (proj2 (closes_iff _)) in Hlast; auto.
        - rewrite !lastIndexOf_absent; [lia | |];
            intros Hin; apply Hnc in Hin; by vm_compute in Hin. }
      destruct (Z.ltb_spec (Z.of_nat i)
                  (Z.max (Str.lastIndexOf text (ch "]")) (Str.lastIndexOf text (ch "}"))));
        [lia|]. by rewrite andb_false_r.
    + exists c. split; [done|]. by apply opens_iff.
    + intros k e Hk He. specialize (Hfirst k e Hk He).
      split; intros ->; by rewrite (proj2 (opens_iff _)) in Hfirst; auto.
  - rewrite !indexOf_absent; [done | |];
      intros Hin; apply Hno in Hin; by vm_compute in Hin.
Qed.

Lemma bracket_order_check (text : jsstring) (n : nat) :
  forallb (fun c => negb (opens c)) (take n text) = true ->
  forallb (fun c => negb (closes c)) (drop n text) = true ->
  forall (i j : nat) c d,
    text !! i = Some c -> opens c = true ->
    text !! j = Some d -> closes d = true -> (j < i)%nat.
Proof.
  intros H1 H2 i j c d Hc Ho Hd Hcl. rewrite forallb_forall in H1, H2.
  destruct (le_lt_dec n i) as [Hi|Hi].
  - destruct (le_lt_dec n j) as [Hj|Hj]; [|lia]. exfalso.
    assert (d ∈ drop n text) as Hin.
    { apply (list_elem_of_lookup_2 _ (j - n)). rewrite lookup_drop.
      by replace (n + (j - n))%nat with j by lia. }
    apply list_elem_of_In, H2, negb_true_iff in Hin. congruence.
  - exfalso.
    assert (c ∈ take n text) as Hin.
    { apply (list_elem_of_lookup_2 _ i). by rewrite lookup_take_lt. }
    apply list_elem_of_In, H1, negb_true_iff in Hin. congruence.
Qed.

(** X3: the extractor reads a well-formed fenced block wherever it
    stands: after any text free of backticks, with the tag in either
    letter case, the interior not empty, without white space at its ends
    and free of backticks, and whatever follows the closing fence, the
    result is the parse of the interior. *)
Theorem extractJson_reads_first_fence :
  forall pre tag w1 g w2 post,
    ch "`" ∉ pre ->
    List.map Re.canon tag = js "```JSON" ->
    Forall (fun c => Str.is_ws c = true) w1 ->
    Forall (fun c => Str.is_ws c = true) w2 ->
    g <> [] -> no_space_at_ends g -> ch "`" ∉ g ->
    extractJson (pre ++ tag ++ w1 ++ g ++ w2 ++ js "```" ++ post) = JSON.parse g.
Proof.
  intros pre tag w1 g w2 post Hpre Htag Hw1 Hw2 Hne Hends Hg.
  assert (Str.trim g = g) as Htrim.
  { apply trim_spec. exists [], []. rewrite app_nil_r.
    split; [done|]. split; [constructor|]. split; [constructor | exact Hends]. }
  unfold extractJson. rewrite fence_skips_plain by done.
  rewrite (fence_found _ g) by (by apply fence_at_reads).
  by destruct g.
Qed.

Lemma extractJson_reads_first_fence_witness :
  extractJson (jsq "Here you go: " ++ js "```Json" ++ [nl] ++ jsq "{'title':'T','flashcards':[]}"
               ++ [nl] ++ js "```" ++ js " (I hope this helps}")
  = JSON.parse (jsq "{'title':'T','flashcards':[]}").
Proof.
  apply (extractJson_reads_first_fence (jsq "Here you go: ") (js "```Json") [nl]
           (jsq "{'title':'T','flashcards':[]}") [nl] (js " (I hope this helps}")).
  - apply (bool_decide_unpack _). vm_compute. reflexivity.
  - vm_compute. reflexivity.
  - repeat constructor.
  - repeat constructor.
  - vm_compute. discriminate.
  - apply no_space_at_ends_check; vm_compute; reflexivity.
  - apply (bool_decide_unpack _). vm_compute. reflexivity.
Defined.

(** X4: brackets in the wrong order are no brackets: on a text in which
    no fence is found and every closing bracket stands before every
    opening one, the extractor throws its own error. *)
Theorem extractJson_closing_before_opening_fails :
  forall text,
    Re.fence text = None ->
    (forall (i j : nat) c d,
       text !! i = Some c -> opens c = true ->
       text !! j = Some d -> closes d = true -> (j < i)%nat) ->
    extractJson text = Throw (Error (js "Model did not return valid JSON")).
Proof.
  intros text Hf Hord. unfold extractJson. rewrite Hf.
  by apply bracket_scan_needs_order.
Qed.

Lemma extractJson_closing_before_opening_fails_witness :
  extractJson (js "1] see the list } then [ or {")
  = Throw (Error (js "Model did not return valid JSON")).
Proof.
  apply (extractJson_closing_before_opening_fails (js "1] see the list } then [ or {")).
  - vm_compute. reflexivity.
  - apply (bracket_order_check _ 17); vm_compute; reflexivity.
Defined.

(** ** Prompt Builder *)

Lemma prompt_keeps_rules userText count style rules :
  occurs_in rules
    (Str.trim (prompt_head ++ Num.toString count ++ prompt_task ++ rules
               ++ prompt_schema ++ style ++ prompt_input ++ userText)).
Proof.
  unfold Str.trim.
  change prompt_head with (ch "Y" :: List.tl prompt_head).
  cbn [app Str.trimStart]. change (Str.is_ws (ch "Y")) with false. cbv iota.
  set (P := ch "Y" :: List.tl prompt_head ++ Num.toString count ++ prompt_task).
  set (B := prompt_schema ++ style ++ prompt_input ++ userText).
  assert (HB: Str.trimEnd B <> []).
  { unfold B. change prompt_schema with ([nl; nl] ++ ch "O" :: drop 3 prompt_schema).
    rewrite <- !app_assoc. cbn [app].
    apply (trimEnd_nonempty [nl; nl] (ch "O")). reflexivity. }
  exists P, (Str.trimEnd B).
  change (ch "Y" :: List.tl prompt_head ++ Num.toString count ++ prompt_task ++ rules ++ B)
    with (ch "Y" :: (List.tl prompt_head ++ Num.toString count ++ prompt_task ++ rules ++ B)).
  replace (ch "Y" :: (List.tl prompt_head ++ Num.toString count ++ prompt_task ++ rules ++ B))
    with ((P ++ rules) ++ B).
  - rewrite trimEnd_app_keep by exact HB. by rewrite <- app_assoc.
  - unfold P. cbn [app]. by rewrite <- !app_assoc.
Qed.

(** C8: whatever the input text, the count and the style, the prompt
    built for mode "questions" contains the question-bank sentence,
    the one for "short_notes" the short-notes sentence, and the one for
    "auto" the auto-detection sentence, each letter for letter. *)
Theorem prompt_contains_mode_sentence :
  forall userText count style,
    occurs_in
      (js "The input is a QUESTION BANK / practice set. Create flashcards where the FRONT is the question and the BACK is the correct answer/explanation.")
      (buildFlashcardPrompt userText count style (js "questions")) /\
    occurs_in
      (js "The input is SHORT NOTES / summaries. Create flashcards where the FRONT is a short prompt (term, heading, key idea) and the BACK is the explanation/steps/formula.")
      (buildFlashcardPrompt userText count style (js "short_notes")) /\
    occurs_in
      (js "Auto-detect: if the input contains many questions (" ++ [dquote] ++ js "?"
       ++ [dquote] ++ js ", Q:, MCQ, etc.) treat it as a question bank; otherwise treat it as notes.")
      (buildFlashcardPrompt userText count style (js "auto")).
Proof.
  intros userText count style. unfold buildFlashcardPrompt.
  change (Str.eqb (js "questions") (js "questions")) with true.
  change (Str.eqb (js "short_notes") (js "questions")) with false.
  change (Str.eqb (js "short_notes") (js "short_notes")) with true.
  change (Str.eqb (js "auto") (js "questions")) with false.
  change (Str.eqb (js "auto") (js "short_notes")) with false.
  cbv iota.
  split; [|split].
  - apply (prompt_keeps_rules userText count style questions_rules).
  - apply (prompt_keeps_rules userText count style short_notes_rules).
  - apply (prompt_keeps_rules userText count style auto_rules).
Qed.

Lemma prompt_falls_through userText count style mode :
  mode <> js "questions" -> mode <> js "short_notes" ->
  buildFlashcardPrompt userText count style mode
  = buildFlashcardPrompt userText count style (js "auto").
Proof.
  intros H1 H2. unfold buildFlashcardPrompt, Str.eqb.
  rewrite !bool_decide_eq_false_2 by done.
  change (bool_decide (js "auto" = js "questions")) with false.
  change (bool_decide (js "auto" = js "short_notes")) with false.
  done.
Qed.

Lemma prompt_auto_sentence userText count style :
  occurs_in
    (js "Auto-detect: if the input contains many questions (" ++ [dquote] ++ js "?"
     ++ [dquote] ++ js ", Q:, MCQ, etc.) treat it as a question bank; otherwise treat it as notes.")
    (buildFlashcardPrompt userText count style (js "auto")).
Proof.
  unfold buildFlashcardPrompt.
  change (Str.eqb (js "auto") (js "questions")) with false.
  change (Str.eqb (js "auto") (js "short_notes")) with false.
  cbv iota.
  apply (prompt_keeps_rules userText count style auto_rules).
Qed.

Lemma prompt_untrimmed_head rest :
  Str.trimStart (prompt_head ++ rest) = prompt_head ++ rest.
Proof. reflexivity. Qed.

Lemma prompt_trims_input :
  forall userText count style mode,
    (Str.trimEnd userText <> [] ->
     buildFlashcardPrompt userText count style mode
     = prompt_head ++ Num.toString count ++ prompt_task
       ++ (if Str.eqb mode (js "questions") then questions_rules
           else if Str.eqb mode (js "short_notes") then short_notes_rules
           else auto_rules)
       ++ prompt_schema ++ style ++ prompt_input ++ Str.trimEnd userText)
    /\ (Str.trimEnd userText = [] ->
        exists p, buildFlashcardPrompt userText count style mode = p ++ js "INPUT:"
                  /\ buildFlashcardPrompt userText count style mode
                     = buildFlashcardPrompt [] count style mode).
Proof.
  intros userText count style mode. unfold buildFlashcardPrompt, Str.trim.
  set (rules := if Str.eqb mode (js "questions") then questions_rules
                else if Str.eqb mode (js "short_notes") then short_notes_rules
                else auto_rules).
  rewrite !prompt_untrimmed_head.
  set (a := prompt_head ++ Num.toString count ++ prompt_task ++ rules
            ++ prompt_schema ++ style).
  assert (E: forall t,
             prompt_head ++ Num.toString count ++ prompt_task ++ rules
             ++ prompt_schema ++ style ++ prompt_input ++ t
             = a ++ prompt_input ++ t)
    by (intros t; unfold a; by rewrite <- !app_assoc).
  rewrite !E. split.
  - intros Ht. rewrite !app_assoc. by apply trimEnd_app_keep.
  - intros Ht.
    assert (Hin: forall t, Str.trimEnd t = [] ->
                 Str.trimEnd (a ++ prompt_input ++ t) = a ++ removelast prompt_input).
    { intros t Hb. rewrite (trimEnd_app_keep a (prompt_input ++ t));
        rewrite (trimEnd_blank_app prompt_input t Hb); [reflexivity | by vm_compute]. }
    rewrite !Hin by done.
    exists (a ++ take (length (removelast prompt_input) - 6) (removelast prompt_input)).
    split; [|done]. rewrite <- app_assoc. f_equal.
Qed.

(** X5: the final [trim] of the prompt only touches the end of the input
    text: an input that ends, before its trailing white space, with a
    character that is not white space is written after the line INPUT:
    without that trailing white space and with everything else as it is,
    after the template; a blank input leaves the prompt ending with
    INPUT: and equal to the prompt of the empty input. *)
Theorem prompt_ends_with_input :
  forall t w count style mode,
    Forall (fun c => Str.is_ws c = true) w ->
    (t <> [] -> (forall c, last t = Some c -> Str.is_ws c = false) ->
     buildFlashcardPrompt (t ++ w) count style mode
     = prompt_head ++ Num.toString count ++ prompt_task
       ++ (if Str.eqb mode (js "questions") then questions_rules
           else if Str.eqb mode (js "short_notes") then short_notes_rules
           else auto_rules)
       ++ prompt_schema ++ style ++ prompt_input ++ t)
    /\ (exists p, buildFlashcardPrompt w count style mode = p ++ js "INPUT:"
                  /\ buildFlashcardPrompt w count style mode
                     = buildFlashcardPrompt [] count style mode).
Proof.
  intros t w count style mode Hw. split.
  - intros Hne Hlast.
    assert (Str.trimEnd (t ++ w) = t) as Ht.
    { rewrite trimEnd_blank_app by (by apply trimEnd_blank). by apply trimEnd_keeps. }
    destruct (prompt_trims_input (t ++ w) count style mode) as [H _].
    rewrite Ht in H. by apply H.
  - destruct (prompt_trims_input w count style mode) as [_ H].
    apply H. by apply trimEnd_blank.
Qed.

Lemma prompt_ends_with_input_witness :
  buildFlashcardPrompt (js "cells divide" ++ js "  ") (Num.of_Z 3) (js "exam")
    (js "questions")
  = prompt_head ++ Num.toString (Num.of_Z 3) ++ prompt_task ++ questions_rules
    ++ prompt_schema ++ js "exam" ++ prompt_input ++ js "cells divide".
Proof.
  apply (proj1 (prompt_ends_with_input (js "cells divide") (js "  ") (Num.of_Z 3)
                  (js "exam") (js "questions") ltac:(by repeat constructor))).
  - vm_compute. discriminate.
  - intros c [= <-]. reflexivity.
Defined.

(** X6: a whole count from 3 to 50 is written into the prompt as its
    decimal numeral. *)
Theorem prompt_writes_count_in_decimal :
  forall n userText style mode,
    3 <= n <= 50 ->
    occurs_in
      (js "- Create "
       ++ (if n <? 10 then [Z.to_N (48 + n)]
           else [Z.to_N (48 + n / 10); Z.to_N (48 + n mod 10)])
       ++ js " high-quality flashcards.")
      (buildFlashcardPrompt userText (Num.of_Z n) style mode).
Proof.
  intros n userText style mode Hn.
  assert (Hs: Num.toString (Num.of_Z n)
              = if n <? 10 then [Z.to_N (48 + n)]
                else [Z.to_N (48 + n / 10); Z.to_N (48 + n mod 10)]).
  { assert (exists k : nat, n = 3 + Z.of_nat k /\ (k < 48)%nat) as (k & -> & Hk)
      by (exists (Z.to_nat (n - 3)); lia).
    do 48 (destruct k as [|k]; [vm_compute; reflexivity|]). lia. }
  rewrite <- Hs. clear Hs Hn.
  unfold buildFlashcardPrompt, Str.trim. rewrite prompt_untrimmed_head.
  set (rules := if Str.eqb mode (js "questions") then questions_rules
                else if Str.eqb mode (js "short_notes") then short_notes_rules
                else auto_rules).
  set (B := rules ++ prompt_schema ++ style ++ prompt_input ++ userText).
  set (H0 := take (length prompt_head - 9) prompt_head).
  set (T0 := drop 25 prompt_task).
  set (S := js "- Create " ++ Num.toString (Num.of_Z n) ++ js " high-quality flashcards.").
  assert (Eh: prompt_head = H0 ++ js "- Create ") by reflexivity.
  assert (Et: prompt_task = js " high-quality flashcards." ++ T0) by reflexivity.
  assert (HB: Str.trimEnd (T0 ++ B) <> []).
  { change T0 with ([nl] ++ ch "-" :: drop 27 prompt_task).
    rewrite <- app_assoc. apply trimEnd_nonempty. reflexivity. }
  exists H0, (Str.trimEnd (T0 ++ B)).
  rewrite Eh, Et.
  replace ((H0 ++ js "- Create ") ++ Num.toString (Num.of_Z n)
           ++ (js " high-quality flashcards." ++ T0) ++ B)
    with ((H0 ++ S) ++ T0 ++ B) by (unfold S; by rewrite <- !app_assoc).
  rewrite trimEnd_app_keep by exact HB. by rewrite <- app_assoc.
Qed.

Lemma prompt_writes_count_in_decimal_witness :
  occurs_in (js "- Create 12 high-quality flashcards.")
    (buildFlashcardPrompt (js "cells") (Num.of_Z 12) (js "balanced") (js "auto")).
Proof.
  apply (prompt_writes_count_in_decimal 12 (js "cells") (js "balanced") (js "auto")). lia.
Defined.

(** ** Numbers: comparison and the clamp *)

Lemma ltb_leb x y : Num.ltb x y = true -> Num.leb x y = true.
Proof.
  unfold Num.ltb, Num.leb, SFltb, SFleb. by destruct (SFcompare x y) as [[]|].
Qed.

Lemma SFcompare_antisym x y :
  SFcompare y x = CompOpp <$> SFcompare x y.
Proof.
  destruct x as [[]|[]| |[] mx ex], y as [[]|[]| |[] my ey]; simpl; try reflexivity.
  all: rewrite (Z.compare_antisym ey ex); destruct (ey ?= ex); simpl; try reflexivity.
  all: by rewrite (Pos.compare_cont_antisym mx my Eq).
Qed.

Lemma leb_not_gtb x y : Num.leb x y = true -> Num.gtb x y = false.
Proof.
  unfold Num.leb, Num.gtb, SFleb, SFltb. rewrite (SFcompare_antisym x y).
  by destruct (SFcompare x y) as [[]|].
Qed.

Lemma clamp_count_cases requested :
  Num.is_nan requested = false ->
  clamp_count requested =
  if Num.ltb requested (Num.of_Z 50)
  then (if Num.gtb requested (Num.of_Z 3) then requested else Num.of_Z 3)
  else Num.of_Z 50.
Proof.
  intros Hn. unfold clamp_count, Num.Math_max, Num.Math_min.
  change (Num.min_loop Num.Infinity [Num.of_Z 50; requested])
    with (Num.min_loop (Num.of_Z 50) [requested]).
  cbn [Num.min_loop]. rewrite Hn.
  change (Num.is_pos_zero (Num.of_Z 50)) with false. rewrite andb_false_r.
  change (Num.max_loop (S754_infinity true)
            [Num.of_Z 3; if Num.ltb requested (Num.of_Z 50) then requested else Num.of_Z 50])
    with (Num.max_loop (Num.of_Z 3)
            [if Num.ltb requested (Num.of_Z 50) then requested else Num.of_Z 50]).
  cbn [Num.max_loop].
  change (Num.is_neg_zero (Num.of_Z 3)) with false. rewrite andb_false_r.
  destruct (Num.ltb requested (Num.of_Z 50)).
  - by rewrite Hn.
  - reflexivity.
Qed.

Lemma clamp_count_in_range requested :
  Num.is_nan requested = false ->
  Num.leb (Num.of_Z 3) (clamp_count requested) = true /\
  Num.leb (clamp_count requested) (Num.of_Z 50) = true.
Proof.
  intros Hn. rewrite (clamp_count_cases _ Hn).
  destruct (Num.ltb requested (Num.of_Z 50)) eqn:E50; [|by split].
  destruct (Num.gtb requested (Num.of_Z 3)) eqn:E3; [|by split].
  split; by apply ltb_leb.
Qed.

(** C2, at its failing input: the body with notes "n" and the string
    "abc" for count is read without error, and the count the handler
    then uses is NaN, which is neither at least 3 nor at most 50. *)
Theorem count_not_a_number_escapes_clamp :
  read_fields (req_json (sample_request None "{'notes':'n','count':'abc'}"))
  = Ok {| f_notes := js "n"; f_count := Num.NaN;
          f_style := js "balanced"; f_mode := js "auto" |}
  /\ Num.leb (Num.of_Z 3) Num.NaN = false
  /\ Num.leb Num.NaN (Num.of_Z 50) = false.
Proof. vm_compute. repeat split. Qed.

(** X1: the clamp as the handler applies it: whenever the requested
    count of a body converts to a number other than NaN, the count read
    from the body is at least 3 and at most 50. A missing or null count
    reads as 12; -7, 0 and true as 3; 3.5 as 3.5; the string "7" as 7;
    1000 as 50. *)
Theorem count_in_range_when_numeric :
  (forall body f requested,
     Val.ToNumber (Val.nullish (Val.get body (js "count")) (VNum (Num.of_Z 12)))
     = Ok requested ->
     Num.is_nan requested = false ->
     read_fields body = Ok f ->
     Num.leb (Num.of_Z 3) (f_count f) = true /\
     Num.leb (f_count f) (Num.of_Z 50) = true)
  /\ read_fields (req_json (sample_request None "{'notes':'n'}"))
     = Ok {| f_notes := js "n"; f_count := Num.of_Z 12;
             f_style := js "balanced"; f_mode := js "auto" |}
  /\ read_fields (req_json (sample_request None "{'notes':'n','count':null}"))
     = Ok {| f_notes := js "n"; f_count := Num.of_Z 12;
             f_style := js "balanced"; f_mode := js "auto" |}
  /\ read_fields (req_json (sample_request None "{'notes':'n','count':-7}"))
     = Ok {| f_notes := js "n"; f_count := Num.of_Z 3;
             f_style := js "balanced"; f_mode := js "auto" |}
  /\ read_fields (req_json (sample_request None "{'notes':'n','count':0}"))
     = Ok {| f_notes := js "n"; f_count := Num.of_Z 3;
             f_style := js "balanced"; f_mode := js "auto" |}
  /\ read_fields (req_json (sample_request None "{'notes':'n','count':true}"))
     = Ok {| f_notes := js "n"; f_count := Num.of_Z 3;
             f_style := js "balanced"; f_mode := js "auto" |}
  /\ read_fields (req_json (sample_request None "{'notes':'n','count':3.5}"))
     = Ok {| f_notes := js "n"; f_count := Num.of_decimal false 35 (-1);
             f_style := js "balanced"; f_mode := js "auto" |}
  /\ read_fields (req_json (sample_request None "{'notes':'n','count':'7'}"))
     = Ok {| f_notes := js "n"; f_count := Num.of_Z 7;
             f_style := js "balanced"; f_mode := js "auto" |}
  /\ read_fields (req_json (sample_request None "{'notes':'n','count':1000}"))
     = Ok {| f_notes := js "n"; f_count := Num.of_Z 50;
             f_style := js "balanced"; f_mode := js "auto" |}.
Proof.
  split; [|by vm_compute].
  intros body f requested Hr Hn. unfold read_fields. rewrite Hr.
  destruct (Val.ToString (Val.nullish (Val.get body (js "notes")) (VStr [])));
    [|done].
  destruct (Val.ToString (Val.nullish (Val.get body (js "style")) (VStr (js "balanced"))));
    [|done].
  destruct (Val.ToString (Val.nullish (Val.get body (js "mode")) (VStr (js "auto"))));
    [|done].
  intros [= <-]. cbn [f_count]. by apply clamp_count_in_range.
Qed.

Lemma count_in_range_when_numeric_witness :
  Num.leb (Num.of_Z 3)
    (f_count {| f_notes := js "n"; f_count := Num.of_Z 50;
                f_style := js "balanced"; f_mode := js "auto" |}) = true /\
  Num.leb
    (f_count {| f_notes := js "n"; f_count := Num.of_Z 50;
                f_style := js "balanced"; f_mode := js "auto" |}) (Num.of_Z 50) = true.
Proof.
  apply (proj1 count_in_range_when_numeric
           (req_json (sample_request None "{'notes':'n','count':1000}"))
           {| f_notes := js "n"; f_count := Num.of_Z 50;
              f_style := js "balanced"; f_mode := js "auto" |}
           (Num.of_Z 1000)).
  - vm_compute; reflexivity.
  - reflexivity.
  - vm_compute; reflexivity.
Defined.

(** ** Cleaning *)

Lemma slice0_take {A} (items : list A) count n :
  Num.ToIntegerOrInfinity count = Num.Fin n -> 0 <= n ->
  Val.slice0 items count = take (Z.to_nat n) items.
Proof.
  intros Hc Hn. unfold Val.slice0. rewrite Hc.
  destruct (Z.ltb_spec n 0); [lia|].
  destruct (Z.le_ge_cases n (Z.of_nat (length items))).
  - by rewrite Z.min_l.
  - rewrite Z.min_r by done. rewrite Nat2Z.id.
    rewrite !take_ge; [done | lia | lia].
Qed.

Lemma mapM_ext {A B} (f g : A -> result B) l :
  (forall x, f x = g x) -> mapM f l = mapM g l.
Proof. intros H. induction l as [|x l IH]; simpl; [done|]. by rewrite H, IH. Qed.

Lemma clean_card_coerced c : clean_card c = coerced c.
Proof.
  unfold clean_card, coerced, field_text, tag_texts.
  by destruct (Val.get c (js "question")), (Val.get c (js "answer")).
Qed.

Lemma keep_survives c : keep c = survives c.
Proof. unfold keep, survives. by destruct (question c), (answer c). Qed.

Lemma clean_as_specified flashcards count n :
  Num.ToIntegerOrInfinity count = Num.Fin n -> 0 <= n ->
  clean flashcards count = cleaned_as_specified flashcards (Z.to_nat n).
Proof.
  intros Hc Hn. unfold clean, cleaned_as_specified.
  rewrite (mapM_ext _ _ _ clean_card_coerced).
  destruct (mapM coerced flashcards) as [cards|]; [|done]. simpl.
  rewrite (slice0_take _ _ _ Hc Hn). do 2 f_equal.
  apply List.filter_ext. intros c. apply keep_survives.
Qed.

Lemma five_cards : forall {A} (items : list A), Val.slice0 items (Num.of_Z 5) = take 5 items.
Proof.
  intros A items. apply (slice0_take items (Num.of_Z 5) 5); [vm_compute; reflexivity | lia].
Qed.

Lemma clean_one c card :
  clean_card c = Ok card ->
  clean [c] (Num.of_Z 5) = Ok (if keep card then [card] else []).
Proof.
  intros Hc. unfold clean. cbn [mapM]. rewrite Hc.
  cbn [mbind result_bind rbind List.filter]. rewrite five_cards.
  by destruct (keep card).
Qed.

Lemma clean_texts q a :
  clean [entry_of (VStr q) (VStr a)] (Num.of_Z 5)
  = Ok (match Str.trim q, Str.trim a with
        | _ :: _, _ :: _ => [{| question := Str.trim q; answer := Str.trim a; tags := [] |}]
        | _, _ => []
        end).
Proof.
  rewrite (clean_one _ {| question := Str.trim q; answer := Str.trim a; tags := [] |})
    by reflexivity.
  unfold keep. cbn [question answer]. by destruct (Str.trim q), (Str.trim a).
Qed.

Lemma clean_drops_incomplete t :
  clean [VObj [(js "answer", VStr t)]] (Num.of_Z 5) = Ok [] /\
  clean [VObj [(js "question", VStr t)]] (Num.of_Z 5) = Ok [] /\
  clean [entry_of VNull (VStr t)] (Num.of_Z 5) = Ok [] /\
  clean [entry_of (VStr t) VNull] (Num.of_Z 5) = Ok [] /\
  clean [VStr t] (Num.of_Z 5) = Ok [] /\
  clean [VNull] (Num.of_Z 5) = Ok [].
Proof.
  assert (Hq: forall c a, clean_card c = Ok {| question := []; answer := a; tags := [] |} ->
                          clean [c] (Num.of_Z 5) = Ok []).
  { intros c a Hc. by rewrite (clean_one _ _ Hc). }
  assert (Ha: forall c q, clean_card c = Ok {| question := q; answer := []; tags := [] |} ->
                          clean [c] (Num.of_Z 5) = Ok []).
  { intros c q Hc. rewrite (clean_one _ _ Hc). unfold keep. cbn [question answer nonempty].
    by rewrite andb_false_r. }
  split; [|split; [|split; [|split; [|split]]]].
  - by apply (Hq _ (Str.trim t)).
  - by apply (Ha _ (Str.trim t)).
  - by apply (Hq _ (Str.trim t)).
  - by apply (Ha _ (Str.trim t)).
  - by apply (Hq _ []).
  - by apply (Hq _ []).
Qed.

(** C3: the cleaning step is the one of the specification. For every
    list of entries and every count with integer part n, its result is
    that of coercing each entry (the text of question and of answer,
    empty when missing or null, without the white space at its ends;
    the tags as strings, at most six, none when tags is not an array),
    dropping the cards with an empty question or answer and keeping
    the first n. Trimming removes exactly the white space at the two
    ends. An entry of two texts is kept with both trimmed when neither
    is blank and dropped otherwise; booleans read as true and false;
    an entry without question or answer, with a null one, or that is
    not an object is dropped. The examples: numbers and objects as
    texts, white space of several kinds and blank texts, seven tags of
    mixed kinds, tags that are not an array, a field that cannot be
    converted, and the two examples of the specification. *)
Theorem cleaning_step :
  (forall flashcards count n,
     Num.ToIntegerOrInfinity count = Num.Fin n -> 0 <= n ->
     clean flashcards count = cleaned_as_specified flashcards (Z.to_nat n))
  /\ (forall s t, trimmed_of s t <-> Str.trim s = t)
  /\ (forall q a,
        clean [entry_of (VStr q) (VStr a)] (Num.of_Z 5)
        = Ok (match Str.trim q, Str.trim a with
              | _ :: _, _ :: _ =>
                  [{| question := Str.trim q; answer := Str.trim a; tags := [] |}]
              | _, _ => []
              end))
  /\ (forall b1 b2 : bool,
        clean [entry_of (VBool b1) (VBool b2)] (Num.of_Z 5)
        = Ok [{| question := if b1 then js "true" else js "false";
                 answer := if b2 then js "true" else js "false"; tags := [] |}])
  /\ (forall t,
        clean [VObj [(js "answer", VStr t)]] (Num.of_Z 5) = Ok [] /\
        clean [VObj [(js "question", VStr t)]] (Num.of_Z 5) = Ok [] /\
        clean [entry_of VNull (VStr t)] (Num.of_Z 5) = Ok [] /\
        clean [entry_of (VStr t) VNull] (Num.of_Z 5) = Ok [] /\
        clean [VStr t] (Num.of_Z 5) = Ok [] /\
        clean [VNull] (Num.of_Z 5) = Ok [])
  /\ clean [entry_of (VNum (Num.of_Z 5)) (VNum (Num.of_decimal false 15 (-1)));
            entry_of (VObj []) (VArr [VNum (Num.of_Z 1); VStr (js "b")])] (Num.of_Z 5)
     = Ok [ {| question := js "5"; answer := js "1.5"; tags := [] |};
            {| question := js "[object Object]"; answer := js "1,b"; tags := [] |} ]
  /\ clean spaced_entries (Num.of_Z 5)
     = Ok [ {| question := js "Q1"; answer := js "A1"; tags := [] |};
            {| question := js "Q4"; answer := js "two words"; tags := [] |};
            {| question := js "Q5"; answer := js "A5"; tags := [] |} ]
  /\ clean [tagged_entry] (Num.of_Z 5)
     = Ok [ {| question := js "Q"; answer := js "A";
               tags := [js "t1"; js "2"; js "true"; js "null"; js "t5"; js "t6"] |} ]
  /\ clean [VObj [ (js "question", VStr (js "Q")); (js "answer", VStr (js "A"));
                   (js "tags", VStr (js "a,b")) ]] (Num.of_Z 5)
     = Ok [ {| question := js "Q"; answer := js "A"; tags := [] |} ]
  /\ clean [entry_of (VObj [(js "toString", VNull)]) (VStr (js "A"))] (Num.of_Z 5)
     = Throw (TypeError (js "Cannot convert object to primitive value"))
  /\ clean [entry "Q1" EmptyString; entry "Q2" "A2"] (Num.of_Z 5) = Ok [card "Q2" "A2"]
  /\ clean ten_entries (Num.of_Z 3) = Ok [card "Q1" "A1"; card "Q2" "A2"; card "Q3" "A3"].
Proof.
  split; [exact clean_as_specified|].
  split; [exact trim_spec|].
  split; [exact clean_texts|].
  split; [intros [] []; vm_compute; reflexivity|].
  split; [exact clean_drops_incomplete|].
  by vm_compute.
Qed.

Lemma cleaning_step_witness :
  clean spaced_entries (Num.of_decimal false 15 (-1))
  = cleaned_as_specified spaced_entries (Z.to_nat 1).
Proof.
  apply (proj1 cleaning_step spaced_entries (Num.of_decimal false 15 (-1)) 1).
  - vm_compute; reflexivity.
  - lia.
Defined.

(** ** Numbers: rounding gives binary64 values *)

Section Rounding.
Variables prec emax : Z.
Hypothesis prec_pos : 0 < prec.

Lemma digits2_pos_bound m : Zpos m < 2 ^ Zpos (digits2_pos m).
Proof.
  induction m as [m IH|m IH|]; simpl digits2_pos;
    rewrite ?Pos2Z.inj_succ, ?Z.pow_succ_r; lia.
Qed.

Lemma shr_1_digits mrs :
  Zdigits2 (shr_m (shr_1 mrs)) = Z.max 0 (Zdigits2 (shr_m mrs) - 1).
Proof.
  destruct mrs as [[|[p|p|]|[p|p|]] r s]; simpl; rewrite ?Pos2Z.inj_succ; lia.
Qed.

Lemma shr_digits p : forall mrs,
  Zdigits2 (shr_m (SpecFloat.iter_pos shr_1 p mrs)) = Z.max 0 (Zdigits2 (shr_m mrs) - Zpos p).
Proof.
  induction p as [p IH|p IH|]; intros mrs; simpl SpecFloat.iter_pos.
  - rewrite !IH, shr_1_digits. lia.
  - rewrite !IH. lia.
  - apply shr_1_digits.
Qed.

Lemma Zdigits2_nonneg m : 0 <= Zdigits2 m.
Proof. destruct m; simpl; lia. Qed.

Lemma shr_fexp_digits m e l :
  Zdigits2 (shr_m (fst (shr_fexp prec emax m e l))) <= prec.
Proof.
  unfold shr_fexp, shr.
  assert (Zdigits2 m - prec <= fexp prec emax (Zdigits2 m + e) - e)
    by (unfold fexp; lia).
  assert (shr_m (shr_record_of_loc m l) = m) as Hm by (by destruct l as [|[]]).
  pose proof (Zdigits2_nonneg m).
  destruct (fexp prec emax (Zdigits2 m + e) - e) as [|p|p] eqn:E; cbn [fst];
    rewrite ?shr_digits, ?Hm; lia.
Qed.

Lemma binary_round_aux_digits sx mx ex lx s m e :
  binary_round_aux prec emax sx mx ex lx = S754_finite s m e ->
  Zpos (digits2_pos m) <= prec.
Proof.
  unfold binary_round_aux.
  destruct (shr_fexp prec emax mx ex lx) as [mrs' e'].
  pose proof (shr_fexp_digits
                (round_nearest_even (shr_m mrs') (loc_of_shr_record mrs')) e' loc_Exact)
    as Hd.
  destruct (shr_fexp prec emax _ e' loc_Exact) as [mrs'' e'']. cbn [fst] in Hd.
  destruct (shr_m mrs'') as [|p|p]; [done | | done].
  destruct (e'' <=? emax - prec); [|done]. intros [= _ <- _]. exact Hd.
Qed.

Lemma binary_normalize_digits z e0 sz s m e :
  binary_normalize prec emax z e0 sz = S754_finite s m e ->
  Zpos (digits2_pos m) <= prec.
Proof.
  unfold binary_normalize, binary_round.
  destruct z as [|p|p]; [done | |];
    destruct (shl_align _ _ _) as [mz ez]; apply binary_round_aux_digits.
Qed.

End Rounding.

Lemma of_Z_fits z : fits (Num.of_Z z).
Proof.
  unfold fits, Num.of_Z.
  destruct (binary_normalize _ _ _ _ _) eqn:E; try done.
  by eapply (binary_normalize_digits Num.prec Num.emax).
Qed.

Lemma of_decimal_fits neg m e : fits (Num.of_decimal neg m e).
Proof.
  unfold fits, Num.of_decimal.
  destruct (m <=? 0); [done|].
  destruct (0 <=? e).
  - destruct (binary_normalize _ _ _ _ _) eqn:E; try done.
    by eapply (binary_normalize_digits Num.prec Num.emax).
  - destruct (SFdiv_core_binary _ _ _ _ _ _) as [[q e'] l].
    destruct (binary_round_aux _ _ _ _ _ _) eqn:E; try done.
    by eapply (binary_round_aux_digits Num.prec Num.emax).
Qed.

Lemma StringToNumber_fits s : fits (Num.StringToNumber s).
Proof.
  unfold Num.StringToNumber.
  destruct (Str.trim s) as [|c t]; [done|].
  destruct (Num.radix_prefix (c :: t)) as [[radix [|d ds]]|]; [done | |].
  - destruct (Num.radix_value _ _ _); [apply of_Z_fits | done].
  - unfold Num.signed_decimal. destruct (Num.sign_opt (c :: t)) as [neg u].
    destruct (bool_decide _); [done|].
    unfold Num.unsigned_decimal.
    destruct (Num.span_digits u) as [ip r1].
    destruct (Num.fraction_opt r1) as [fp r2].
    destruct (ip ++ fp); [done|].
    destruct (Num.exponent_opt r2) as [e [|??]]; [apply of_decimal_fits | done].
Qed.

Lemma ToNumber_fits v x :
  num_ok v -> Val.ToNumber v = Ok x -> fits x.
Proof.
  destruct v as [| |[]|n|s|items|fields]; simpl; intros Hv; try (by intros [= <-]).
  - intros [= <-]. apply StringToNumber_fits.
  - match goal with |- rbind ?j _ = _ -> _ => destruct j as [j'|] end; [|done].
    simpl. intros [= <-]. apply StringToNumber_fits.
  - destruct (Val.lookup _ fields); [done|]. by intros [= <-].
Qed.

(** ** JSON.parse gives binary64 values *)

Lemma number_token_fits s n r : JSON.number_token s = Some (n, r) -> fits n.
Proof.
  unfold JSON.number_token. intros H.
  repeat case_match; simplify_eq; apply of_decimal_fits.
Qed.

Lemma define_num_ok k v acc :
  num_ok v -> Forall (fun kv => num_ok kv.2) acc ->
  Forall (fun kv => num_ok kv.2) (Val.define k v acc).
Proof.
  intros Hv. induction 1 as [|[k' v'] acc Hkv Hacc IH]; simpl.
  - by repeat constructor.
  - destruct (Str.eqb k' k); by constructor.
Qed.

Lemma members_num_ok (pv : jsstring -> option (value * jsstring)) :
  (forall s v r, pv s = Some (v, r) -> num_ok v) ->
  forall n acc s fs rest,
    Forall (fun kv => num_ok kv.2) acc ->
    JSON.members pv n acc s = Some (fs, rest) ->
    Forall (fun kv => num_ok kv.2) fs.
Proof.
  intros Hpv. induction n as [|n IH]; intros acc s fs rest Hacc; simpl; [done|].
  intros H. repeat case_match; simplify_eq.
  - eapply IH; [|done]. apply define_num_ok; [|done]. by eapply Hpv.
  - apply define_num_ok; [|done]. by eapply Hpv.
Qed.

Lemma parse_value_num_ok fuel : forall s v r,
  JSON.parse_value fuel s = Some (v, r) ->
  num_ok v /\ forall fs, v = VObj fs -> Forall (fun kv => num_ok kv.2) fs.
Proof.
  induction fuel as [|fuel IH]; intros s v r; simpl; [done|].
  intros H. repeat case_match; simplify_eq; try (split; [done | by intros ? [=]]).
  - split; [done|]. intros ? [= <-]. constructor.
  - split; [done|]. intros ? [= <-].
    eapply (members_num_ok (JSON.parse_value fuel)); [|constructor|done].
    intros s' v' r' Hp. by apply (IH _ _ _ Hp).
  - split; [|by intros ? [=]]. by eapply number_token_fits.
Qed.

Lemma lookup_num_ok name fs v :
  Forall (fun kv => num_ok kv.2) fs -> Val.lookup name fs = Some v -> num_ok v.
Proof.
  induction 1 as [|[k' v'] fs Hkv _ IH]; simpl; [done|].
  destruct (Str.eqb k' name); [by intros [= <-] | done].
Qed.

Lemma req_json_num_ok req name : num_ok (Val.get (req_json req) name).
Proof.
  unfold req_json, JSON.parse.
  destruct (JSON.parse_value _ _) as [[v rest]|] eqn:E; [|done].
  destruct (JSON.skip_ws rest); [|done].
  apply parse_value_num_ok in E as [_ Hobj].
  destruct v as [| | | | | |fs]; try done. simpl.
  destruct (Val.lookup name fs) as [x|] eqn:El; [|done]. simpl.
  eapply lookup_num_ok; [|done]. by apply Hobj.
Qed.

(** ** The count as a number of cards *)

Lemma clamp_count_integer requested :
  fits requested ->
  exists n, Num.ToIntegerOrInfinity (clamp_count requested) = Num.Fin n /\ 0 <= n <= 50.
Proof.
  intros Hfit.
  destruct (Num.is_nan requested) eqn:Hnan.
  { destruct requested; try done. exists 0. by vm_compute. }
  rewrite (clamp_count_cases _ Hnan).
  destruct (Num.ltb requested (Num.of_Z 50)) eqn:E50;
    [|exists 50; split; [by vm_compute | lia]].
  destruct (Num.gtb requested (Num.of_Z 3)) eqn:E3;
    [|exists 3; split; [by vm_compute | lia]].
  assert (H50: Num.of_Z 50 = S754_finite false 7036874417766400 (-47))
    by (by vm_compute).
  assert (H3: Num.of_Z 3 = S754_finite false 6755399441055744 (-51))
    by (by vm_compute).
  rewrite H50 in E50. rewrite H3 in E3.
  destruct requested as [[]|[]| |s m e]; try done.
  destruct s; [done|].
  unfold Num.ltb, SFltb, SFcompare in E50.
  unfold Num.ToIntegerOrInfinity.
  unfold fits in Hfit. change Num.prec with 53 in Hfit.
  pose proof (digits2_pos_bound m) as Hm.
  assert (Z.pos m < 2 ^ 53) as Hm53.
  { eapply Z.lt_le_trans; [exact Hm|]. apply Z.pow_le_mono_r; lia. }
  destruct (Z.compare_spec e (-47)) as [-> | He | He]; [| |done].
  - exists (Z.shiftr (Z.pos m) 47). split; [done|].
    rewrite Z.shiftr_div_pow2 by lia.
    assert (Z.pos m < 7036874417766400).
    { destruct (PosDef.Pos.compare_cont Eq m 7036874417766400) eqn:Ec;
        [discriminate E50 | exact Ec | discriminate E50]. }
    split; [apply Z.div_pos; lia|].
    assert (Z.pos m / 2 ^ 47 < 50); [|lia].
    apply Z.div_lt_upper_bound; lia.
  - destruct (Z.leb_spec 0 e); [lia|].
    exists (Z.shiftr (Z.pos m) (- e)). split; [done|].
    rewrite Z.shiftr_div_pow2 by lia.
    split; [apply Z.div_pos; [lia | apply Z.pow_pos_nonneg; lia]|].
    assert (Z.pos m / 2 ^ (- e) <= Z.pos m / 2 ^ 48).
    { apply Z.div_le_compat_l; [lia|]. split; [lia|].
      apply Z.pow_le_mono_r; lia. }
    assert (Z.pos m / 2 ^ 48 < 32) by (apply Z.div_lt_upper_bound; lia).
    lia.
Qed.

Lemma read_fields_count_integer req f :
  read_fields (req_json req) = Ok f ->
  exists n, Num.ToIntegerOrInfinity (f_count f) = Num.Fin n /\ 0 <= n <= 50.
Proof.
  unfold read_fields.
  destruct (Val.ToString (Val.nullish (Val.get (req_json req) (js "notes")) _));
    [|done]. simpl.
  destruct (Val.ToNumber (Val.nullish (Val.get (req_json req) (js "count")) _))
    as [requested|] eqn:En; [|done]. simpl.
  destruct (Val.ToString (Val.nullish (Val.get (req_json req) (js "style")) _));
    [|done]. simpl.
  destruct (Val.ToString (Val.nullish (Val.get (req_json req) (js "mode")) _));
    [|done]. simpl.
  intros [= <-]. simpl. apply clamp_count_integer.
  eapply ToNumber_fits; [|exact En].
  pose proof (req_json_num_ok req (js "count")) as Hok.
  destruct (Val.get (req_json req) (js "count")); try done; simpl; apply of_Z_fits.
Qed.

(** ** Generation Handler *)

(** *** Running the monad *)

Lemma run_bind {A B} (m : M A) (k : A -> M B) st :
  (m ≫= k) st =
  match m st with
  | (Normal a, st') => k a st'
  | (Returned r, st') => (Returned r, st')
  | (Raised e, st') => (Raised e, st')
  end.
Proof. reflexivity. Qed.

Lemma settle_response r1 r2 : fst r1 = fst r2 -> fst (settle r1) = fst (settle r2).
Proof. destruct r1 as [o1 s1], r2 as [o2 s2]. simpl. intros ->. by destruct o2. Qed.

Lemma settle_state r : snd (settle r) = snd r.
Proof. by destruct r as [[?|?|?] s]. Qed.

Section Runs.
Context (P : Event -> Prop) (R : Store -> Store -> Prop).
Context `{!Reflexive R} `{!Transitive R}.

Lemma runs_ret {A} (a : A) : runs P R (mret a).
Proof. intros st. split; [done|]. exists []. by rewrite app_nil_r. Qed.

Lemma runs_lift {A} (r : result A) : runs P R (lift r).
Proof.
  intros st. destruct r; (split; [done|]); exists []; by rewrite app_nil_r.
Qed.

Lemma runs_respond {A} v s : runs P R (@respond A v s).
Proof.
  intros st. unfold respond.
  destruct (NextResponse_json v s); (split; [done|]); exists []; by rewrite app_nil_r.
Qed.

Lemma runs_emit e : P e -> runs P R (emit e).
Proof. intros He st. split; [done|]. exists [e]. split; [done|]. by constructor. Qed.

Lemma runs_read_store : runs P R read_store.
Proof. intros st. split; [done|]. exists []. by rewrite app_nil_r. Qed.

Lemma runs_write_store g : (forall s, R s (g s)) -> runs P R (write_store g).
Proof. intros Hg st. split; [apply Hg|]. exists []. by rewrite app_nil_r. Qed.

Lemma runs_bind {A B} (m : M A) (k : A -> M B) :
  runs P R m -> (forall a, runs P R (k a)) -> runs P R (m ≫= k).
Proof.
  intros Hm Hk st. unfold mbind, M_bind.
  destruct (Hm st) as [Hs (evs & Hl & Hp)].
  destruct (m st) as [[a|r|e] st1]; simpl in *.
  - destruct (Hk a st1) as [Hs' (evs' & Hl' & Hp')]. split; [by etrans|].
    exists (evs ++ evs'). rewrite Hl', Hl, app_assoc. split; [done|].
    by apply Forall_app.
  - split; [done|]. by exists evs.
  - split; [done|]. by exists evs.
Qed.

Lemma runs_when c m : runs P R m -> runs P R (when c m).
Proof. intros Hm. destruct c; [done | apply runs_ret]. Qed.

Lemma runs_configured v msg : runs P R (configured v msg).
Proof.
  unfold configured. destruct v as [[|c k]|];
    [apply runs_respond | apply runs_ret | apply runs_respond].
Qed.

End Runs.

(** One step of a proof that a computation [runs]. *)
Ltac runs_step :=
  match goal with
  | |- Reflexive _ => first [assumption | typeclasses eauto]
  | |- Transitive _ => first [assumption | typeclasses eauto]
  | |- forall _, _ => intros ?
  | |- runs _ _ (_ ≫= _) => apply runs_bind
  | |- runs _ _ (mret _) => apply runs_ret
  | |- runs _ _ (lift _) => apply runs_lift
  | |- runs _ _ (respond _ _) => apply runs_respond
  | |- runs _ _ read_store => apply runs_read_store
  | |- runs _ _ (configured _ _) => apply runs_configured
  | |- runs _ _ (when _ _) => apply runs_when
  | |- runs _ _ (emit _) => apply runs_emit; auto
  | |- runs _ _ (match ?x with _ => _ end) => destruct x
  end.

Ltac runs_tac := repeat runs_step.

(** Evaluation of the head of a run, the steps of the handler and the
    text functions left folded. *)
Ltac eval_head :=
  cbn -[buildFlashcardPrompt quota_payload JSON.parse parse_reply clean
        Val.ToNumber Val.ToString accessToken Num.add Num.gtb limit
        Val.get Val.get0 Val.truthy output_value lookup_row plan_of
        Val.nullish js error_payload authorize quota generate persist mbind].

Ltac run := eval_head; repeat (rewrite run_bind; eval_head).

Section HandlerRuns.
Context (P : Event -> Prop) (R : Store -> Store -> Prop).
Context `{!Reflexive R} `{!Transitive R}.
Hypothesis reads_allowed : forall e, is_write e = false -> P e.

Lemma quota_runs w userId count : runs P R (quota w userId count).
Proof. unfold quota. runs_tac. Qed.

Lemma authorize_runs w env req f : runs P R (authorize w env req f).
Proof. unfold authorize. runs_tac; apply quota_runs. Qed.

Lemma generate_runs w f k : runs P R (generate w f k).
Proof. unfold generate. runs_tac. Qed.

End HandlerRuns.

Lemma persist_normal w f c d st : fst (persist w f c d st) = Normal tt.
Proof.
  unfold persist.
  destruct (insert_result w _), (c_plan c); try reflexivity;
    destruct (upsert_result w _ _); reflexivity.
Qed.

Lemma persist_appends w f c d :
  runs (fun _ => True) (fun _ _ => True) (persist w f c d).
Proof.
  assert (Reflexive (fun _ _ : Store => True)) by done.
  assert (Transitive (fun _ _ : Store => True)) by done.
  unfold persist. runs_tac; by apply runs_write_store.
Qed.

Lemma persist_keeps_mode w f c d :
  runs (fun e => forall r, e = InsertGeneration r -> g_mode r = f_mode f)
       (fun _ _ => True) (persist w f c d).
Proof.
  assert (Reflexive (fun _ _ : Store => True)) by done.
  assert (Transitive (fun _ _ : Store => True)) by done.
  unfold persist. runs_tac; try (by apply runs_write_store);
    match goal with
    | E : InsertGeneration _ = InsertGeneration _ |- _ => by injection E as <-
    | E : UpsertUsage _ _ = InsertGeneration _ |- _ => discriminate E
    end.
Qed.

Lemma persist_then_respond w f c d v s st :
  fst ((persist w f c d;; respond v s) st) = fst (@respond Response v s st).
Proof.
  rewrite run_bind. pose proof (persist_normal w f c d st) as Hn.
  destruct (persist w f c d st) as [o st']. simpl in Hn. subst o.
  unfold respond. by destruct (NextResponse_json v s).
Qed.

(** *** The bearer token *)

Lemma accessToken_bearer h :
  accessToken h <> [] ->
  exists scheme, h = scheme ++ accessToken h /\ Str.toLowerCase scheme = js "bearer ".
Proof.
  unfold accessToken.
  destruct (Str.startsWith (Str.toLowerCase h) (js "bearer ")) eqn:E; [|done].
  intros _. apply startsWith_take in E.
  change (length (js "bearer ")) with 7%nat in E.
  assert (7 <= length h)%nat as Hlen.
  { apply (f_equal length) in E. rewrite length_take in E.
    unfold Str.toLowerCase in E. rewrite length_map in E.
    change (length (js "bearer ")) with 7%nat in E. lia. }
  exists (take 7 h). change 7 with (Z.of_nat 7). rewrite slice_from_drop by done.
  split; [by rewrite take_drop|].
  unfold Str.toLowerCase in *. by rewrite <- firstn_map.
Qed.

Lemma carries_bearer_token h tok :
  carries_bearer (Some h) tok -> accessToken h = tok.
Proof.
  intros (scheme & [= ->] & Hs & _). unfold accessToken, Str.toLowerCase in *.
  rewrite map_app, Hs, startsWith_app.
  assert (length scheme = 7%nat) as Hlen.
  { apply (f_equal length) in Hs. by rewrite length_map in Hs. }
  change 7 with (Z.of_nat 7). rewrite slice_from_drop by (rewrite length_app; lia).
  rewrite <- Hlen. by rewrite drop_app_length.
Qed.

Lemma no_bearer_no_token header :
  (forall tok, ~ carries_bearer header tok) ->
  accessToken (default [] header) = [].
Proof.
  intros Hno. destruct (accessToken (default [] header)) as [|c t] eqn:E; [done|].
  exfalso. destruct header as [h|]; [|done]. simpl in E.
  destruct (accessToken_bearer h) as (scheme & Hh & Hs); [by rewrite E|].
  apply (Hno (accessToken h)). exists scheme. rewrite <- Hh. by rewrite E.
Qed.

Lemma no_token_no_bearer header :
  accessToken (default [] header) = [] ->
  forall tok, ~ carries_bearer header tok.
Proof.
  intros Hno tok Hb. destruct header as [h|]; [|by destruct Hb as (? & ? & _)].
  pose proof (carries_bearer_token h tok Hb) as Ht. simpl in Hno.
  destruct Hb as (_ & _ & _ & Hne). congruence.
Qed.

Lemma plan_of_free stored : stored <> VStr (js "premium") -> plan_of stored = free.
Proof.
  intros H. destruct stored; try reflexivity. simpl. unfold Str.eqb.
  rewrite bool_decide_eq_false_2; [done | congruence].
Qed.

(** *** The sample data are what the properties ask for *)

Lemma sample_configuration : configuration_present sample_env.
Proof.
  split; [|split]; eexists; (split; [reflexivity | by vm_compute]).
Qed.

Lemma sample_bearer : carries_bearer (Some (js "Bearer tok")) (js "tok").
Proof.
  exists (js "Bearer "). split; [reflexivity|]. split; [reflexivity | by vm_compute].
Qed.

(** C7: a request with non-empty notes and the whole configuration
    present whose authorization header carries no bearer token gets the
    401 response, with no call made and the store untouched. *)
Theorem missing_bearer_is_401_before_any_call :
  forall w env req st f,
    read_fields (req_json req) = Ok f ->
    f_notes f <> [] ->
    configuration_present env ->
    (forall tok, ~ carries_bearer (authorization req) tok) ->
    POST w env req st
    = ({| status := 401; payload := VObj [(js "error", VStr (js "Unauthorized"))] |},
       {| store := st; log := [] |}).
Proof.
  intros w env req st f Hf Hnotes ((k & Hk & Hk') & (u & Hu & Hu') & (r & Hr & Hr')) Hno.
  apply no_bearer_no_token in Hno.
  destruct f as [[|n0 notes] count style mode]; [done|].
  destruct k; [done|]. destruct u; [done|]. destruct r; [done|].
  unfold POST, handle, authorize. rewrite Hf, Hk, Hu, Hr, Hno.
  reflexivity.
Qed.

Lemma missing_bearer_is_401_before_any_call_witness :
  (forall tok, ~ carries_bearer (Some (js "Basic dXNlcjpwYXNz")) tok) /\
  POST sample_world sample_env
    (sample_request (Some (js "Basic dXNlcjpwYXNz")) "{'notes':'photosynthesis'}")
    sample_store
  = ({| status := 401; payload := VObj [(js "error", VStr (js "Unauthorized"))] |},
     {| store := sample_store; log := [] |}).
Proof.
  split; [apply no_token_no_bearer; vm_compute; reflexivity|].
  apply (missing_bearer_is_401_before_any_call sample_world sample_env
           (sample_request (Some (js "Basic dXNlcjpwYXNz")) "{'notes':'photosynthesis'}")
           sample_store (sample_fields 12 "auto")).
  - vm_compute; reflexivity.
  - vm_compute; discriminate.
  - exact sample_configuration.
  - apply no_token_no_bearer; vm_compute; reflexivity.
Defined.

(** C10: a response whose status is not 200 comes with the store as it
    was and with no storage write among the calls made. *)
Theorem error_response_writes_nothing :
  forall w env req st,
    status (fst (POST w env req st)) <> 200 ->
    store (snd (POST w env req st)) = st /\
    forall e, e ∈ log (snd (POST w env req st)) -> is_write e = false.
Proof.
  intros w env req st. unfold POST, handle.
  set (st0 := {| store := st; log := [] |}).
  assert (Hquiet: forall (o : Outcome Response) (s : State),
            store s = st -> Forall (fun e => is_write e = false) (log s) ->
            store (snd (settle (o, s))) = st /\
            forall e, e ∈ log (snd (settle (o, s))) -> is_write e = false).
  { intros o s Hst Hf. rewrite settle_state. split; [done|]. simpl.
    by apply Forall_forall. }
  rewrite run_bind.
  destruct (read_fields (req_json req)) as [f|err]; simpl lift; cbv iota beta;
    [|intros _; by apply Hquiet].
  rewrite run_bind.
  pose proof (authorize_runs (fun e => is_write e = false) eq (fun _ H => H)
                w env req f st0) as [Hs (evs & Hl & Hp)].
  destruct (authorize w env req f st0) as [[c|r|e] st1]; simpl in Hs, Hl;
    [| intros _; apply Hquiet; [done | by rewrite Hl]
     | intros _; apply Hquiet; [done | by rewrite Hl] ].
  rewrite run_bind.
  pose proof (generate_runs (fun e => is_write e = false) eq (fun _ H => H)
                w f (c_apiKey c) st1) as [Hs2 (evs2 & Hl2 & Hp2)].
  destruct (generate w f (c_apiKey c) st1) as [[d|r|e] st2]; simpl in Hs2, Hl2;
    [| intros _; apply Hquiet; [congruence | rewrite Hl2, Hl; by apply Forall_app]
     | intros _; apply Hquiet; [congruence | rewrite Hl2, Hl; by apply Forall_app] ].
  rewrite run_bind.
  pose proof (persist_normal w f c d st2) as Hn.
  destruct (persist w f c d st2) as [o st3]. simpl in Hn. subst o.
  simpl. done.
Qed.

Lemma error_response_writes_nothing_witness :
  status (fst (POST sample_world sample_env
                 (sample_request (Some (js "Bearer tok"))
                    "{'notes':'photosynthesis','count':10}") sample_store)) = 402 /\
  store (snd (POST sample_world sample_env
                (sample_request (Some (js "Bearer tok"))
                   "{'notes':'photosynthesis','count':10}") sample_store)) = sample_store /\
  forall e, e ∈ log (snd (POST sample_world sample_env
                            (sample_request (Some (js "Bearer tok"))
                               "{'notes':'photosynthesis','count':10}") sample_store)) ->
            is_write e = false.
Proof.
  split; [vm_compute; reflexivity|].
  apply (error_response_writes_nothing sample_world sample_env
           (sample_request (Some (js "Bearer tok"))
              "{'notes':'photosynthesis','count':10}") sample_store).
  vm_compute. discriminate.
Defined.

(** *** Quota *)

(** What the checks do for a free-plan user whose request reaches the
    quota: the three calls made, and either the 402 response or the
    caller handed on. *)
Lemma authorize_free_plan w env req st f tok userId used :
  f_notes f <> [] ->
  configuration_present env ->
  carries_bearer (authorization req) tok ->
  getUser w tok = Some userId ->
  lookup_row (profiles_answer w userId) (profiles st) userId <> VStr (js "premium") ->
  Val.ToNumber
    (Val.nullish (lookup_row (usage_answer w userId) (usage st) userId)
       (VNum (S754_zero false))) = Ok used ->
  exists apiKey,
    authorize w env req f {| store := st; log := [] |}
    = (if Num.gtb (Num.add used (f_count f)) limit
       then Returned {| status := 402; payload := quota_payload used |}
       else Normal {| c_apiKey := apiKey; c_userId := userId; c_plan := free;
                      c_usedBefore := used |},
       {| store := st;
          log := [AuthGetUser tok; SelectProfile userId; SelectUsage userId] |}).
Proof.
  intros Hnotes ((k & Hk & Hk') & (u & Hu & Hu') & (r & Hr & Hr')) Hb Hget Hplan Hused.
  assert (Htok: accessToken (default [] (authorization req)) = tok).
  { destruct Hb as (scheme & Hh & Hb). rewrite Hh. apply carries_bearer_token.
    by exists scheme. }
  assert (tok <> []) as Hne by (by destruct Hb as (? & _ & _ & ?)).
  apply plan_of_free in Hplan.
  destruct f as [[|n0 notes] count style mode]; [done|].
  destruct k as [|k0 k]; [done|]. destruct u; [done|]. destruct r; [done|].
  destruct tok as [|t0 tok]; [done|].
  exists (k0 :: k).
  unfold authorize. rewrite Hk, Hu, Hr, Htok. run.
  rewrite Hget. run. rewrite Hplan. unfold quota. run. rewrite Hused. run.
  by destruct (Num.gtb (Num.add used count) limit).
Qed.

Lemma generate_fetches_first w f apiKey st :
  exists evs,
    log (snd (generate w f apiKey st))
    = log st
      ++ FetchCompletion apiKey
           (buildFlashcardPrompt (f_notes f) (f_count f) (f_style f) (f_mode f))
      :: evs.
Proof.
  unfold generate. rewrite run_bind. eval_head.
  match goal with
  | |- context [ snd (?rest ?s1) ] =>
      assert (runs (fun _ => True) (fun _ _ => True) rest) as Hrest
  end.
  { assert (Reflexive (fun _ _ : Store => True)) by done.
    assert (Transitive (fun _ _ : Store => True)) by done.
    runs_tac. }
  match goal with
  | |- context [ snd (?rest ?s1) ] => destruct (Hrest s1) as [_ (evs & Hl & _)]
  end.
  exists evs. rewrite Hl. simpl. by rewrite <- app_assoc.
Qed.

(** C1: for a free-plan user whose request reaches the quota check,
    with [used] the stored usage and the clamped count of the request:
    when used + count is over 100 the response is 402 with used and
    limit = 100 in its payload, and the calls made are the three checks,
    none to the completion service; when used + count is at most 100
    the next call is the one to the completion service. *)
Theorem free_plan_quota :
  forall w env req st f tok userId used,
    read_fields (req_json req) = Ok f ->
    f_notes f <> [] ->
    configuration_present env ->
    carries_bearer (authorization req) tok ->
    getUser w tok = Some userId ->
    lookup_row (profiles_answer w userId) (profiles st) userId <> VStr (js "premium") ->
    Val.ToNumber
      (Val.nullish (lookup_row (usage_answer w userId) (usage st) userId)
         (VNum (S754_zero false))) = Ok used ->
    (Num.gtb (Num.add used (f_count f)) (Num.of_Z 100) = true ->
       POST w env req st
       = ({| status := 402; payload := quota_payload used |},
          {| store := st;
             log := [AuthGetUser tok; SelectProfile userId; SelectUsage userId] |})
       /\ Val.get (quota_payload used) (js "used") = VNum used
       /\ Val.get (quota_payload used) (js "limit") = VNum (Num.of_Z 100))
    /\ (Num.leb (Num.add used (f_count f)) (Num.of_Z 100) = true ->
        exists apiKey rest,
          log (snd (POST w env req st))
          = [AuthGetUser tok; SelectProfile userId; SelectUsage userId]
            ++ FetchCompletion apiKey
                 (buildFlashcardPrompt (f_notes f) (f_count f) (f_style f) (f_mode f))
            :: rest).
Proof.
  intros w env req st f tok userId used Hf Hnotes Henv Hb Hget Hplan Hused.
  destruct (authorize_free_plan w env req st f tok userId used
              Hnotes Henv Hb Hget Hplan Hused) as (apiKey & Hauth).
  change (Num.of_Z 100) with limit.
  split.
  - intros Hgt. split; [|done]. rewrite Hgt in Hauth.
    unfold POST, handle. rewrite Hf, run_bind. eval_head. rewrite run_bind.
    by rewrite Hauth.
  - intros Hle. apply leb_not_gtb in Hle. rewrite Hle in Hauth.
    unfold POST. rewrite settle_state. unfold handle.
    rewrite Hf, run_bind. eval_head. rewrite run_bind, Hauth, run_bind. eval_head.
    set (st1 := {| store := st;
                   log := [AuthGetUser tok; SelectProfile userId; SelectUsage userId] |}).
    destruct (generate_fetches_first w f apiKey st1) as (evs & Hgen). revert Hgen.
    destruct (generate w f apiKey st1) as [[d|resp|e] st2]; simpl; intros Hgen;
      [| exists apiKey, evs; exact Hgen | exists apiKey, evs; exact Hgen].
    rewrite run_bind.
    set (c := {| c_apiKey := apiKey; c_userId := userId; c_plan := free;
                 c_usedBefore := used |}).
    destruct (persist_appends w f c d st2) as [_ (evs2 & Hl2 & _)].
    pose proof (persist_normal w f c d st2) as Hn.
    destruct (persist w f c d st2) as [o st3]. simpl in Hn, Hl2. subst o.
    exists apiKey, (evs ++ evs2). simpl. rewrite Hl2, Hgen. done.
Qed.

Lemma free_plan_quota_witness :
  (POST sample_world sample_env
     (sample_request (Some (js "Bearer tok")) "{'notes':'photosynthesis','count':10}")
     sample_store
   = ({| status := 402; payload := quota_payload (Num.of_Z 95) |},
      {| store := sample_store;
         log := [AuthGetUser (js "tok"); SelectProfile (js "u1"); SelectUsage (js "u1")] |})
   /\ Val.get (quota_payload (Num.of_Z 95)) (js "used") = VNum (Num.of_Z 95)
   /\ Val.get (quota_payload (Num.of_Z 95)) (js "limit") = VNum (Num.of_Z 100))
  /\ exists apiKey rest,
       log (snd (POST sample_world sample_env
                   (sample_request (Some (js "Bearer tok"))
                      "{'notes':'photosynthesis','count':5}")
                   sample_store))
       = [AuthGetUser (js "tok"); SelectProfile (js "u1"); SelectUsage (js "u1")]
         ++ FetchCompletion apiKey
              (buildFlashcardPrompt (js "photosynthesis") (Num.of_Z 5)
                 (js "balanced") (js "auto"))
         :: rest.
Proof.
  split.
  - apply (proj1 (free_plan_quota sample_world sample_env
             (sample_request (Some (js "Bearer tok"))
                "{'notes':'photosynthesis','count':10}")
             sample_store (sample_fields 10 "auto") (js "tok") (js "u1") (Num.of_Z 95)
             ltac:(vm_compute; reflexivity) ltac:(vm_compute; discriminate)
             sample_configuration sample_bearer
             ltac:(vm_compute; reflexivity) ltac:(vm_compute; discriminate)
             ltac:(vm_compute; reflexivity))).
    vm_compute; reflexivity.
  - apply (proj2 (free_plan_quota sample_world sample_env
             (sample_request (Some (js "Bearer tok"))
                "{'notes':'photosynthesis','count':5}")
             sample_store (sample_fields 5 "auto") (js "tok") (js "u1") (Num.of_Z 95)
             ltac:(vm_compute; reflexivity) ltac:(vm_compute; discriminate)
             sample_configuration sample_bearer
             ltac:(vm_compute; reflexivity) ltac:(vm_compute; discriminate)
             ltac:(vm_compute; reflexivity))).
    vm_compute; reflexivity.
Defined.

(** *** The mode *)

Lemma read_fields_mode b mode :
  Val.get b (js "mode") = VStr mode ->
  read_fields b =
  match common_fields b with
  | Ok (notes, count, style) =>
      Ok {| f_notes := notes; f_count := count; f_style := style; f_mode := mode |}
  | Throw e => Throw e
  end.
Proof.
  intros Hb. unfold read_fields, common_fields. rewrite Hb.
  destruct (Val.ToString (Val.nullish (Val.get b (js "notes")) (VStr []))); [|done].
  destruct (Val.ToNumber (Val.nullish (Val.get b (js "count")) (VNum (Num.of_Z 12))));
    [|done].
  by destruct (Val.ToString (Val.nullish (Val.get b (js "style")) (VStr (js "balanced")))).
Qed.

Lemma common_fields_agree b1 b2 :
  Val.get b1 (js "notes") = Val.get b2 (js "notes") ->
  Val.get b1 (js "count") = Val.get b2 (js "count") ->
  Val.get b1 (js "style") = Val.get b2 (js "style") ->
  common_fields b1 = common_fields b2.
Proof. intros Hn Hc Hs. unfold common_fields. by rewrite Hn, Hc, Hs. Qed.

Lemma authorize_ignores_mode w env req1 req2 notes count style m1 m2 :
  authorization req1 = authorization req2 ->
  authorize w env req1 {| f_notes := notes; f_count := count; f_style := style; f_mode := m1 |}
  = authorize w env req2 {| f_notes := notes; f_count := count; f_style := style; f_mode := m2 |}.
Proof. intros H. unfold authorize. simpl. by rewrite H. Qed.

Lemma generate_mode_falls_through w notes count style m k :
  m <> js "questions" -> m <> js "short_notes" ->
  generate w {| f_notes := notes; f_count := count; f_style := style; f_mode := m |} k
  = generate w {| f_notes := notes; f_count := count; f_style := style;
                  f_mode := js "auto" |} k.
Proof.
  intros H1 H2. unfold generate. simpl.
  by rewrite (prompt_falls_through notes count style m H1 H2).
Qed.

(** C9: a request whose mode is a string other than "questions" and
    "short_notes" is not rejected for it: the prompt built is the one
    of mode "auto" and carries the auto-detection sentence, the mode
    read from the body is the string itself, the response is the
    response to the same request with mode "auto", and a row that gets
    inserted carries the string as its mode. *)
Theorem unknown_mode_passes_as_auto :
  forall w env req1 req2 st m,
    m <> js "questions" -> m <> js "short_notes" ->
    authorization req1 = authorization req2 ->
    Val.get (req_json req1) (js "mode") = VStr m ->
    Val.get (req_json req2) (js "mode") = VStr (js "auto") ->
    Val.get (req_json req1) (js "notes") = Val.get (req_json req2) (js "notes") ->
    Val.get (req_json req1) (js "count") = Val.get (req_json req2) (js "count") ->
    Val.get (req_json req1) (js "style") = Val.get (req_json req2) (js "style") ->
    (forall userText count style,
       buildFlashcardPrompt userText count style m
       = buildFlashcardPrompt userText count style (js "auto")) /\
    (forall userText count style,
       occurs_in
         (js "Auto-detect: if the input contains many questions (" ++ [dquote] ++ js "?"
          ++ [dquote] ++ js ", Q:, MCQ, etc.) treat it as a question bank; otherwise treat it as notes.")
         (buildFlashcardPrompt userText count style m)) /\
    (forall f, read_fields (req_json req1) = Ok f -> f_mode f = m) /\
    fst (POST w env req1 st) = fst (POST w env req2 st) /\
    (forall row, row ∈ inserted_rows (log (snd (POST w env req1 st))) -> g_mode row = m).
Proof.
  intros w env req1 req2 st m H1 H2 Hauth Hm1 Hm2 Hn Hc Hs.
  pose proof (read_fields_mode _ _ Hm1) as Hf1.
  pose proof (read_fields_mode _ _ Hm2) as Hf2.
  rewrite <- (common_fields_agree _ _ Hn Hc Hs) in Hf2.
  assert (Hmode: forall f, read_fields (req_json req1) = Ok f -> f_mode f = m).
  { intros f. rewrite Hf1.
    destruct (common_fields (req_json req1)) as [[[??]?]|]; [|done].
    intros [= E]. by rewrite <- E. }
  split; [intros; by apply prompt_falls_through|].
  split; [intros; rewrite prompt_falls_through by done; apply prompt_auto_sentence|].
  split; [exact Hmode|].
  split.
  - unfold POST. apply settle_response. unfold handle.
    rewrite Hf1, Hf2.
    destruct (common_fields (req_json req1)) as [[[notes count] style]|]; [|done].
    rewrite !run_bind. simpl lift. cbv iota beta.
    rewrite !run_bind.
    rewrite (authorize_ignores_mode w env req1 req2 _ _ _ m (js "auto") Hauth).
    destruct (authorize w env req2 _ _) as [[c|r|e] st1]; [|done|done].
    rewrite !run_bind.
    rewrite (generate_mode_falls_through w _ _ _ m (c_apiKey c) H1 H2).
    destruct (generate w _ (c_apiKey c) st1) as [[d|r|e] st2]; [|done|done].
    by rewrite !persist_then_respond.
  - intros row. unfold POST. rewrite settle_state. unfold handle.
    destruct (read_fields (req_json req1)) as [f|e] eqn:Ef; [|by intros ?%elem_of_nil].
    pose proof (Hmode f eq_refl) as Hfm.
    rewrite run_bind. simpl lift. cbv iota beta.
    set (P := fun e => forall r, e = InsertGeneration r -> g_mode r = f_mode f).
    assert (Reflexive (fun _ _ : Store => True)) by done.
    assert (Transitive (fun _ _ : Store => True)) by done.
    assert (Hreads: forall e, is_write e = false -> P e) by (by intros e He r ->).
    match goal with
    | |- context [log (snd (?run _))] => assert (runs P (fun _ _ => True) run) as Hruns
    end.
    { apply runs_bind; [done | by apply authorize_runs |]. intros c.
      apply runs_bind; [done | by apply generate_runs |]. intros d.
      apply runs_bind; [done | apply persist_keeps_mode |]. intros _.
      by apply runs_respond. }
    destruct (Hruns {| store := st; log := [] |}) as [_ (evs & -> & Hp)].
    simpl. unfold inserted_rows. rewrite list_elem_of_omap.
    intros (e & He & Hrow). rewrite Forall_forall in Hp.
    rewrite <- Hfm. apply (Hp e He). by destruct e; try done; injection Hrow as ->.
Qed.

Lemma unknown_mode_passes_as_auto_witness :
  fst (POST sample_world sample_env
         (sample_request (Some (js "Bearer tok"))
            "{'notes':'photosynthesis','count':3,'mode':'garbage'}") sample_store)
  = fst (POST sample_world sample_env
           (sample_request (Some (js "Bearer tok"))
              "{'notes':'photosynthesis','count':3,'mode':'auto'}") sample_store)
  /\ status (fst (POST sample_world sample_env
                    (sample_request (Some (js "Bearer tok"))
                       "{'notes':'photosynthesis','count':3,'mode':'garbage'}") sample_store))
     = 200
  /\ buildFlashcardPrompt (js "photosynthesis") (Num.of_Z 3) (js "balanced") (js "garbage")
     = buildFlashcardPrompt (js "photosynthesis") (Num.of_Z 3) (js "balanced") (js "auto")
  /\ occurs_in
       (js "Auto-detect: if the input contains many questions (" ++ [dquote] ++ js "?"
        ++ [dquote] ++ js ", Q:, MCQ, etc.) treat it as a question bank; otherwise treat it as notes.")
       (buildFlashcardPrompt (js "photosynthesis") (Num.of_Z 3) (js "balanced")
          (js "garbage")).
Proof.
  pose proof (unknown_mode_passes_as_auto sample_world sample_env
    (sample_request (Some (js "Bearer tok")) "{'notes':'photosynthesis','count':3,'mode':'garbage'}")
    (sample_request (Some (js "Bearer tok")) "{'notes':'photosynthesis','count':3,'mode':'auto'}")
    sample_store (js "garbage")
    ltac:(vm_compute; discriminate) ltac:(vm_compute; discriminate)
    eq_refl
    ltac:(vm_compute; reflexivity) ltac:(vm_compute; reflexivity)
    ltac:(vm_compute; reflexivity) ltac:(vm_compute; reflexivity)
    ltac:(vm_compute; reflexivity)) as (Hprompt & Hauto & _ & Hresp & _).
  split; [exact Hresp|]. split; [vm_compute; reflexivity|].
  split; [apply Hprompt | apply Hauto].
Defined.

(** *** After the checks *)

Lemma authorize_reads_only w env req f st c st1 :
  authorize w env req f {| store := st; log := [] |} = (Normal c, st1) ->
  store st1 = st /\ Forall (fun e => is_write e = false) (log st1).
Proof.
  intros H.
  pose proof (authorize_runs (fun e => is_write e = false) eq (fun _ H => H)
                w env req f {| store := st; log := [] |}) as [Hs (evs & Hl & Hp)].
  rewrite H in Hs, Hl. simpl in Hs, Hl. by rewrite Hl.
Qed.

Lemma POST_after_checks w env req st f c st1 :
  read_fields (req_json req) = Ok f ->
  authorize w env req f {| store := st; log := [] |} = (Normal c, st1) ->
  POST w env req st
  = settle ((d ← generate w f (c_apiKey c);
             persist w f c d;;
             respond (output_value (d_title d) (d_cleaned d)) 200) st1).
Proof.
  intros Hf Ha. unfold POST, handle. rewrite Hf, run_bind. simpl lift. cbv iota beta.
  by rewrite run_bind, Ha.
Qed.

Lemma generate_run w f k st1 :
  generate w f k st1 =
  match completion w k (buildFlashcardPrompt (f_notes f) (f_count f) (f_style f) (f_mode f))
  with
  | NetworkError => (Raised (TypeError (js "fetch failed")), fetched st1 k f)
  | Reply s details =>
      if (200 <=? s) && (s <=? 299) then
        match JSON.parse details with
        | Throw e => (Raised e, fetched st1 k f)
        | Ok data =>
            if Val.truthy (reply_content data) then
              match parse_reply (reply_content data) with
              | Throw e => (Raised e, fetched st1 k f)
              | Ok parsed =>
                  match Val.ToString (Val.nullish (Val.get parsed (js "title"))
                                        (VStr (js "Flashcards"))) with
                  | Throw e => (Raised e, fetched st1 k f)
                  | Ok title =>
                      match clean (match Val.get parsed (js "flashcards") with
                                   | VArr items => items
                                   | _ => []
                                   end) (f_count f) with
                      | Throw e => (Raised e, fetched st1 k f)
                      | Ok cleaned =>
                          (Normal {| d_title := title; d_cleaned := cleaned |},
                           fetched st1 k f)
                      end
                  end
              end
            else (Returned {| status := 502;
                              payload := error_payload "No response from Groq" |},
                  fetched st1 k f)
        end
      else
        @respond Deck (VObj [ (js "error", VStr (js "Groq request failed"));
                              (js "details", VStr details) ]) s (fetched st1 k f)
  end.
Proof.
  unfold generate, fetched, reply_content. run.
  destruct (completion w k _) as [|s details]; [reflexivity|].
  destruct ((200 <=? s) && (s <=? 299));
    [|unfold respond; by destruct (NextResponse_json _ _)].
  run. destruct (JSON.parse details) as [data|e]; [|reflexivity]. run.
  destruct (Val.truthy _); [|reflexivity]. run.
  destruct (parse_reply _) as [parsed|e]; [|reflexivity]. run.
  destruct (Val.ToString _) as [title|e]; [|reflexivity]. run.
  destruct (clean _ _) as [cleaned|e]; reflexivity.
Qed.

Lemma respond_run {A} v s st :
  200 <= s <= 599 -> null_body_status s = false ->
  @respond A v s st = (Returned {| status := s; payload := v |}, st).
Proof.
  intros Hs Hn. unfold respond, NextResponse_json. rewrite Hn.
  destruct (Z.leb_spec 200 s); [|lia]. destruct (Z.leb_spec s 599); [|lia]. done.
Qed.

(** X11: a request that has passed the checks and whose completion call
    comes back with a status from 300 to 599 is answered with that
    status and the body of the reply as details; the one exception is
    304, which a response with a body cannot carry: the answer is then
    500. Either way the call is the last one made and nothing is stored. *)
Theorem upstream_failure_is_mirrored :
  forall w env req st f c st1 s details,
    read_fields (req_json req) = Ok f ->
    authorize w env req f {| store := st; log := [] |} = (Normal c, st1) ->
    completion w (c_apiKey c)
      (buildFlashcardPrompt (f_notes f) (f_count f) (f_style f) (f_mode f))
    = Reply s details ->
    300 <= s <= 599 ->
    (s <> 304 ->
     POST w env req st
     = ({| status := s;
           payload := VObj [ (js "error", VStr (js "Groq request failed"));
                             (js "details", VStr details) ] |},
        fetched {| store := st; log := log st1 |} (c_apiKey c) f))
    /\ (s = 304 ->
        status (fst (POST w env req st)) = 500 /\
        snd (POST w env req st) = fetched {| store := st; log := log st1 |} (c_apiKey c) f).
Proof.
  intros w env req st f c st1 s details Hf Ha Hc Hs.
  destruct (authorize_reads_only _ _ _ _ _ _ _ Ha) as [Hst _].
  rewrite (POST_after_checks _ _ _ _ _ _ _ Hf Ha).
  rewrite run_bind, generate_run, Hc.
  destruct (Z.leb_spec s 299); [lia|]. rewrite andb_false_r.
  unfold fetched. rewrite Hst. split.
  - intros H304. rewrite respond_run; [done | lia |].
    unfold null_body_status.
    destruct (Z.eqb_spec s 204); [lia|]. destruct (Z.eqb_spec s 205); [lia|].
    by destruct (Z.eqb_spec s 304).
  - by intros ->.
Qed.

(** X12: a reply of the completion service with a 2xx status: when its
    body is not JSON the answer is 500 with the message of the parse
    error; when the body has no text at choices[0].message.content, or
    an empty one, the answer is 502. *)
Theorem reply_without_content_is_502 :
  forall w env req st f c st1 s details,
    read_fields (req_json req) = Ok f ->
    authorize w env req f {| store := st; log := [] |} = (Normal c, st1) ->
    completion w (c_apiKey c)
      (buildFlashcardPrompt (f_notes f) (f_count f) (f_style f) (f_mode f))
    = Reply s details ->
    200 <= s <= 299 ->
    (forall e, JSON.parse details = Throw e ->
       POST w env req st
       = ({| status := 500; payload := VObj [(js "error", VStr (exn_message e))] |},
          fetched {| store := st; log := log st1 |} (c_apiKey c) f))
    /\ (forall data, JSON.parse details = Ok data ->
          Val.truthy (reply_content data) = false ->
          POST w env req st
          = ({| status := 502; payload := error_payload "No response from Groq" |},
             fetched {| store := st; log := log st1 |} (c_apiKey c) f)).
Proof.
  intros w env req st f c st1 s details Hf Ha Hc Hs.
  destruct (authorize_reads_only _ _ _ _ _ _ _ Ha) as [Hst _].
  rewrite (POST_after_checks _ _ _ _ _ _ _ Hf Ha).
  rewrite run_bind, generate_run, Hc.
  destruct (Z.leb_spec 200 s); [|lia]. destruct (Z.leb_spec s 299); [|lia].
  cbn [andb]. unfold fetched. rewrite Hst. split.
  - intros e ->. reflexivity.
  - intros data -> ->. reflexivity.
Qed.

(** X13: a generated text that neither parses as JSON nor yields to the
    extractor is answered with 500 and the message of what the extractor
    threw; nothing is stored. *)
Theorem unreadable_reply_is_500 :
  forall w env req st f c st1 s details data text e0 e,
    read_fields (req_json req) = Ok f ->
    authorize w env req f {| store := st; log := [] |} = (Normal c, st1) ->
    completion w (c_apiKey c)
      (buildFlashcardPrompt (f_notes f) (f_count f) (f_style f) (f_mode f))
    = Reply s details ->
    200 <= s <= 299 ->
    JSON.parse details = Ok data ->
    reply_content data = VStr text -> text <> [] ->
    JSON.parse text = Throw e0 ->
    extractJson text = Throw e ->
    POST w env req st
    = ({| status := 500; payload := VObj [(js "error", VStr (exn_message e))] |},
       fetched {| store := st; log := log st1 |} (c_apiKey c) f).
Proof.
  intros w env req st f c st1 s details data text e0 e Hf Ha Hc Hs Hd Ht Hne Hp He.
  destruct (authorize_reads_only _ _ _ _ _ _ _ Ha) as [Hst _].
  rewrite (POST_after_checks _ _ _ _ _ _ _ Hf Ha).
  rewrite run_bind, generate_run, Hc, Hd, Ht.
  destruct (Z.leb_spec 200 s); [|lia]. destruct (Z.leb_spec s 299); [|lia].
  cbn [andb]. destruct text as [|t0 text]; [done|]. cbn [Val.truthy].
  unfold parse_reply. cbn [Val.ToString]. 
  change (s0 ← Ok (t0 :: text); JSON.parse s0) with (JSON.parse (t0 :: text)).
  rewrite Hp, He. unfold fetched. by rewrite Hst.
Qed.

(** X14: a generated text that is JSON but not of the schema is no
    error: when [flashcards] is not an array the answer is 200 with no
    card, under the title read from the reply, "Flashcards" when it has
    none. *)
Theorem off_schema_reply_is_empty_success :
  forall w env req st f c st1 s details data parsed title,
    read_fields (req_json req) = Ok f ->
    authorize w env req f {| store := st; log := [] |} = (Normal c, st1) ->
    completion w (c_apiKey c)
      (buildFlashcardPrompt (f_notes f) (f_count f) (f_style f) (f_mode f))
    = Reply s details ->
    200 <= s <= 299 ->
    JSON.parse details = Ok data ->
    Val.truthy (reply_content data) = true ->
    parse_reply (reply_content data) = Ok parsed ->
    Val.isArray (Val.get parsed (js "flashcards")) = false ->
    Val.ToString (Val.nullish (Val.get parsed (js "title")) (VStr (js "Flashcards")))
    = Ok title ->
    fst (POST w env req st) = {| status := 200; payload := output_value title [] |}.
Proof.
  intros w env req st f c st1 s details data parsed title Hf Ha Hc Hs Hd Ht Hp Harr Htitle.
  rewrite (POST_after_checks _ _ _ _ _ _ _ Hf Ha).
  rewrite run_bind, generate_run, Hc, Hd, Ht, Hp, Htitle.
  destruct (Z.leb_spec 200 s); [|lia]. destruct (Z.leb_spec s 299); [|lia].
  cbn [andb].
  assert (clean match Val.get parsed (js "flashcards") with
                | VArr items => items
                | _ => []
                end (f_count f) = Ok []) as ->.
  { destruct (Val.get parsed (js "flashcards")); try discriminate Harr;
      unfold clean, Val.slice0; cbn [mapM mbind result_bind rbind List.filter];
      destruct (Num.ToIntegerOrInfinity _); by rewrite ?take_nil. }
  cbv iota beta. by erewrite settle_response by apply persist_then_respond.
Qed.

(** *** What a response has gone through *)

Section Returns.
Context (Q : Response -> Prop).

Lemma returns_ret {A} (a : A) : returns Q (mret a).
Proof. by intros st r st'. Qed.

Lemma returns_lift {A} (x : result A) : returns Q (lift x).
Proof. intros st r st'. by destruct x. Qed.

Lemma returns_emit e : returns Q (emit e).
Proof. by intros st r st'. Qed.

Lemma returns_read_store : returns Q read_store.
Proof. by intros st r st'. Qed.

Lemma returns_respond {A} v s :
  Q {| status := s; payload := v |} -> returns Q (@respond A v s).
Proof.
  intros HQ st r st'. unfold respond, NextResponse_json.
  destruct ((200 <=? s) && (s <=? 599)); [|done].
  destruct (null_body_status s); [done|]. by intros [= <- _].
Qed.

Lemma returns_bind {A B} (m : M A) (k : A -> M B) :
  returns Q m -> (forall a, returns Q (k a)) -> returns Q (m ≫= k).
Proof.
  intros Hm Hk st r st'. rewrite run_bind.
  destruct (m st) as [[a|r0|e] st1] eqn:E.
  - apply Hk.
  - intros [= <- _]. by eapply Hm.
  - done.
Qed.

Lemma returns_when c m : returns Q m -> returns Q (when c m).
Proof. intros Hm. destruct c; [done | apply returns_ret]. Qed.

End Returns.

(** One step of a proof about what a computation [returns]. *)
Ltac returns_step :=
  match goal with
  | |- forall _, _ => intros ?
  | |- returns _ (_ ≫= _) => apply returns_bind
  | |- returns _ (mret _) => apply returns_ret
  | |- returns _ (lift _) => apply returns_lift
  | |- returns _ (respond _ _) => apply returns_respond; simpl; try done
  | |- returns _ read_store => apply returns_read_store
  | |- returns _ (when _ _) => apply returns_when
  | |- returns _ (emit _) => apply returns_emit
  | |- returns _ (configured _ _) => unfold configured
  | |- returns _ (match ?x with _ => _ end) => destruct x
  end.

Lemma authorize_returns_error w env req f :
  returns (fun r => status r <> 200) (authorize w env req f).
Proof. unfold authorize, quota. repeat returns_step. Qed.

Lemma generate_normal w f k st1 d st2 :
  generate w f k st1 = (Normal d, st2) ->
  st2 = fetched st1 k f /\
  exists flashcards, clean flashcards (f_count f) = Ok (d_cleaned d).
Proof.
  rewrite generate_run.
  destruct (completion w k _) as [|s details]; [done|].
  destruct ((200 <=? s) && (s <=? 299)).
  - destruct (JSON.parse details) as [data|]; [|done].
    destruct (Val.truthy _); [|done].
    destruct (parse_reply _) as [parsed|]; [|done].
    destruct (Val.ToString _) as [title|]; [|done].
    destruct (clean _ _) as [cleaned|] eqn:E; [|done].
    intros [= <- <-]. split; [done|]. by eexists.
  - unfold respond. by destruct (NextResponse_json _ _).
Qed.

Lemma generate_returns_error w f k :
  returns (fun r => status r <> 200) (generate w f k).
Proof.
  intros st r st'. rewrite generate_run.
  destruct (completion w k _) as [|s details]; [done|].
  destruct ((200 <=? s) && (s <=? 299)) eqn:Es.
  - destruct (JSON.parse details) as [data|]; [|done].
    destruct (Val.truthy _); [|by intros [= <- _]].
    destruct (parse_reply _) as [parsed|]; [|done].
    destruct (Val.ToString _) as [title|]; [|done].
    by destruct (clean _ _) as [cleaned|].
  - unfold respond, NextResponse_json.
    destruct ((200 <=? s) && (s <=? 599)) eqn:Es'; [|done].
    destruct (null_body_status s); [done|].
    intros [= <- _]. simpl. intros ->. done.
Qed.

Lemma generate_state w f k st1 : snd (generate w f k st1) = fetched st1 k f.
Proof.
  rewrite generate_run.
  destruct (completion w k _) as [|s details]; [done|].
  destruct ((200 <=? s) && (s <=? 299)).
  - destruct (JSON.parse details) as [data|]; [|done].
    destruct (Val.truthy _); [|done].
    destruct (parse_reply _) as [parsed|]; [|done].
    destruct (Val.ToString _) as [title|]; [|done].
    by destruct (clean _ _).
  - unfold respond. by destruct (NextResponse_json _ _).
Qed.

(** What a 200 response has gone through. *)
Lemma POST_success w env req st :
  status (fst (POST w env req st)) = 200 ->
  exists f c st1 d,
    read_fields (req_json req) = Ok f /\
    authorize w env req f {| store := st; log := [] |} = (Normal c, st1) /\
    generate w f (c_apiKey c) st1 = (Normal d, fetched st1 (c_apiKey c) f) /\
    POST w env req st
    = ({| status := 200; payload := output_value (d_title d) (d_cleaned d) |},
       snd (persist w f c d (fetched st1 (c_apiKey c) f))).
Proof.
  unfold POST, handle. rewrite run_bind.
  destruct (read_fields (req_json req)) as [f|e] eqn:Ef; simpl lift; cbv iota beta;
    [|done].
  rewrite run_bind.
  destruct (authorize w env req f _) as [[c|r|e] st1] eqn:Ea; [| |done].
  2:{ simpl. intros H. by apply authorize_returns_error in Ea. }
  rewrite run_bind.
  destruct (generate w f (c_apiKey c) st1) as [[d|r|e] st2] eqn:Eg; [| |done].
  2:{ simpl. intros H. by apply generate_returns_error in Eg. }
  destruct (generate_normal _ _ _ _ _ _ Eg) as [-> _].
  intros _. exists f, c, st1, d. repeat split; try done.
  rewrite run_bind.
  pose proof (persist_normal w f c d (fetched st1 (c_apiKey c) f)) as Hn.
  destruct (persist w f c d _) as [o st3]. simpl in Hn. by subst o.
Qed.

Lemma persist_log w f c d st2 :
  log (snd (persist w f c d st2))
  = log st2 ++ InsertGeneration (inserted_row f c d)
      :: match insert_result w (inserted_row f c d), c_plan c with
         | Rejected, _ | _, premium => []
         | _, free => [UpsertUsage (c_userId c) (nextUsed c d)]
         end.
Proof.
  unfold persist, inserted_row, nextUsed.
  destruct (insert_result w _), (c_plan c); run; try reflexivity;
    destruct (upsert_result w _ _); run; by rewrite <- app_assoc.
Qed.

Lemma persist_store w f c d st2 :
  store (snd (persist w f c d st2))
  = match insert_result w (inserted_row f c d) with
    | Rejected => store st2
    | ins =>
        let s1 := match ins with
                  | Written => {| profiles := profiles (store st2);
                                  usage := usage (store st2);
                                  generations := generations (store st2)
                                                 ++ [inserted_row f c d] |}
                  | _ => store st2
                  end in
        match c_plan c with
        | premium => s1
        | free =>
            match upsert_result w (c_userId c) (nextUsed c d) with
            | Written => {| profiles := profiles s1;
                            usage := <[c_userId c := VNum (nextUsed c d)]> (usage s1);
                            generations := generations s1 |}
            | _ => s1
            end
        end
    end.
Proof.
  unfold persist, inserted_row, nextUsed.
  destruct (insert_result w _), (c_plan c); run; try reflexivity;
    destruct (upsert_result w _ _); run; reflexivity.
Qed.

Lemma inserted_rows_app l1 l2 :
  inserted_rows (l1 ++ l2) = inserted_rows l1 ++ inserted_rows l2.
Proof. unfold inserted_rows. apply omap_app. Qed.

Lemma inserted_rows_reads l :
  Forall (fun e => is_write e = false) l -> inserted_rows l = [].
Proof.
  induction 1 as [|e l He _ IH]; [done|].
  change (inserted_rows (e :: l))
    with (match (match e with InsertGeneration row => Some row | _ => None end) with
          | Some y => y :: inserted_rows l
          | None => inserted_rows l
          end).
  rewrite IH. by destruct e.
Qed.

(** *** Cleaning keeps its promises *)

Lemma mapM_Forall {A B} (f : A -> result B) (P : B -> Prop) :
  (forall x y, f x = Ok y -> P y) ->
  forall l ys, mapM f l = Ok ys -> Forall P ys.
Proof.
  intros Hf. induction l as [|x l IH]; intros ys; simpl.
  - intros [= <-]. constructor.
  - destruct (f x) as [y|] eqn:Ey; [|done]. simpl.
    destruct (mapM f l) as [ys'|]; [|done]. simpl. intros [= <-].
    constructor; [by eapply Hf | by apply IH].
Qed.

Lemma clean_card_trimmed c card :
  clean_card c = Ok card ->
  no_space_at_ends (question card) /\ no_space_at_ends (answer card) /\
  (length (tags card) <= 6)%nat.
Proof.
  unfold clean_card.
  destruct (Val.ToString (Val.nullish (Val.get c (js "question")) _)) as [q|]; [|done].
  destruct (Val.ToString (Val.nullish (Val.get c (js "answer")) _)) as [a|]; [|done].
  simpl.
  destruct (Val.get c (js "tags")) as [| | | | |ts|]; simpl;
    try (intros [= <-]; simpl; split; [apply trim_no_space_at_ends|];
         split; [apply trim_no_space_at_ends | lia]).
  destruct (mapM Val.ToString ts) as [l|]; [|done]. simpl.
  intros [= <-]. simpl. rewrite length_take.
  split; [apply trim_no_space_at_ends|]. split; [apply trim_no_space_at_ends | lia].
Qed.

Lemma slice0_sublist {A} (P : A -> Prop) (items : list A) stop :
  Forall P items -> Forall P (Val.slice0 items stop).
Proof.
  intros H. unfold Val.slice0.
  destruct (Num.ToIntegerOrInfinity stop); [constructor | by apply Forall_take | done].
Qed.

Lemma clean_well_formed flashcards count cleaned :
  clean flashcards count = Ok cleaned -> Forall well_formed cleaned.
Proof.
  unfold clean.
  destruct (mapM clean_card flashcards) as [cards|] eqn:E; [|done]. simpl.
  intros [= <-]. apply slice0_sublist.
  apply (mapM_Forall _ _ clean_card_trimmed) in E.
  induction E as [|c cards (Hq & Ha & Ht) _ IH]; simpl; [constructor|].
  destruct (keep c) eqn:Ek; [|done]. constructor; [|done].
  unfold keep in Ek. apply andb_true_iff in Ek as [Ekq Eka].
  unfold well_formed.
  split; [by destruct (question c)|]. split; [by destruct (answer c)|]. done.
Qed.

Lemma slice0_length {A} (items : list A) stop n :
  Num.ToIntegerOrInfinity stop = Num.Fin n -> 0 <= n ->
  (length (Val.slice0 items stop) <= Z.to_nat n)%nat.
Proof.
  intros Hs Hn. rewrite (slice0_take _ _ _ Hs Hn). rewrite length_take. lia.
Qed.

Lemma clean_length flashcards count cleaned n :
  clean flashcards count = Ok cleaned ->
  Num.ToIntegerOrInfinity count = Num.Fin n -> 0 <= n ->
  (length cleaned <= Z.to_nat n)%nat.
Proof.
  unfold clean. destruct (mapM clean_card flashcards) as [cards|]; [|done]. simpl.
  intros [= <-]. apply slice0_length.
Qed.

(** X15: whatever the request and the collaborators' answers, a 200
    response carries at most 50 cards, all well formed: question and
    answer not empty and without white space at their ends, at most six
    tags. *)
Theorem success_carries_well_formed_cards :
  forall w env req st,
    status (fst (POST w env req st)) = 200 ->
    exists title cleaned,
      payload (fst (POST w env req st)) = output_value title cleaned /\
      Forall well_formed cleaned /\
      (length cleaned <= 50)%nat.
Proof.
  intros w env req st H.
  destruct (POST_success _ _ _ _ H) as (f & c & st1 & d & Hf & Ha & Hg & ->).
  exists (d_title d), (d_cleaned d). split; [done|].
  destruct (generate_normal _ _ _ _ _ _ Hg) as [_ (fl & Hfl)].
  split; [by eapply clean_well_formed|].
  destruct (read_fields_count_integer _ _ Hf) as (n & Hn & Hrange).
  pose proof (clean_length _ _ _ _ Hfl Hn ltac:(lia)). lia.
Qed.

(** X16: with a 200 response goes exactly one insert into the
    generations, of a row whose output is the body of the response and
    whose input, mode, style and requested count are the fields read
    from the request. *)
Theorem success_inserts_what_it_returns :
  forall w env req st,
    status (fst (POST w env req st)) = 200 ->
    exists f row,
      read_fields (req_json req) = Ok f /\
      inserted_rows (log (snd (POST w env req st))) = [row] /\
      g_output row = payload (fst (POST w env req st)) /\
      Val.get (g_output row) (js "title") = VStr (g_title row) /\
      g_input row = f_notes f /\ g_mode row = f_mode f /\ g_style row = f_style f /\
      g_requested_count row = f_count f.
Proof.
  intros w env req st H.
  destruct (POST_success _ _ _ _ H) as (f & c & st1 & d & Hf & Ha & Hg & ->).
  destruct (authorize_reads_only _ _ _ _ _ _ _ Ha) as [_ Hreads].
  exists f, (inserted_row f c d). split; [done|]. split; [|done].
  cbn [snd]. rewrite persist_log. unfold fetched. cbn [log].
  rewrite !inserted_rows_app, (inserted_rows_reads _ Hreads).
  unfold inserted_rows. cbn.
  by destruct (insert_result w _), (c_plan c).
Qed.

(** X17: when the insert into the generations throws, the detached block
    ends there: the usage is not written, the store is as it was, and
    the response is the 200 all the same. *)
Theorem rejected_insert_skips_usage :
  forall w env req st,
    status (fst (POST w env req st)) = 200 ->
    (forall row, insert_result w row = Rejected) ->
    store (snd (POST w env req st)) = st /\
    forall u n, UpsertUsage u n ∉ log (snd (POST w env req st)).
Proof.
  intros w env req st H Hrej.
  destruct (POST_success _ _ _ _ H) as (f & c & st1 & d & Hf & Ha & Hg & ->).
  destruct (authorize_reads_only _ _ _ _ _ _ _ Ha) as [Hst Hreads].
  cbn [snd]. rewrite persist_store, persist_log, Hrej. split; [done|].
  intros u n. unfold fetched. cbn [log]. rewrite !elem_of_app, !elem_of_cons.
  rewrite Forall_forall in Hreads.
  intros [[Hin | [Hin | Hin%elem_of_nil]] | [Hin | Hin%elem_of_nil]]; try done.
  by apply Hreads in Hin.
Qed.

(** X18: the response does not depend on how the writes end: two worlds
    that give the same answers to the token check, the lookups and the
    completion call give the same response. *)
Theorem response_ignores_write_results :
  forall w1 w2 env req st,
    getUser w1 = getUser w2 ->
    profiles_answer w1 = profiles_answer w2 ->
    usage_answer w1 = usage_answer w2 ->
    completion w1 = completion w2 ->
    fst (POST w1 env req st) = fst (POST w2 env req st).
Proof.
  intros [g1 p1 u1 c1 i1 r1] [g2 p2 u2 c2 i2 r2] env req st. simpl.
  intros <- <- <- <-.
  unfold POST. apply settle_response. unfold handle. rewrite !run_bind.
  destruct (lift (read_fields (req_json req)) _) as [[f|r|e] st0]; [|done|done].
  rewrite !run_bind.
  change (authorize (Build_World g1 p1 u1 c1 i2 r2) env req f)
    with (authorize (Build_World g1 p1 u1 c1 i1 r1) env req f).
  destruct (authorize _ env req f st0) as [[c|r|e] st1]; [|done|done].
  rewrite !run_bind.
  change (generate (Build_World g1 p1 u1 c1 i2 r2) f (c_apiKey c))
    with (generate (Build_World g1 p1 u1 c1 i1 r1) f (c_apiKey c)).
  destruct (generate _ f (c_apiKey c) st1) as [[d|r|e] st2]; [|done|done].
  by rewrite !persist_then_respond.
Qed.

Lemma authorize_premium w env req st f tok userId :
  f_notes f <> [] ->
  configuration_present env ->
  carries_bearer (authorization req) tok ->
  getUser w tok = Some userId ->
  lookup_row (profiles_answer w userId) (profiles st) userId = VStr (js "premium") ->
  exists apiKey,
    authorize w env req f {| store := st; log := [] |}
    = (Normal {| c_apiKey := apiKey; c_userId := userId; c_plan := premium;
                 c_usedBefore := S754_zero false |},
       {| store := st; log := [AuthGetUser tok; SelectProfile userId] |}).
Proof.
  intros Hnotes ((k & Hk & Hk') & (u & Hu & Hu') & (r & Hr & Hr')) Hb Hget Hplan.
  assert (Htok: accessToken (default [] (authorization req)) = tok).
  { destruct Hb as (scheme & Hh & Hb). rewrite Hh. apply carries_bearer_token.
    by exists scheme. }
  assert (tok <> []) as Hne by (by destruct Hb as (? & _ & _ & ?)).
  destruct f as [[|n0 notes] count style mode]; [done|].
  destruct k as [|k0 k]; [done|]. destruct u; [done|]. destruct r; [done|].
  destruct tok as [|t0 tok]; [done|].
  exists (k0 :: k).
  unfold authorize. rewrite Hk, Hu, Hr, Htok. run.
  rewrite Hget. run. rewrite Hplan. reflexivity.
Qed.

(** X10: a premium user is not metered: the request passes whatever the
    count and the stored usage, the usage table is neither read nor
    written, and the usage in the store stays as it was. *)
Theorem premium_is_not_metered :
  forall w env req st f tok userId,
    read_fields (req_json req) = Ok f ->
    f_notes f <> [] ->
    configuration_present env ->
    carries_bearer (authorization req) tok ->
    getUser w tok = Some userId ->
    lookup_row (profiles_answer w userId) (profiles st) userId = VStr (js "premium") ->
    (exists apiKey rest,
       log (snd (POST w env req st))
       = [AuthGetUser tok; SelectProfile userId;
          FetchCompletion apiKey
            (buildFlashcardPrompt (f_notes f) (f_count f) (f_style f) (f_mode f))]
         ++ rest
       /\ Forall (fun e => is_usage e = false) rest)
    /\ usage (store (snd (POST w env req st))) = usage st.
Proof.
  intros w env req st f tok userId Hf Hnotes Henv Hb Hget Hplan.
  destruct (authorize_premium w env req st f tok userId Hnotes Henv Hb Hget Hplan)
    as (apiKey & Ha).
  rewrite (POST_after_checks _ _ _ _ _ _ _ Hf Ha). rewrite settle_state, run_bind.
  set (c := {| c_apiKey := apiKey; c_userId := userId; c_plan := premium;
               c_usedBefore := S754_zero false |}).
  set (st1 := {| store := st; log := [AuthGetUser tok; SelectProfile userId] |}).
  change (c_apiKey c) with apiKey.
  pose proof (generate_state w f apiKey st1) as Hfetch.
  destruct (generate w f apiKey st1) as [o st2]. simpl in Hfetch. subst st2.
  destruct o as [d|r|e].
  - rewrite run_bind.
    pose proof (persist_normal w f c d (fetched st1 apiKey f)) as Hn.
    pose proof (persist_log w f c d (fetched st1 apiKey f)) as Hl.
    pose proof (persist_store w f c d (fetched st1 apiKey f)) as Hs.
    destruct (persist w f c d _) as [o st3]. simpl in Hn, Hl, Hs. subst o.
    unfold respond. simpl. rewrite Hl, Hs. split.
    + exists apiKey, [InsertGeneration (inserted_row f c d)]. split.
      * by destruct (insert_result w _).
      * by repeat constructor.
    + by destruct (insert_result w _).
  - simpl. split; [|done]. exists apiKey, []. split; [reflexivity | constructor].
  - simpl. split; [|done]. exists apiKey, []. split; [reflexivity | constructor].
Qed.

(** X2: a free-plan user whose request is answered with 200 is charged
    the cards of the response: once the usage write is stored, the usage
    is the usage read before plus the number of cards returned, whether
    or not the generation row was stored; the profiles are untouched. *)
Theorem free_plan_usage_counts_returned_cards :
  forall w env req st f tok userId used,
    read_fields (req_json req) = Ok f ->
    f_notes f <> [] ->
    configuration_present env ->
    carries_bearer (authorization req) tok ->
    getUser w tok = Some userId ->
    lookup_row (profiles_answer w userId) (profiles st) userId <> VStr (js "premium") ->
    Val.ToNumber
      (Val.nullish (lookup_row (usage_answer w userId) (usage st) userId)
         (VNum (S754_zero false))) = Ok used ->
    status (fst (POST w env req st)) = 200 ->
    (forall row, insert_result w row <> Rejected) ->
    (forall u n, upsert_result w u n = Written) ->
    exists title cleaned,
      payload (fst (POST w env req st)) = output_value title cleaned /\
      usage (store (snd (POST w env req st)))
      = <[userId := VNum (Num.add used (Num.of_Z (Z.of_nat (length cleaned))))]> (usage st) /\
      profiles (store (snd (POST w env req st))) = profiles st.
Proof.
  intros w env req st f tok userId used Hf Hnotes Henv Hb Hget Hplan Hused H Hins Hups.
  destruct (POST_success _ _ _ _ H) as (f' & c & st1 & d & Hf' & Ha & Hg & ->).
  rewrite Hf in Hf'. injection Hf' as <-.
  destruct (authorize_free_plan w env req st f tok userId used
              Hnotes Henv Hb Hget Hplan Hused) as (apiKey & Hauth).
  rewrite Ha in Hauth.
  destruct (Num.gtb (Num.add used (f_count f)) limit); [done|].
  injection Hauth as -> ->.
  exists (d_title d), (d_cleaned d). split; [done|].
  cbn [snd]. rewrite persist_store. cbn [c_plan c_userId]. rewrite Hups.
  specialize (Hins (inserted_row f
    {| c_apiKey := apiKey; c_userId := userId; c_plan := free; c_usedBefore := used |} d)).
  by destruct (insert_result w _).
Qed.


(** X8: with notes present the configuration comes next, before the
    token: without the completion key the answer is 500 naming that key;
    with it but without the storage address or its key the answer is 500
    naming the storage variables. An empty value counts as missing, and
    no call is made. *)
Theorem missing_configuration_is_500 :
  forall w env req st f,
    read_fields (req_json req) = Ok f ->
    f_notes f <> [] ->
    (unset (GROQ_API_KEY env) ->
     POST w env req st
     = ({| status := 500;
           payload := error_payload "Server misconfigured: missing GROQ_API_KEY" |},
        {| store := st; log := [] |}))
    /\ (~ unset (GROQ_API_KEY env) ->
        unset (NEXT_PUBLIC_SUPABASE_URL env) \/ unset (SUPABASE_SERVICE_ROLE_KEY env) ->
        POST w env req st
        = ({| status := 500;
              payload := error_payload "Server misconfigured: missing Supabase server env vars" |},
           {| store := st; log := [] |})).
Proof.
  intros w env req st f Hf Hnotes.
  destruct f as [[|n0 notes] count style mode]; [done|].
  unfold POST, handle. rewrite Hf, run_bind. simpl lift. cbv iota beta.
  rewrite run_bind. unfold authorize, unset. split.
  - by intros [-> | ->].
  - intros Hk Hs. destruct (GROQ_API_KEY env) as [[|k0 k]|]; [tauto | | tauto].
    by destruct Hs as [[-> | ->] | [-> | ->]];
      destruct (NEXT_PUBLIC_SUPABASE_URL env) as [[|??]|];
      destruct (SUPABASE_SERVICE_ROLE_KEY env) as [[|??]|].
Qed.

(** X9: a bearer token that the identity service does not resolve is
    answered 401 after that one call: no table is read, the completion
    service is not called, nothing is stored. *)
Theorem unknown_token_is_401 :
  forall w env req st f tok,
    read_fields (req_json req) = Ok f ->
    f_notes f <> [] ->
    configuration_present env ->
    carries_bearer (authorization req) tok ->
    getUser w tok = None ->
    POST w env req st
    = ({| status := 401; payload := error_payload "Unauthorized" |},
       {| store := st; log := [AuthGetUser tok] |}).
Proof.
  intros w env req st f tok Hf Hnotes ((k & Hk & Hk') & (u & Hu & Hu') & (r & Hr & Hr'))
    Hb Hget.
  assert (Htok: accessToken (default [] (authorization req)) = tok).
  { destruct Hb as (scheme & Hh & Hb). rewrite Hh. apply carries_bearer_token.
    by exists scheme. }
  assert (tok <> []) as Hne by (by destruct Hb as (? & _ & _ & ?)).
  destruct f as [[|n0 notes] count style mode]; [done|].
  destruct k as [|k0 k]; [done|]. destruct u; [done|]. destruct r; [done|].
  destruct tok as [|t0 tok]; [done|].
  unfold POST, handle. rewrite Hf, run_bind. simpl lift. cbv iota beta.
  rewrite run_bind. unfold authorize. rewrite Hk, Hu, Hr, Htok. run.
  rewrite Hget. reflexivity.
Qed.

Lemma add_nan_not_over used : Num.gtb (Num.add used Num.NaN) limit = false.
Proof. by destruct used as [[]|[]| |[] m e]. Qed.

(** X19: a count that is not a number is not stopped by the quota:
    whatever the usage of the free-plan user, the completion service is
    called; and a 200 response to such a request carries no card. *)
Theorem count_not_a_number_passes_quota :
  forall w env req st f tok userId used,
    read_fields (req_json req) = Ok f ->
    f_count f = Num.NaN ->
    f_notes f <> [] ->
    configuration_present env ->
    carries_bearer (authorization req) tok ->
    getUser w tok = Some userId ->
    lookup_row (profiles_answer w userId) (profiles st) userId <> VStr (js "premium") ->
    Val.ToNumber
      (Val.nullish (lookup_row (usage_answer w userId) (usage st) userId)
         (VNum (S754_zero false))) = Ok used ->
    (exists apiKey rest,
       log (snd (POST w env req st))
       = [AuthGetUser tok; SelectProfile userId; SelectUsage userId;
          FetchCompletion apiKey
            (buildFlashcardPrompt (f_notes f) Num.NaN (f_style f) (f_mode f))]
         ++ rest)
    /\ (status (fst (POST w env req st)) = 200 ->
        exists title, payload (fst (POST w env req st)) = output_value title []).
Proof.
  intros w env req st f tok userId used Hf Hnan Hnotes Henv Hb Hget Hplan Hused.
  destruct (authorize_free_plan w env req st f tok userId used
              Hnotes Henv Hb Hget Hplan Hused) as (apiKey & Hauth).
  rewrite Hnan, add_nan_not_over in Hauth. split.
  - rewrite (POST_after_checks _ _ _ _ _ _ _ Hf Hauth), settle_state, run_bind.
    cbn [c_apiKey].
    pose proof (generate_state w f apiKey
      {| store := st; log := [AuthGetUser tok; SelectProfile userId; SelectUsage userId] |})
      as Hfetch.
    destruct (generate w f apiKey _) as [[d|r|e] st2]; simpl in Hfetch; subst st2.
    + rewrite run_bind.
      match goal with
      | |- context [persist w f ?c d ?s] =>
          pose proof (persist_normal w f c d s) as Hn;
          pose proof (persist_log w f c d s) as Hl;
          destruct (persist w f c d s) as [o st3]
      end.
      simpl in Hn, Hl. subst o. unfold respond. simpl. rewrite Hl, Hnan.
      by eexists apiKey, _.
    + simpl. rewrite Hnan. by exists apiKey, [].
    + simpl. rewrite Hnan. by exists apiKey, [].
  - intros H.
    destruct (POST_success _ _ _ _ H) as (f' & c & st1 & d & Hf' & Ha & Hg & ->).
    rewrite Hf in Hf'. injection Hf' as <-.
    destruct (generate_normal _ _ _ _ _ _ Hg) as [_ (fl & Hfl)].
    exists (d_title d). simpl. f_equal.
    apply (clean_length _ _ _ 0) in Hfl; [|by rewrite Hnan|lia].
    destruct (d_cleaned d); [done | simpl in Hfl; lia].
Qed.

(** *** The properties at sample requests *)

Lemma sample_checks_pass w :
  getUser w = getUser sample_world ->
  profiles_answer w = profiles_answer sample_world ->
  usage_answer w = usage_answer sample_world ->
  authorize w sample_env
    (sample_request (Some (js "Bearer tok")) "{'notes':'photosynthesis','count':3}")
    (sample_fields 3 "auto") {| store := sample_store; log := [] |}
  = (Normal sample_caller, checked).
Proof.
  destruct w as [g p u c i r]. simpl. intros -> -> ->. by vm_compute.
Qed.

Lemma upstream_failure_is_mirrored_witness :
  POST (replying (Reply 429 (js "slow down"))) sample_env
    (sample_request (Some (js "Bearer tok")) "{'notes':'photosynthesis','count':3}")
    sample_store
  = ({| status := 429;
        payload := VObj [ (js "error", VStr (js "Groq request failed"));
                          (js "details", VStr (js "slow down")) ] |},
     fetched {| store := sample_store; log := log checked |} (c_apiKey sample_caller)
       (sample_fields 3 "auto")).
Proof.
  apply (proj1 (upstream_failure_is_mirrored
                  (replying (Reply 429 (js "slow down"))) sample_env
                  (sample_request (Some (js "Bearer tok"))
                     "{'notes':'photosynthesis','count':3}")
                  sample_store (sample_fields 3 "auto") sample_caller checked
                  429 (js "slow down")
                  ltac:(vm_compute; reflexivity)
                  (sample_checks_pass _ eq_refl eq_refl eq_refl)
                  eq_refl ltac:(lia))).
  lia.
Defined.

Lemma reply_without_content_is_502_witness :
  POST (replying (Reply 200 (jsq "{'choices':[]}"))) sample_env
    (sample_request (Some (js "Bearer tok")) "{'notes':'photosynthesis','count':3}")
    sample_store
  = ({| status := 502; payload := error_payload "No response from Groq" |},
     fetched {| store := sample_store; log := log checked |} (c_apiKey sample_caller)
       (sample_fields 3 "auto")).
Proof.
  apply (proj2 (reply_without_content_is_502
                  (replying (Reply 200 (jsq "{'choices':[]}"))) sample_env
                  (sample_request (Some (js "Bearer tok"))
                     "{'notes':'photosynthesis','count':3}")
                  sample_store (sample_fields 3 "auto") sample_caller checked
                  200 (jsq "{'choices':[]}")
                  ltac:(vm_compute; reflexivity)
                  (sample_checks_pass _ eq_refl eq_refl eq_refl)
                  eq_refl ltac:(lia))
           (VObj [(js "choices", VArr [])])).
  - vm_compute; reflexivity.
  - reflexivity.
Defined.

Lemma unreadable_reply_is_500_witness :
  POST (replying (Reply 200 (reply_with "Sorry, I cannot help with that."))) sample_env
    (sample_request (Some (js "Bearer tok")) "{'notes':'photosynthesis','count':3}")
    sample_store
  = ({| status := 500;
        payload := VObj [(js "error", VStr (js "Model did not return valid JSON"))] |},
     fetched {| store := sample_store; log := log checked |} (c_apiKey sample_caller)
       (sample_fields 3 "auto")).
Proof.
  apply (unreadable_reply_is_500
           (replying (Reply 200 (reply_with "Sorry, I cannot help with that."))) sample_env
           (sample_request (Some (js "Bearer tok")) "{'notes':'photosynthesis','count':3}")
           sample_store (sample_fields 3 "auto") sample_caller checked
           200 (reply_with "Sorry, I cannot help with that.")
           (VObj [(js "choices",
                   VArr [VObj [(js "message",
                                VObj [(js "content",
                                       VStr (js "Sorry, I cannot help with that."))])]])])
           (js "Sorry, I cannot help with that.") JSON.not_json
           (Error (js "Model did not return valid JSON"))).
  - vm_compute; reflexivity.
  - exact (sample_checks_pass _ eq_refl eq_refl eq_refl).
  - reflexivity.
  - lia.
  - vm_compute; reflexivity.
  - reflexivity.
  - vm_compute; discriminate.
  - vm_compute; reflexivity.
  - vm_compute; reflexivity.
Defined.

Lemma off_schema_reply_is_empty_success_witness :
  fst (POST (replying (Reply 200 (reply_with "[1,2,3]"))) sample_env
         (sample_request (Some (js "Bearer tok")) "{'notes':'photosynthesis','count':3}")
         sample_store)
  = {| status := 200; payload := output_value (js "Flashcards") [] |}.
Proof.
  apply (off_schema_reply_is_empty_success
           (replying (Reply 200 (reply_with "[1,2,3]"))) sample_env
           (sample_request (Some (js "Bearer tok")) "{'notes':'photosynthesis','count':3}")
           sample_store (sample_fields 3 "auto") sample_caller checked
           200 (reply_with "[1,2,3]")
           (VObj [(js "choices",
                   VArr [VObj [(js "message",
                                VObj [(js "content", VStr (js "[1,2,3]"))])]])])
           (VArr [VNum (Num.of_Z 1); VNum (Num.of_Z 2); VNum (Num.of_Z 3)])
           (js "Flashcards")).
  - vm_compute; reflexivity.
  - exact (sample_checks_pass _ eq_refl eq_refl eq_refl).
  - reflexivity.
  - lia.
  - vm_compute; reflexivity.
  - reflexivity.
  - vm_compute; reflexivity.
  - reflexivity.
  - reflexivity.
Defined.

Lemma success_carries_well_formed_cards_witness :
  exists title cleaned,
    payload (fst (POST sample_world sample_env
                    (sample_request (Some (js "Bearer tok"))
                       "{'notes':'photosynthesis','count':5}") sample_store))
    = output_value title cleaned /\
    Forall well_formed cleaned /\
    (length cleaned <= 50)%nat.
Proof.
  apply (success_carries_well_formed_cards sample_world sample_env
           (sample_request (Some (js "Bearer tok")) "{'notes':'photosynthesis','count':5}")
           sample_store).
  vm_compute; reflexivity.
Defined.

Lemma success_inserts_what_it_returns_witness :
  exists f row,
    read_fields (req_json (sample_request (Some (js "Bearer tok"))
                             "{'notes':'photosynthesis','count':5}")) = Ok f /\
    inserted_rows (log (snd (POST sample_world sample_env
                               (sample_request (Some (js "Bearer tok"))
                                  "{'notes':'photosynthesis','count':5}") sample_store)))
    = [row] /\
    g_output row
    = payload (fst (POST sample_world sample_env
                      (sample_request (Some (js "Bearer tok"))
                         "{'notes':'photosynthesis','count':5}") sample_store)) /\
    Val.get (g_output row) (js "title") = VStr (g_title row) /\
    g_input row = f_notes f /\ g_mode row = f_mode f /\ g_style row = f_style f /\
    g_requested_count row = f_count f.
Proof.
  apply (success_inserts_what_it_returns sample_world sample_env
           (sample_request (Some (js "Bearer tok")) "{'notes':'photosynthesis','count':5}")
           sample_store).
  vm_compute; reflexivity.
Defined.

Lemma rejected_insert_skips_usage_witness :
  store (snd (POST (writing Rejected Written) sample_env
                (sample_request (Some (js "Bearer tok"))
                   "{'notes':'photosynthesis','count':5}") sample_store))
  = sample_store /\
  forall u n,
    UpsertUsage u n ∉
      log (snd (POST (writing Rejected Written) sample_env
                  (sample_request (Some (js "Bearer tok"))
                     "{'notes':'photosynthesis','count':5}") sample_store)).
Proof.
  apply (rejected_insert_skips_usage (writing Rejected Written) sample_env
           (sample_request (Some (js "Bearer tok")) "{'notes':'photosynthesis','count':5}")
           sample_store).
  - vm_compute; reflexivity.
  - intros row. reflexivity.
Defined.

Lemma response_ignores_write_results_witness :
  fst (POST sample_world sample_env
         (sample_request (Some (js "Bearer tok")) "{'notes':'photosynthesis','count':5}")
         sample_store)
  = fst (POST (writing Rejected Refused) sample_env
           (sample_request (Some (js "Bearer tok")) "{'notes':'photosynthesis','count':5}")
           sample_store).
Proof.
  apply (response_ignores_write_results sample_world (writing Rejected Refused) sample_env
           (sample_request (Some (js "Bearer tok")) "{'notes':'photosynthesis','count':5}")
           sample_store eq_refl eq_refl eq_refl eq_refl).
Defined.

Lemma premium_is_not_metered_witness :
  (exists apiKey rest,
     log (snd (POST sample_world sample_env
                 (sample_request (Some (js "Bearer tok"))
                    "{'notes':'photosynthesis','count':50}") premium_store))
     = [AuthGetUser (js "tok"); SelectProfile (js "u1");
        FetchCompletion apiKey
          (buildFlashcardPrompt (js "photosynthesis") (Num.of_Z 50) (js "balanced")
             (js "auto"))]
       ++ rest
     /\ Forall (fun e => is_usage e = false) rest)
  /\ usage (store (snd (POST sample_world sample_env
                          (sample_request (Some (js "Bearer tok"))
                             "{'notes':'photosynthesis','count':50}") premium_store)))
     = usage premium_store.
Proof.
  apply (premium_is_not_metered sample_world sample_env
           (sample_request (Some (js "Bearer tok")) "{'notes':'photosynthesis','count':50}")
           premium_store (sample_fields 50 "auto") (js "tok") (js "u1")).
  - vm_compute; reflexivity.
  - vm_compute; discriminate.
  - exact sample_configuration.
  - exact sample_bearer.
  - vm_compute; reflexivity.
  - vm_compute; reflexivity.
Defined.

Lemma free_plan_usage_counts_returned_cards_witness :
  read_fields (req_json (sample_request (Some (js "Bearer tok"))
                           "{'notes':'photosynthesis'}"))
  = Ok (sample_fields 12 "auto") /\
  usage (store (snd (POST sample_world sample_env
                       (sample_request (Some (js "Bearer tok")) "{'notes':'photosynthesis'}")
                       light_store)))
  = <[js "u1" := VNum (Num.of_Z 15)]> (usage light_store) /\
  exists title cleaned,
    payload (fst (POST sample_world sample_env
                    (sample_request (Some (js "Bearer tok")) "{'notes':'photosynthesis'}")
                    light_store))
    = output_value title cleaned /\
    usage (store (snd (POST sample_world sample_env
                         (sample_request (Some (js "Bearer tok"))
                            "{'notes':'photosynthesis'}") light_store)))
    = <[js "u1" := VNum (Num.add (Num.of_Z 10) (Num.of_Z (Z.of_nat (length cleaned))))]>
        (usage light_store) /\
    profiles (store (snd (POST sample_world sample_env
                            (sample_request (Some (js "Bearer tok"))
                               "{'notes':'photosynthesis'}") light_store)))
    = profiles light_store.
Proof.
  split; [vm_compute; reflexivity|]. split; [vm_compute; reflexivity|].
  apply (free_plan_usage_counts_returned_cards sample_world sample_env
           (sample_request (Some (js "Bearer tok")) "{'notes':'photosynthesis'}")
           light_store (sample_fields 12 "auto") (js "tok") (js "u1") (Num.of_Z 10)).
  - vm_compute; reflexivity.
  - vm_compute; discriminate.
  - exact sample_configuration.
  - exact sample_bearer.
  - vm_compute; reflexivity.
  - vm_compute; discriminate.
  - vm_compute; reflexivity.
  - vm_compute; reflexivity.
  - intros row. discriminate.
  - intros u n. reflexivity.
Defined.


Lemma missing_configuration_is_500_witness :
  POST sample_world
    {| GROQ_API_KEY := Some []; NEXT_PUBLIC_SUPABASE_URL := None;
       SUPABASE_SERVICE_ROLE_KEY := None |}
    (sample_request None "{'notes':'photosynthesis'}") sample_store
  = ({| status := 500;
        payload := error_payload "Server misconfigured: missing GROQ_API_KEY" |},
     {| store := sample_store; log := [] |}).
Proof.
  apply (proj1 (missing_configuration_is_500 sample_world
                  {| GROQ_API_KEY := Some []; NEXT_PUBLIC_SUPABASE_URL := None;
                     SUPABASE_SERVICE_ROLE_KEY := None |}
                  (sample_request None "{'notes':'photosynthesis'}") sample_store
                  (sample_fields 12 "auto")
                  ltac:(vm_compute; reflexivity) ltac:(vm_compute; discriminate))).
  by right.
Defined.

Lemma unknown_token_is_401_witness :
  POST sample_world sample_env
    (sample_request (Some (js "bearer stale")) "{'notes':'photosynthesis'}") sample_store
  = ({| status := 401; payload := error_payload "Unauthorized" |},
     {| store := sample_store; log := [AuthGetUser (js "stale")] |}).
Proof.
  apply (unknown_token_is_401 sample_world sample_env
           (sample_request (Some (js "bearer stale")) "{'notes':'photosynthesis'}")
           sample_store (sample_fields 12 "auto") (js "stale")).
  - vm_compute; reflexivity.
  - vm_compute; discriminate.
  - exact sample_configuration.
  - exists (js "bearer "). split; [reflexivity|]. split; [reflexivity | by vm_compute].
  - vm_compute; reflexivity.
Defined.

Lemma count_not_a_number_passes_quota_witness :
  (exists apiKey rest,
     log (snd (POST sample_world sample_env
                 (sample_request (Some (js "Bearer tok"))
                    "{'notes':'photosynthesis','count':'abc'}") sample_store))
     = [AuthGetUser (js "tok"); SelectProfile (js "u1"); SelectUsage (js "u1");
        FetchCompletion apiKey
          (buildFlashcardPrompt (js "photosynthesis") Num.NaN (js "balanced") (js "auto"))]
       ++ rest)
  /\ (status (fst (POST sample_world sample_env
                     (sample_request (Some (js "Bearer tok"))
                        "{'notes':'photosynthesis','count':'abc'}") sample_store)) = 200 ->
      exists title,
        payload (fst (POST sample_world sample_env
                        (sample_request (Some (js "Bearer tok"))
                           "{'notes':'photosynthesis','count':'abc'}") sample_store))
        = output_value title []).
Proof.
  apply (count_not_a_number_passes_quota sample_world sample_env
           (sample_request (Some (js "Bearer tok"))
              "{'notes':'photosynthesis','count':'abc'}")
           sample_store
           {| f_notes := js "photosynthesis"; f_count := Num.NaN;
              f_style := js "balanced"; f_mode := js "auto" |}
           (js "tok") (js "u1") (Num.of_Z 95)).
  - vm_compute; reflexivity.
  - reflexivity.
  - vm_compute; discriminate.
  - exact sample_configuration.
  - exact sample_bearer.
  - vm_compute; reflexivity.
  - vm_compute; discriminate.
  - vm_compute; reflexivity.
Defined.
